(** * x-scraper: tweet pipeline, recovery sweep, session check, rotation cursor

    A shallow embedding of the orchestration code of the scraper
    (worker.ts, index.ts, scraper.ts, services/aiService.ts,
    services/discordService.ts, utils/getDataDexScreener.ts, config/seed.ts
    and the Mongoose schemas) together with the properties stated about it.

    Conventions.
    - An [async] function is run to completion before the next one starts,
      except where [awaitBeside] lets another task run during an [await].
      The document store, the clock and the module-level variables of
      worker.ts are threaded explicitly.
    - Time passes while the code sleeps and while the AI service answers;
      the image download and the accesses to the store take none.
    - Whatever the outside world decides (the AI service, the image
      download, DexScreener, the browser page, the date parser) is a field
      of an oracle record; the code is modelled for every oracle.
    - A JavaScript number that holds a market figure is a finite double,
      given by its exact value, a rational; [toFixed] and [toString] are
      defined by the language on that exact value.
    - [null] and [undefined] are both [None]. *)

From Stdlib Require Import String Ascii List ZArith QArith Qabs Qround Bool Lia Lqa Permutation DecimalString.
Import ListNotations.
Open Scope string_scope.
Open Scope Z_scope.

Set Implicit Arguments.

(* ================================================================== *)
(** * JavaScript helpers *)

Module Js.

(** Truthiness of a value that is a string, [null] or [undefined]. *)
Definition truthy (v : option string) : bool :=
  match v with
  | Some s => negb (s =? "")%string
  | None => false
  end.

(** Truthiness of a number that may be absent: [0] and absent are falsy. *)
Definition truthyNum (v : option Q) : bool :=
  match v with
  | Some q => negb (Qeq_bool q 0)
  | None => false
  end.

(** [v || d] on strings. *)
Definition orStr (v : option string) (d : string) : string :=
  match v with
  | Some s => if (s =? "")%string then d else s
  | None => d
  end.

(** [v || d] on numbers. *)
Definition orNum (v : option Q) (d : Q) : Q :=
  match v with
  | Some q => if Qeq_bool q 0 then d else q
  | None => d
  end.













End Js.

Open Scope list_scope.

(* ================================================================== *)
(** * Data model *)

(** [scrapedFor]: where a post was captured. *)
Inductive Source := profile | mention | feed.

(** The three values the code ever writes to [Post.status]. *)
Inductive Status := unprocessed | processed | discarded.

Definition Status_eqb (a b : Status) : bool :=
  match a, b with
  | unprocessed, unprocessed | processed, processed | discarded, discarded => true
  | _, _ => false
  end.

(** scraper.ts, [interface Tweet]: every field may be absent. *)
Record Tweet := {
  tw_username : option string;
  tw_text : option string;
  tw_url : option string;
  tw_timestamp : option string;
  tw_mediaUrl : option string;
  tw_scrapedFor : option Source
}.

(** A [Post] document as built by [new Post({...})], before validation. *)
Record PostDoc := {
  d_tweetId : option string;
  d_username : option string;
  d_text : option string;
  d_timestamp : option Z;
  d_mediaUrl : option string;
  d_scrapedFor : Source
}.

(** A stored [Post] (models/Post.ts, PostSchema). *)
Record RawPost := {
  tweetId : string;
  username : string;
  text : option string;
  timestamp : Z;
  mediaUrl : option string;
  status : Status;
  scrapedFor : Source
}.

Record Contract := {
  address : string;
  blockchain : option string
}.

(** A number that need not be finite: what [parseFloat] returns. *)
Inductive JsNumber :=
| NaN
| Infinity (negative : bool)
| Finite (q : Q).

(** worker.ts, [interface EnrichedData]. *)
Record EnrichedData := {
  e_address : string;
  e_tokenSymbol : option string;
  e_priceUsd : option JsNumber;
  e_fdv : option Q;
  e_liquidity : option Q;
  e_volume24h : option Q;
  e_blockchain : option string
}.

(** What [classifyTweet] returns. *)
Record Analysis := {
  category : string;
  tags : list string;
  contracts : list Contract
}.

(** [dtoTweetIA], and the stored [TweetsIA] document. *)
Record TweetIA := {
  ia_tweetId : string;
  ia_username : option string;
  ia_text : option string;
  ia_timestamp : option Z;
  ia_category : string;
  ia_tags : list string;
  ia_contracts : list Contract;
  ia_enriched : list EnrichedData;
  ia_mediaUrl : option string
}.

(** utils/getDataDexScreener.ts, [interface DexScreenerPair]. *)
Record DexScreenerPair := {
  baseSymbol : string;
  priceUsd : option string;
  liquidityUsd : option Q;
  volumeH24 : Q;
  fdv : option Q
}.

Inductive Channel := general | alerts.

(** A content part sent to the model. *)
Inductive Part :=
| PText (s : string)
| PInline (data mimeType : string).

(** What a thrown value looks like to [err?.status]. *)
Inductive Err :=
| ErrStatus (code : Z)
| ErrOther (msg : string).

(** What [ai.models.generateContent] does with a request. *)
Inductive ServiceOutcome :=
| SvcJson (a : Analysis)     (* response.text parses to this object *)
| SvcNoText                  (* response.text is undefined *)
| SvcBadJson                 (* JSON.parse throws *)
| SvcError (e : Err).        (* the request rejects *)

(** Observable effects, in program order. *)
Inductive Event :=
| EvAICall (time : Z) (parts : list Part)
| EvPostSave (id : string)
| EvPostUpdate (id : option string) (st : Status)
| EvTweetIASave (id : string)
| EvDiscord (ch : Channel) (dto : TweetIA)
| EvErrorChannel (msg : string)
| EvRetrying (id : string).

(** The outside world. *)
Record World := {
  parseDate : string -> option Z;          (* new Date(s); None is Invalid Date *)
  download : string -> option string;      (* axios.get + base64; None is a failed request *)
  service : Z -> list Part -> ServiceOutcome * nat;   (* outcome and latency in ms of a call issued at a time *)
  dexGet : string -> option (list DexScreenerPair);   (* response.data.pairs, [] when the field is missing; None is a failed request *)
  parseFloat : string -> JsNumber
}.

(** The document store, the clock and [lastAICallTime]. *)
Record State := {
  posts : list RawPost;
  tweetsIA : list TweetIA;
  clock : Z;
  lastAICallTime : Z
}.

(* ================================================================== *)
(** * A state, exception and trace monad *)

Inductive Res (A : Type) :=
| Ok (a : A)
| Throw (e : Err).
Arguments Ok {A} a.
Arguments Throw {A} e.

Definition M (A : Type) := State -> Res A * State * list Event.

Definition ret {A} (a : A) : M A := fun s => (Ok a, s, []).

Definition throw {A} (e : Err) : M A := fun s => (Throw e, s, []).

Definition bind {A B} (m : M A) (k : A -> M B) : M B :=
  fun s =>
    match m s with
    | (Ok a, s1, ev1) =>
        match k a s1 with
        | (r, s2, ev2) => (r, s2, ev1 ++ ev2)
        end
    | (Throw e, s1, ev1) => (Throw e, s1, ev1)
    end.

(** [try { m } catch (e) { h e }]. *)
Definition tryCatch {A} (m : M A) (h : Err -> M A) : M A :=
  fun s =>
    match m s with
    | (Ok a, s1, ev1) => (Ok a, s1, ev1)
    | (Throw e, s1, ev1) =>
        match h e s1 with
        | (r, s2, ev2) => (r, s2, ev1 ++ ev2)
        end
    end.

Definition emit (e : Event) : M unit := fun s => (Ok tt, s, [e]).

Definition get : M State := fun s => (Ok s, s, []).

Definition put (s : State) : M unit := fun _ => (Ok tt, s, []).

Notation "x <- m ;; k" := (bind m (fun x => k))
  (at level 61, m at next level, right associativity).
Notation "m ;;; k" := (bind m (fun _ => k))
  (at level 61, right associativity).

(** [await new Promise(r => setTimeout(r, ms))]. *)
Definition sleep (ms : Z) : M unit :=
  fun s => (Ok tt,
            {| posts := posts s; tweetsIA := tweetsIA s;
               clock := clock s + ms; lastAICallTime := lastAICallTime s |},
            []).

Definition now : M Z := fun s => (Ok (clock s), s, []).

(** [for (const x of xs) { await body(x) }]. *)
Fixpoint forEach {A} (xs : list A) (body : A -> M unit) : M unit :=
  match xs with
  | [] => ret tt
  | x :: rest => body x ;;; forEach rest body
  end.

(* ================================================================== *)
(** * The document store (Mongoose models Post and TweetsIA) *)

(** A [required: true] String path rejects absent and empty values. *)
Definition requiredStr (v : option string) : option string :=
  match v with
  | Some s => if (s =? "")%string then None else Some s
  | None => None
  end.

(** Validation of a Post against PostSchema: [tweetId], [username] and
    [timestamp] are required; [status] defaults to ["unprocessed"]. *)
Definition validatePost (d : PostDoc) : option RawPost :=
  match requiredStr (d_tweetId d), requiredStr (d_username d), d_timestamp d with
  | Some id, Some u, Some ts =>
      Some {| tweetId := id; username := u; text := d_text d; timestamp := ts;
              mediaUrl := d_mediaUrl d; status := unprocessed;
              scrapedFor := d_scrapedFor d |}
  | _, _, _ => None
  end.

Definition hasId (id : string) (p : RawPost) : bool := (tweetId p =? id)%string.

Definition lookupPost (id : string) (ps : list RawPost) : option RawPost :=
  find (hasId id) ps.

(** [Post.findOne({ tweetId: key })]. *)
Definition Post_findOne (key : option string) : M (option RawPost) :=
  fun s =>
    (Ok (match key with
         | Some id => lookupPost id (posts s)
         | None => None
         end), s, []).

Definition setPosts (ps : list RawPost) (s : State) : State :=
  {| posts := ps; tweetsIA := tweetsIA s; clock := clock s;
     lastAICallTime := lastAICallTime s |}.

Definition setTweetsIA (l : list TweetIA) (s : State) : State :=
  {| posts := posts s; tweetsIA := l; clock := clock s;
     lastAICallTime := lastAICallTime s |}.

Definition setClock (c : Z) (s : State) : State :=
  {| posts := posts s; tweetsIA := tweetsIA s; clock := c;
     lastAICallTime := lastAICallTime s |}.

Definition setLastAICallTime (c : Z) (s : State) : State :=
  {| posts := posts s; tweetsIA := tweetsIA s; clock := clock s;
     lastAICallTime := c |}.

(** [post.save()]: validation, then insertion under the unique index on
    [tweetId]. *)
Definition Post_save (d : PostDoc) : M unit :=
  fun s =>
    match validatePost d with
    | None => (Throw (ErrOther "ValidationError"), s, [])
    | Some p =>
        if existsb (hasId (tweetId p)) (posts s)
        then (Throw (ErrOther "E11000 duplicate key"), s, [])
        else (Ok tt, setPosts (posts s ++ [p]) s, [EvPostSave (tweetId p)])
    end.

Definition withStatus (st : Status) (p : RawPost) : RawPost :=
  {| tweetId := tweetId p; username := username p; text := text p;
     timestamp := timestamp p; mediaUrl := mediaUrl p; status := st;
     scrapedFor := scrapedFor p |}.

(** Update of the first document that matches. *)
Fixpoint updateFirst (id : string) (st : Status) (ps : list RawPost) : list RawPost :=
  match ps with
  | [] => []
  | p :: rest =>
      if hasId id p then withStatus st p :: rest
      else p :: updateFirst id st rest
  end.

(** [Post.findOneAndUpdate({ tweetId: key }, { status: st }, { new: true })]. *)
Definition Post_findOneAndUpdate (key : option string) (st : Status) : M unit :=
  fun s =>
    (Ok tt,
     match key with
     | Some id => setPosts (updateFirst id st (posts s)) s
     | None => s
     end,
     [EvPostUpdate key st]).

Definition isUnprocessed (p : RawPost) : bool := Status_eqb (status p) unprocessed.

(** [Post.find({ status: "unprocessed" }).limit(limit)], for a limit of at
    least 1: the only call passes 5.  (A limit of 0 would mean no limit.) *)
Definition Post_find_unprocessed (limit : nat) : M (list RawPost) :=
  fun s => (Ok (firstn limit (filter isUnprocessed (posts s))), s, []).

(** The cast of a value to a [Number] path: NaN is refused. *)
Definition castsToNumber (v : option JsNumber) : bool :=
  match v with
  | Some NaN => false
  | _ => true
  end.

(** Validation of one element of [enriched] against EnrichedDataSchema:
    [address] is required and [priceUsd] is a [Number]. *)
Definition validEnriched (e : EnrichedData) : bool :=
  Js.truthy (Some (e_address e)) && castsToNumber (e_priceUsd e).

(** Validation of a TweetsIA against TweetIASchema: [tweetId], [username],
    [text] and [timestamp] are required, and so is the [address] of every
    element of [contracts] and of [enriched]. *)
Definition validTweetIA (d : TweetIA) : bool :=
  match requiredStr (Some (ia_tweetId d)), requiredStr (ia_username d),
        requiredStr (ia_text d), ia_timestamp d with
  | Some _, Some _, Some _, Some _ =>
      forallb (fun c => Js.truthy (Some (address c))) (ia_contracts d) &&
      forallb validEnriched (ia_enriched d)
  | _, _, _, _ => false
  end.

(** The document as Mongoose stores it: TweetIASchema has no [mediaUrl]
    path, so the field of the dto is dropped. *)
Definition castTweetIA (d : TweetIA) : TweetIA :=
  {| ia_tweetId := ia_tweetId d; ia_username := ia_username d; ia_text := ia_text d;
     ia_timestamp := ia_timestamp d; ia_category := ia_category d; ia_tags := ia_tags d;
     ia_contracts := ia_contracts d; ia_enriched := ia_enriched d; ia_mediaUrl := None |}.

Definition iaHasId (id : string) (d : TweetIA) : bool := (ia_tweetId d =? id)%string.

(** [tweetIA.save()], under the unique index on [tweetId]. *)
Definition TweetsIA_save (d : TweetIA) : M unit :=
  fun s =>
    if validTweetIA d then
      if existsb (iaHasId (ia_tweetId d)) (tweetsIA s)
      then (Throw (ErrOther "E11000 duplicate key"), s, [])
      else (Ok tt, setTweetsIA (tweetsIA s ++ [castTweetIA d]) s,
            [EvTweetIASave (ia_tweetId d)])
    else (Throw (ErrOther "ValidationError"), s, []).

(* ================================================================== *)
(** * services/aiService.ts *)

Record ClassificationInput := {
  in_text : string;
  in_mediaUrl : option string;
  in_mimeType : option string
}.

Definition notRelevant : Analysis :=
  {| category := "not-relevant"; tags := []; contracts := [] |}.

Definition errorSentinel : Analysis :=
  {| category := "error"; tags := []; contracts := [] |}.

(** The prompt template around the tweet text; its wording is abridged,
    nothing below depends on it. *)
Definition aiPrompt (txt : string) : string :=
  ("You are a highly discerning Crypto Signals Analyst AI. Content for Analysis: "
   ++ txt ++ " JSON schema must be strictly followed.")%string.

(** [urlToBase64]: the empty string when the download fails. *)
Definition urlToBase64 (W : World) (url : string) : string :=
  match download W url with
  | Some b64 => b64
  | None => ""
  end.

(** The body of the [try] of [classifyTweet]: the request, then
    [JSON.parse(response.text ?? default)].  The request carries the time
    at which it is issued; the download before it takes no time. *)
Definition generateAndParse (W : World) (contentParts : list Part) : M Analysis :=
  fun s =>
    let '(o, latency) := service W (clock s) contentParts in
    let s' := setClock (clock s + Z.of_nat latency) s in
    let ev := [EvAICall (clock s) contentParts] in
    match o with
    | SvcJson a => (Ok a, s', ev)
    | SvcNoText => (Ok notRelevant, s', ev)
    | SvcBadJson => (Throw (ErrOther "SyntaxError"), s', ev)
    | SvcError e => (Throw e, s', ev)
    end.

Definition contentPartsOf (W : World) (input : ClassificationInput) : list Part :=
  let contentParts := [PText (aiPrompt (in_text input))] in
  match in_mediaUrl input, in_mimeType input with
  | Some mediaUrl, Some mimeType =>
      if Js.truthy (Some mediaUrl) && Js.truthy (Some mimeType) then
        let imageBase64 := urlToBase64 W mediaUrl in
        if Js.truthy (Some imageBase64)
        then contentParts ++ [PInline imageBase64 mimeType]
        else contentParts
      else contentParts
  | _, _ => contentParts
  end.

Definition classifyTweet (W : World) (input : ClassificationInput) : M Analysis :=
  let contentParts := contentPartsOf W input in
  if negb (Js.truthy (Some (in_text input))) && Nat.eqb (List.length contentParts) 1
  then ret notRelevant
  else tryCatch (generateAndParse W contentParts) (fun _ => ret notRelevant).

(* ================================================================== *)
(** * utils/getDataDexScreener.ts *)

Definition betterPair (best : option DexScreenerPair) (current : DexScreenerPair)
  : option DexScreenerPair :=
  let currentLiquidity := Js.orNum (liquidityUsd current) 0 in
  let bestLiquidity :=
    match best with
    | Some b => Js.orNum (liquidityUsd b) 0
    | None => 0%Q
    end in
  if negb (Qle_bool currentLiquidity bestLiquidity) then Some current else best.

Definition getTokenDataFromDexScreener (W : World) (addr : string)
  : M (option DexScreenerPair) :=
  match dexGet W addr with
  | None => ret None
  | Some pairs =>
      if Nat.eqb (List.length pairs) 0
      then emit (EvErrorChannel addr) ;;; ret None
      else ret (fold_left betterPair pairs None)
  end.

(* ================================================================== *)
(** * worker.ts: the pipeline *)

(** [enum Category]. *)
Module Category.
Definition Trending := "Trending".
Definition Viral := "Viral".
Definition Airdrop := "Airdrop".
Definition MarketAnalysis := "Market Analysis".
Definition Signals := "Signals".
Definition LaunchAlerts := "Launch Alerts".
Definition Presale := "Presale".
Definition CryptoNews := "Crypto News".
Definition ProjectUpdates := "Project Updates".
Definition Governance := "Governance".
Definition PnLSharing := "PnL Sharing".
Definition NewMeme := "New Meme".
Definition ContractAlert := "Contract Alert".
Definition Listing := "Listing".
Definition PriceAlert := "Price Alert".
Definition News := "News".
Definition ScamWarning := "Scam Warning".
Definition MarketSentiment := "Market Sentiment".
Definition Giveaway := "Giveaway".
Definition NFT := "NFT".
Definition NotRelevant := "not-relevant".
End Category.

Definition AI_CALL_INTERVAL : Z := 6000.
Definition AI_TIMEOUT_MS : Z := 15000.

(** [pLimit(1)]: with one caller at a time the limiter runs its argument
    at once. *)
Definition aiLimiter {A} (fn : M A) : M A := fn.

Definition status503 (err : Err) : bool :=
  match err with
  | ErrStatus code => code =? 503
  | ErrOther _ => false
  end.

Fixpoint retryWithBackoff {A} (fn : M A) (retries : nat) (delay : Z) : M A :=
  tryCatch fn
    (fun err =>
       match retries with
       | S r =>
           if status503 err
           then sleep delay ;;; retryWithBackoff fn r (delay * 2)
           else throw err
       | O => throw err
       end).

(** [Promise.race] of the promise against a timer: the promise, which is
    created first, wins when it settles within [ms], also at [ms] exactly;
    otherwise the fallback is delivered at [ms], while the effects of the
    abandoned promise have still happened. *)
Definition withTimeout {A} (promise : M A) (ms : Z) (fallback : A) : M A :=
  fun s =>
    match promise s with
    | (r, s1, ev) =>
        if clock s1 - clock s <=? ms then (r, s1, ev)
        else (Ok fallback, setClock (clock s + ms) s1, ev)
    end.

(** Two tasks on the event loop.  [awaitBeside promise delay other] is the
    [await] of a promise that only waits for the network, while another
    task, started [delay] ms after the [await] begins, runs on the store and
    settles first: the caller resumes, once both have settled, on the store
    the other task has left. *)
Definition awaitBeside {A} (promise : M A) (delay : Z) (other : M unit) : M A :=
  fun s =>
    match promise s with
    | (r, s1, ev1) =>
        match other (setClock (clock s + delay) s) with
        | (_, s2, ev2) => (r, setClock (Z.max (clock s1) (clock s2)) s2, ev1 ++ ev2)
        end
    end.

(** services/discordService.ts, [sendToDiscord]: failures of the webhook
    are caught there. *)
Definition sendToDiscord (channel : Channel) (tweet : TweetIA) : M unit :=
  emit (EvDiscord channel tweet).

Definition enrichedOf (W : World) (contract : Contract) (tokenData : DexScreenerPair)
  : EnrichedData :=
  {| e_address := address contract;
     e_tokenSymbol := Some (baseSymbol tokenData);
     e_priceUsd :=
       match priceUsd tokenData with
       | Some p => if Js.truthy (Some p) then Some (parseFloat W p) else None
       | None => None
       end;
     e_fdv := fdv tokenData;
     e_liquidity := liquidityUsd tokenData;
     e_volume24h := Some (volumeH24 tokenData);
     e_blockchain := blockchain contract |}.

(** The loop over [analysis.contracts] that fills [enrichedDataArray]. *)
Fixpoint enrichContracts (W : World) (cs : list Contract) : M (list EnrichedData) :=
  match cs with
  | [] => ret []
  | contract :: rest =>
      tokenData <- getTokenDataFromDexScreener W (address contract) ;;
      more <- enrichContracts W rest ;;
      ret (match tokenData with
           | Some td => enrichedOf W contract td :: more
           | None => more
           end)
  end.

Definition highPriority : list string :=
  [Category.Airdrop; Category.LaunchAlerts; Category.Presale;
   Category.ContractAlert; Category.Listing; Category.PriceAlert;
   Category.ScamWarning; Category.Giveaway; Category.Signals;
   Category.PnLSharing].

Definition isHighPriority (c : string) : bool :=
  existsb (String.eqb c) highPriority.

(** The [switch (analysis.category)]; the result is [true] when the case
    executes [return]. *)
Definition switchChannel (key : option string) (dtoTweetIA : TweetIA) : M bool :=
  let c := ia_category dtoTweetIA in
  if isHighPriority c then
    sendToDiscord alerts dtoTweetIA ;;; ret false
  else if (c =? Category.NotRelevant)%string then
    Post_findOneAndUpdate key discarded ;;; ret true
  else
    (if negb (c =? Category.NotRelevant)%string
     then sendToDiscord general dtoTweetIA
     else ret tt) ;;;
    ret false.

(** Everything after the classification, shared word for word by
    [processTweet] and [retryFailedAI]; the result is [true] when the code
    executes [return]. *)
Definition branchOnOutcome (W : World) (key : option string)
           (mkDto : Analysis -> list EnrichedData -> Z -> TweetIA)
           (analysis : Analysis) : M bool :=
  enrichedDataArray <-
    (if negb (Nat.eqb (List.length (contracts analysis)) 0)
     then enrichContracts W (contracts analysis)
     else ret []) ;;
  if (category analysis =? "not-relevant")%string then
    Post_findOneAndUpdate key discarded ;;; ret true
  else
    n <- now ;;
    let dtoTweetIA := mkDto analysis enrichedDataArray n in
    returned <- switchChannel key dtoTweetIA ;;
    if returned then ret true
    else
      tryCatch
        (TweetsIA_save dtoTweetIA ;;;
         Post_findOneAndUpdate key processed)
        (fun _ => ret tt) ;;;
      ret false.

(** [new Date(t.timestamp ? t.timestamp : Date.now())]. *)
Definition dateOf (W : World) (n : Z) (ts : option string) : option Z :=
  match ts with
  | Some s => if Js.truthy (Some s) then parseDate W s else Some n
  | None => Some n
  end.

Definition newPost (W : World) (n : Z) (t : Tweet) : PostDoc :=
  {| d_tweetId := tw_url t;
     d_username := tw_username t;
     d_text := tw_text t;
     d_timestamp := dateOf W n (tw_timestamp t);
     d_mediaUrl := tw_mediaUrl t;
     d_scrapedFor :=
       match tw_scrapedFor t with
       | Some src => src
       | None => feed
       end |}.

Definition dtoOfTweet (W : World) (t : Tweet)
           (analysis : Analysis) (enriched : list EnrichedData) (n : Z) : TweetIA :=
  {| ia_tweetId := match tw_url t with Some u => u | None => "" end;
     ia_username := tw_username t;
     ia_text := tw_text t;
     ia_timestamp := dateOf W n (tw_timestamp t);
     ia_category := category analysis;
     ia_tags := tags analysis;
     ia_contracts := contracts analysis;
     ia_enriched := enriched;
     ia_mediaUrl := tw_mediaUrl t |}.

Definition processTweet (W : World) (t : Tweet) : M unit :=
  tryCatch
    (exists_ <- Post_findOne (tw_url t) ;;
     match exists_ with
     | Some _ => ret tt
     | None =>
         n0 <- now ;;
         let post := newPost W n0 t in
         Post_save post ;;;
         s <- get ;;
         let timeToWait := Z.max 0 (lastAICallTime s + AI_CALL_INTERVAL - clock s) in
         (if 0 <? timeToWait then sleep timeToWait else ret tt) ;;;
         s1 <- get ;;
         put (setLastAICallTime (clock s1) s1) ;;;
         analysis <-
           aiLimiter
             (withTimeout
                (retryWithBackoff
                   (classifyTweet W
                      {| in_text := Js.orStr (d_text post) "";
                         in_mediaUrl := d_mediaUrl post;
                         in_mimeType := Some "image/jpeg" |})
                   3 2000)
                20000
                errorSentinel) ;;
         if negb (category analysis =? "error")%string then
           branchOnOutcome W (tw_url t) (dtoOfTweet W t) analysis ;;; ret tt
         else
           Post_findOneAndUpdate (tw_url t) unprocessed
     end)
    (fun _ => ret tt).

(** [processTweet] with what happens during the [await] of its
    classification made explicit: [awaiting] is the identity when nothing
    else runs meanwhile, and [fun promise => awaitBeside promise delay other]
    when another task does. *)
Definition processTweetAwaiting (awaiting : M Analysis -> M Analysis)
           (W : World) (t : Tweet) : M unit :=
  tryCatch
    (exists_ <- Post_findOne (tw_url t) ;;
     match exists_ with
     | Some _ => ret tt
     | None =>
         n0 <- now ;;
         let post := newPost W n0 t in
         Post_save post ;;;
         s <- get ;;
         let timeToWait := Z.max 0 (lastAICallTime s + AI_CALL_INTERVAL - clock s) in
         (if 0 <? timeToWait then sleep timeToWait else ret tt) ;;;
         s1 <- get ;;
         put (setLastAICallTime (clock s1) s1) ;;;
         analysis <-
           awaiting
             (aiLimiter
                (withTimeout
                   (retryWithBackoff
                      (classifyTweet W
                         {| in_text := Js.orStr (d_text post) "";
                            in_mediaUrl := d_mediaUrl post;
                            in_mimeType := Some "image/jpeg" |})
                      3 2000)
                   20000
                   errorSentinel)) ;;
         if negb (category analysis =? "error")%string then
           branchOnOutcome W (tw_url t) (dtoOfTweet W t) analysis ;;; ret tt
         else
           Post_findOneAndUpdate (tw_url t) unprocessed
     end)
    (fun _ => ret tt).

Definition dtoOfPost (t : RawPost)
           (analysis : Analysis) (enriched : list EnrichedData) (n : Z) : TweetIA :=
  {| ia_tweetId := tweetId t;
     ia_username := Some (username t);
     ia_text := text t;
     ia_timestamp := Some (timestamp t);
     ia_category := category analysis;
     ia_tags := tags analysis;
     ia_contracts := contracts analysis;
     ia_enriched := enriched;
     ia_mediaUrl := mediaUrl t |}.

(** One iteration of the [for] of [retryFailedAI]; the result is [true]
    when the iteration executes [return]. *)
Definition retryOne (W : World) (t : RawPost) : M bool :=
  emit (EvRetrying (tweetId t)) ;;;
  tryCatch
    (analysis <-
       withTimeout
         (classifyTweet W
            {| in_text := Js.orStr (text t) "";
               in_mediaUrl := mediaUrl t;
               in_mimeType := Some "image/jpeg" |})
         AI_TIMEOUT_MS
         errorSentinel ;;
     if negb (category analysis =? "error")%string
     then branchOnOutcome W (Some (tweetId t)) (dtoOfPost t) analysis
     else ret false)
    (fun _ => ret false).

(** The [for (const t of pending)] loop: a [return] inside the body leaves
    the whole function. *)
Fixpoint retryLoop (W : World) (pending : list RawPost) : M unit :=
  match pending with
  | [] => ret tt
  | t :: rest =>
      returned <- retryOne W t ;;
      if returned then ret tt else retryLoop W rest
  end.

Definition retryFailedAI (W : World) (limit : nat) : M unit :=
  pending <- Post_find_unprocessed limit ;;
  retryLoop W pending.

(* ================================================================== *)
(** * services/discordService.ts: the token-data field of an embed *)

Module Discord.
















End Discord.

(* ================================================================== *)
(** * worker.ts: the session check *)

Module Session.

(** scraper.ts, [interface Credentials]. *)
Record Credentials := {
  auth_token : string;
  ct0 : string;
  bearer_token : string
}.

(** The [boolean | string] that [checkAndInjectCredentials] returns. *)
Inductive CheckResult := CkTrue | CkFalse | CkPremium.

(** What the browser does during one check. *)
Record HomeProbe := {
  reachesHome : bool;       (* newPage, setCookies, interception and goto succeed *)
  loggedOut : bool;         (* page.$('a[href*="/i/flow/login"]') is not null *)
  subscribeButton : bool;   (* page.$('a[href="/i/twitter_blue_sign_up"]') is not null *)
  browserCloseOk : bool;    (* browser.close() succeeds *)
  teardownOk : bool         (* the scroll wait, page.close() and setRequestInterception(false) succeed *)
}.

Inductive SEvent :=
| SevLaunch            (* setupBrowser() *)
| SevClose             (* browser.close() *)
| SevLogin.            (* handleLogin(browser) *)

Definition checkAndInjectCredentials (probe : HomeProbe) (credentials : option Credentials)
  : CheckResult * list SEvent :=
  match credentials with
  | None => (CkFalse, [])
  | Some _ =>
      if negb (reachesHome probe) then (CkFalse, [])
      else if subscribeButton probe then
        if browserCloseOk probe then (CkPremium, [SevClose]) else (CkFalse, [SevClose])
      else if negb (teardownOk probe) then (CkFalse, [])
      else if loggedOut probe then (CkFalse, [])
      else (CkTrue, [])
  end.

(** The module-level variables. *)
Record SessState := {
  isLoggingIn : bool;
  browserInstance : option nat;     (* a handle: the number of the launch *)
  currentCredentials : option Credentials;
  launches : nat
}.

Record SessWorld := {
  credentialsFile : option Credentials;   (* what readCredentials() returns *)
  launchOk : bool;                        (* setupBrowser() succeeds *)
  probe : HomeProbe;
  closeOk : bool;                         (* browserInstance.close() before a login succeeds *)
  loginResult : option Credentials        (* handleLogin: None when it throws *)
}.

Inductive SetupResult :=
| RBrowser (b : nat)
| RPremium
| RNull
| RThrows.

Definition failed (s : SessState) (ev : list SEvent) : SetupResult * SessState * list SEvent :=
  (RThrows,
   {| isLoggingIn := false; browserInstance := None;
      currentCredentials := None; launches := launches s |},
   ev ++ match browserInstance s with Some _ => [SevClose] | None => [] end).

Definition setupPersistentBrowser (W : SessWorld) (s : SessState)
  : SetupResult * SessState * list SEvent :=
  if isLoggingIn s then (RNull, s, [])
  else
    (* STEP 1 *)
    let creds :=
      match credentialsFile W with
      | Some c => if Js.truthy (Some (auth_token c)) then Some c else None
      | None => None
      end in
    (* STEP 2 *)
    let launch1 :=
      match browserInstance s with
      | Some b => Some (b, launches s, [])
      | None =>
          if launchOk W then Some (launches s, S (launches s), [SevLaunch]) else None
      end in
    match launch1 with
    | None =>
        failed {| isLoggingIn := true; browserInstance := None;
                  currentCredentials := creds; launches := launches s |} [SevLaunch]
    | Some (b, n, ev1) =>
        (* STEP 3 *)
        let '(sessionIsValid, ev2) := checkAndInjectCredentials (probe W) creds in
        let s1 := {| isLoggingIn := true; browserInstance := Some b;
                     currentCredentials := creds; launches := n |} in
        match sessionIsValid with
        | CkFalse =>
            (* STEP 4 *)
            if negb (closeOk W) then failed s1 (ev1 ++ ev2 ++ [SevClose])
            else if negb (launchOk W) then
              failed s1 (ev1 ++ ev2 ++ [SevClose; SevLaunch])
            else
              let s2 := {| isLoggingIn := true; browserInstance := Some n;
                           currentCredentials := creds; launches := S n |} in
              match loginResult W with
              | None => failed s2 (ev1 ++ ev2 ++ [SevClose; SevLaunch; SevLogin])
              | Some c =>
                  (RBrowser n,
                   {| isLoggingIn := false; browserInstance := Some n;
                      currentCredentials := Some c; launches := S n |},
                   ev1 ++ ev2 ++ [SevClose; SevLaunch; SevLogin])
              end
        | CkPremium =>
            (RPremium,
             {| isLoggingIn := false; browserInstance := Some b;
                currentCredentials := creds; launches := n |},
             ev1 ++ ev2)
        | CkTrue =>
            (RBrowser b,
             {| isLoggingIn := false; browserInstance := Some b;
                currentCredentials := creds; launches := n |},
             ev1 ++ ev2)
        end
    end.

End Session.

(* ================================================================== *)
(** * index.ts and worker.ts: the deep scan and the rotation cursor *)

Module Scheduler.

(** What [getAllUsersFromDb] keeps of a user. *)
Record User := { u_username : string }.

(** [Tweet[] | ErrorMsg], the result of the two scraping functions, which
    catch their own failures. *)
Inductive ScrapeResult :=
| ScrapeError (message : string)
| Scraped (tweets : list Tweet).

(** What the outside world does during one tick. *)
Record TickWorld := {
  users : list User;                          (* User.find({}).sort({ _id: 1 }) *)
  world : World;
  newPageOk : bool;                           (* browser.newPage() succeeds *)
  viewportOk : bool;                          (* page.setViewport() succeeds *)
  scrapeUserTweets : string -> ScrapeResult;
  scrapeMentions : string -> ScrapeResult;
  pageCloseOk : bool                          (* page.close() succeeds *)
}.

Definition markScrapedFor (src : Source) (t : Tweet) : Tweet :=
  {| tw_username := tw_username t; tw_text := tw_text t; tw_url := tw_url t;
     tw_timestamp := tw_timestamp t; tw_mediaUrl := tw_mediaUrl t;
     tw_scrapedFor := Some src |}.

Definition processScraped (W : World) (src : Source) (r : ScrapeResult) : M unit :=
  match r with
  | ScrapeError _ => ret tt
  | Scraped tweets =>
      forEach tweets (fun tweet => processTweet W (markScrapedFor src tweet))
  end.

(** [processUserAndMentions]: the [try], its [catch], and the [finally]
    that starts the recovery sweep without awaiting it and closes the
    page.  The sweep is run here to its end, as when nothing else is
    pending; [awaitBeside] describes a sweep that runs beside another
    task. *)
Definition processUserAndMentions (T : TickWorld) (user : User) : M unit :=
  tryCatch
    (if negb (newPageOk T) then throw (ErrOther "newPage")
     else if negb (viewportOk T) then throw (ErrOther "setViewport")
     else
       processScraped (world T) profile (scrapeUserTweets T (u_username user)) ;;;
       processScraped (world T) mention (scrapeMentions T (u_username user)))
    (fun _ => ret tt) ;;;
  tryCatch (retryFailedAI (world T) 5) (fun _ => ret tt) ;;;
  if newPageOk T then
    if pageCloseOk T then ret tt else throw (ErrOther "page.close")
  else ret tt.

(** The pipeline state together with the [ScraperState] document named
    'user-sequencer'; [None] before the first upsert. *)
Record SysState := {
  pipeline : State;
  lastProcessedIndex : option Z
}.

Inductive TickEvent :=
| TeScan (username : string)          (* processUserAndMentions(browser, user) *)
| TePipeline (e : Event)
| TeSaveIndex (i : Z).                (* state.save() *)

(** [allUsers[i]]. *)
Definition userAt (allUsers : list User) (i : Z) : option User :=
  if i <? 0 then None else nth_error allUsers (Z.to_nat i).

(** The body of the cron callback. *)
Definition tick (T : TickWorld) (s : SysState) : SysState * list TickEvent :=
  let allUsers := users T in
  if Nat.eqb (List.length allUsers) 0 then (s, [])
  else
    let nextIndex :=
      match lastProcessedIndex s with
      | Some i => i
      | None => 0
      end in
    match userAt allUsers nextIndex with
    | Some userToProcess =>
        match processUserAndMentions T userToProcess (pipeline s) with
        | (Ok _, p, ev) =>
            let nextIndex' := Z.rem (nextIndex + 1) (Z.of_nat (List.length allUsers)) in
            ({| pipeline := p; lastProcessedIndex := Some nextIndex' |},
             TeScan (u_username userToProcess) :: map TePipeline ev
             ++ [TeSaveIndex nextIndex'])
        | (Throw _, p, ev) =>
            ({| pipeline := p; lastProcessedIndex := Some nextIndex |},
             TeScan (u_username userToProcess) :: map TePipeline ev)
        end
    | None =>
        ({| pipeline := pipeline s; lastProcessedIndex := Some 0 |}, [TeSaveIndex 0])
    end.

(** Consecutive ticks, one world per tick. *)
Fixpoint ticks (Ts : list TickWorld) (s : SysState) : SysState * list TickEvent :=
  match Ts with
  | [] => (s, [])
  | T :: rest =>
      let '(s1, ev1) := tick T s in
      let '(s2, ev2) := ticks rest s1 in
      (s2, ev1 ++ ev2)
  end.

(** The accounts deep-scanned, in order. *)
Fixpoint scanned (ev : list TickEvent) : list string :=
  match ev with
  | [] => []
  | TeScan u :: rest => u :: scanned rest
  | _ :: rest => scanned rest
  end.

(** The handle of [allUsers[i]]. *)
Definition nameAt (allUsers : list User) (i : Z) : string :=
  match userAt allUsers i with
  | Some u => u_username u
  | None => ""
  end.

(** The value of the cursor as the next tick reads it. *)
Definition cursor (s : SysState) : Z :=
  match lastProcessedIndex s with
  | Some i => i
  | None => 0
  end.

End Scheduler.

(* ================================================================== *)
(** * Vocabulary of the properties *)

Definition resOf {A} (x : Res A * State * list Event) : Res A := fst (fst x).
Definition stOf {A} (x : Res A * State * list Event) : State := snd (fst x).
Definition evOf {A} (x : Res A * State * list Event) : list Event := snd x.

(** The unique index on [Post.tweetId]. *)
Definition uniqueIds (s : State) : Prop := NoDup (map tweetId (posts s)).

(** The unique index on [TweetsIA.tweetId]. *)
Definition uniqueIA (s : State) : Prop := NoDup (map ia_tweetId (tweetsIA s)).

Definition statusOf (id : string) (s : State) : option Status :=
  option_map status (lookupPost id (posts s)).

(** The number of stored raw posts, and of classified posts, with an
    identifier. *)
Definition rawCount (id : string) (s : State) : nat :=
  List.length (filter (hasId id) (posts s)).

Definition classifiedCount (id : string) (s : State) : nat :=
  List.length (filter (iaHasId id) (tweetsIA s)).

(** A post that has left [unprocessed] keeps its status. *)
Definition monotone (s s' : State) : Prop :=
  forall id st, statusOf id s = Some st -> st <> unprocessed -> statusOf id s' = Some st.

(** The times at which the AI service was called. *)
Fixpoint aiCallTimes (ev : list Event) : list Z :=
  match ev with
  | [] => []
  | EvAICall time _ :: rest => time :: aiCallTimes rest
  | _ :: rest => aiCallTimes rest
  end.

(** The channels that received a notification, with the category sent. *)
Fixpoint notifications (ev : list Event) : list (Channel * string) :=
  match ev with
  | [] => []
  | EvDiscord ch dto :: rest => (ch, ia_category dto) :: notifications rest
  | _ :: rest => notifications rest
  end.

(** The posts the recovery sweep announced with "Retrying AI for tweet". *)
Fixpoint retried (ev : list Event) : list string :=
  match ev with
  | [] => []
  | EvRetrying id :: rest => id :: retried rest
  | _ :: rest => retried rest
  end.

(** The statuses written to the raw post [id], in order; its insertion
    writes the default, [unprocessed]. *)
Fixpoint statusWrites (id : string) (ev : list Event) : list Status :=
  match ev with
  | [] => []
  | EvPostSave i :: rest =>
      if (i =? id)%string then unprocessed :: statusWrites id rest
      else statusWrites id rest
  | EvPostUpdate (Some i) st :: rest =>
      if (i =? id)%string then st :: statusWrites id rest
      else statusWrites id rest
  | _ :: rest => statusWrites id rest
  end.

(** Consecutive calls are at least [gap] apart. *)
Fixpoint spaced (gap : Z) (times : list Z) : Prop :=
  match times with
  | [] => True
  | t1 :: rest =>
      match rest with
      | [] => True
      | t2 :: _ => t1 + gap <= t2
      end /\ spaced gap rest
  end.

(** The channel the [switch] selects for a category. *)
Definition channelFor (c : string) : Channel :=
  if isHighPriority c then alerts else general.

(** The pipeline operations that write to the store. *)
Inductive Op :=
| OpProcessTweet (W : World) (t : Tweet)
| OpRetryFailedAI (W : World) (limit : nat).

Definition runOp (o : Op) (s : State) : State :=
  match o with
  | OpProcessTweet W t => stOf (processTweet W t s)
  | OpRetryFailedAI W limit => stOf (retryFailedAI W limit s)
  end.

Definition runOps (os : list Op) (s : State) : State :=
  fold_left (fun acc o => runOp o acc) os s.

(** A computation that never throws. *)
Definition total {A} (m : M A) : Prop :=
  forall s, exists a, resOf (m s) = Ok a.

(** Every event of a computation satisfies [P]. *)
Definition traceAll (P : Event -> Prop) {A} (m : M A) : Prop :=
  forall s, Forall P (evOf (m s)).

(** An event that is not a notification, or a notification sent to the
    channel of its category, the category not being the discarded one. *)
Definition routed (e : Event) : Prop :=
  match e with
  | EvDiscord ch dto =>
      ch = channelFor (ia_category dto) /\ ia_category dto <> Category.NotRelevant
  | _ => True
  end.

Definition notDiscord (e : Event) : Prop :=
  match e with
  | EvDiscord _ _ => False
  | _ => True
  end.

Definition notRetrying (e : Event) : Prop :=
  match e with
  | EvRetrying _ => False
  | _ => True
  end.

Definition hoare {A} (P : State -> Prop) (m : M A) (Q : A -> State -> Prop) : Prop :=
  forall s, P s -> exists a, resOf (m s) = Ok a /\ Q a (stOf (m s)).

(** The two collections of the store are what they are in [s0]. *)
Definition storeEq (s0 s : State) : Prop :=
  posts s = posts s0 /\ tweetsIA s = tweetsIA s0.

(** A computation that leaves the two collections alone, whatever its
    result. *)
Definition keeps {A} (m : M A) : Prop := forall s, storeEq s (stOf (m s)).

(** A computation that leaves a component of the state alone, whatever its
    result. *)
Definition preserves (B : Type) (proj : State -> B) {A} (m : M A) : Prop :=
  forall s, proj (stOf (m s)) = proj s.

Definition notAICall (e : Event) : Prop :=
  match e with
  | EvAICall _ _ => False
  | _ => True
  end.

(** The time at which the gate of [processTweet] lets the call through. *)
Definition gateTime (s : State) : Z :=
  Z.max (clock s) (lastAICallTime s + AI_CALL_INTERVAL).

(** Consecutive runs of the pipeline, one world and one candidate per run. *)
Fixpoint pipelineRuns (runs : list (World * Tweet)) (s : State) : State * list Event :=
  match runs with
  | [] => (s, [])
  | (W, t) :: rest =>
      let r := processTweet W t s in
      let '(s2, ev2) := pipelineRuns rest (stOf r) in
      (s2, evOf r ++ ev2)
  end.

(** The raw posts are untouched, or the first post with the identifier
    leaves [unprocessed]. *)
Definition postsStep (id : string) (s s' : State) : Prop :=
  posts s' = posts s \/
  exists st, st <> unprocessed /\ posts s' = updateFirst id st (posts s).

(** The classified posts are untouched, or one with the identifier, which
    was not there, is appended. *)
Definition iaStep (id : string) (s s' : State) : Prop :=
  tweetsIA s' = tweetsIA s \/
  exists dto, ia_tweetId dto = id /\
              existsb (iaHasId id) (tweetsIA s) = false /\
              tweetsIA s' = tweetsIA s ++ [dto].

(** The post the first gate of [processTweet] finds. *)
Definition existing (t : Tweet) (s : State) : option RawPost :=
  match tw_url t with
  | Some id => lookupPost id (posts s)
  | None => None
  end.

(* ================================================================== *)
(** * Sample inputs *)

Module Sample.

Definition emptyState : State :=
  {| posts := []; tweetsIA := []; clock := 1000000; lastAICallTime := 0 |}.

(** The candidate of the end-to-end scenarios. *)
Definition candidate : Tweet :=
  {| tw_username := Some "user";
     tw_text := Some "check CA: 7xKXtg...pump";
     tw_url := Some "/user/status/1";
     tw_timestamp := Some "2025-01-01T00:00:00Z";
     tw_mediaUrl := None;
     tw_scrapedFor := None |}.

Definition contractAlert : Analysis :=
  {| category := "Contract Alert"; tags := ["pump"];
     contracts := [ {| address := "7xKXtg...pump"; blockchain := Some "solana" |} ] |}.

Definition pricedPair : DexScreenerPair :=
  {| baseSymbol := "PUMP"; priceUsd := Some "0.5";
     liquidityUsd := Some (1234567 # 1)%Q; volumeH24 := (5 # 2)%Q; fdv := None |}.

(** A world in which the classifier answers [a] after [latency] ms. *)
Definition answering (a : Analysis) (latency : nat) : World :=
  {| parseDate := fun _ => Some 1735689600000;
     download := fun _ => None;
     service := fun _ _ => (SvcJson a, latency);
     dexGet := fun _ => Some [pricedPair];
     parseFloat := fun _ => Finite (1 # 2)%Q |}.

(** A world in which every request to the classifier is rejected with an
    HTTP status. *)
Definition failing (code : Z) (latency : nat) : World :=
  {| parseDate := fun _ => Some 1735689600000;
     download := fun _ => None;
     service := fun _ _ => (SvcError (ErrStatus code), latency);
     dexGet := fun _ => None;
     parseFloat := fun _ => NaN |}.

Definition stuck (id : string) : RawPost :=
  {| tweetId := id; username := "user"; text := Some "gm";
     timestamp := 1735689600000; mediaUrl := None;
     status := unprocessed; scrapedFor := feed |}.

(** Two posts left [unprocessed] by earlier runs. *)
Definition backlog : State :=
  {| posts := [stuck "/user/status/1"; stuck "/user/status/2"];
     tweetsIA := []; clock := 1000000; lastAICallTime := 0 |}.

(** The accounts of config/seed.ts. *)
Definition seedUsers : list Scheduler.User :=
  [ {| Scheduler.u_username := "solana" |};
    {| Scheduler.u_username := "pumpdotfun" |};
    {| Scheduler.u_username := "DexScreener" |} ].

(** A tick during which both scrapes report an error. *)
Definition quietTick : Scheduler.TickWorld :=
  {| Scheduler.users := seedUsers;
     Scheduler.world := answering notRelevant 100;
     Scheduler.newPageOk := true;
     Scheduler.viewportOk := true;
     Scheduler.scrapeUserTweets := fun _ => Scheduler.ScrapeError "Scraping error";
     Scheduler.scrapeMentions := fun _ => Scheduler.ScrapeError "Scraping error";
     Scheduler.pageCloseOk := true |}.

Definition freshSystem : Scheduler.SysState :=
  {| Scheduler.pipeline := emptyState; Scheduler.lastProcessedIndex := None |}.

Definition storedCredentials : Session.Credentials :=
  {| Session.auth_token := "a1"; Session.ct0 := "c1"; Session.bearer_token := "b1" |}.

(** A home page that shows the link to subscribe to Premium. *)
Definition lockedAccount : Session.SessWorld :=
  {| Session.credentialsFile := Some storedCredentials;
     Session.launchOk := true;
     Session.probe :=
       {| Session.reachesHome := true; Session.loggedOut := false;
          Session.subscribeButton := true; Session.browserCloseOk := true;
          Session.teardownOk := true |};
     Session.closeOk := true;
     Session.loginResult := Some storedCredentials |}.

Definition idleSession : Session.SessState :=
  {| Session.isLoggingIn := false; Session.browserInstance := None;
     Session.currentCredentials := None; Session.launches := 0 |}.

End Sample.

(* ================================================================== *)
(** * Parts of the pipeline, named *)

(** The classification input both paths build from a stored text and
    media URL. *)
Definition inputOf (txt media : option string) : ClassificationInput :=
  {| in_text := Js.orStr txt "";
     in_mediaUrl := media;
     in_mimeType := Some "image/jpeg" |}.

(** [processTweet] from the classification on. *)
Definition classifyAndBranch (W : World) (t : Tweet) : M unit :=
  analysis <-
    aiLimiter
      (withTimeout
         (retryWithBackoff
            (classifyTweet W (inputOf (tw_text t) (tw_mediaUrl t))) 3 2000)
         20000 errorSentinel) ;;
  if negb (category analysis =? "error")%string then
    branchOnOutcome W (tw_url t) (dtoOfTweet W t) analysis ;;; ret tt
  else
    Post_findOneAndUpdate (tw_url t) unprocessed.

(** The state in which the classification of [processTweet] starts: the
    raw post is stored, the gate has been waited for, and the time of the
    call is recorded. *)
Definition gated (p : RawPost) (s : State) : State :=
  setLastAICallTime (gateTime s) (setClock (gateTime s) (setPosts (posts s ++ [p]) s)).

(** What [classifyTweet] makes of the service's answer. *)
Definition answerOf (o : ServiceOutcome) : Analysis :=
  match o with
  | SvcJson a => a
  | SvcNoText | SvcBadJson | SvcError _ => notRelevant
  end.

(** The pair [getTokenDataFromDexScreener] returns for an address. *)
Definition pairOf (W : World) (addr : string) : option DexScreenerPair :=
  match dexGet W addr with
  | None => None
  | Some pairs => fold_left betterPair pairs None
  end.

(** The list the enrichment loop builds, and the messages it sends to the
    error channel. *)
Definition enrichedList (W : World) (cs : list Contract) : list EnrichedData :=
  flat_map (fun c => match pairOf W (address c) with
                     | Some td => [enrichedOf W c td]
                     | None => []
                     end) cs.

Definition enrichEvents (W : World) (cs : list Contract) : list Event :=
  flat_map (fun c => match dexGet W (address c) with
                     | Some [] => [EvErrorChannel (address c)]
                     | _ => []
                     end) cs.

Definition liquidityOf (p : DexScreenerPair) : Q := Js.orNum (liquidityUsd p) 0.

(** What TweetIASchema asks of an analysis and of its enrichment: every
    contract has an address, and no price is NaN. *)
Definition storable (W : World) (a : Analysis) : bool :=
  forallb (fun c => Js.truthy (Some (address c))) (contracts a) &&
  forallb validEnriched (enrichedList W (contracts a)).

(** Worlds, candidates and stores of the scenarios below. *)
Module Scenario.

(** [Sample.candidate] as [PostSchema] stores it. *)
Definition storedCandidate : RawPost :=
  {| tweetId := "/user/status/1"; username := "user";
     text := Some "check CA: 7xKXtg...pump"; timestamp := 1735689600000;
     mediaUrl := None; status := unprocessed; scrapedFor := feed |}.

Definition alerting : World := Sample.answering Sample.contractAlert 100.

Definition dismissing : World := Sample.answering notRelevant 100.

(** A classifier that hangs for 25 s until 1020000 ms and answers [a] in
    100 ms afterwards. *)
Definition recovering (a : Analysis) : World :=
  {| parseDate := fun _ => Some 1735689600000;
     download := fun _ => None;
     service := fun time _ => if time <? 1020000 then (SvcNoText, (Z.to_nat 25000))
                              else (SvcJson a, 100%nat);
     dexGet := fun _ => Some [Sample.pricedPair];
     parseFloat := fun _ => Finite (1 # 2)%Q |}.

(** A classifier that leaves the request made at 1000000 ms pending for
    25 s and answers every later request with [a] in 100 ms. *)
Definition racing (a : Analysis) : World :=
  {| parseDate := fun _ => Some 1735689600000;
     download := fun _ => None;
     service := fun time _ => if time <=? 1000000 then (SvcNoText, (Z.to_nat 25000))
                              else (SvcJson a, 100%nat);
     dexGet := fun _ => Some [Sample.pricedPair];
     parseFloat := fun _ => Finite (1 # 2)%Q |}.

(** A post that is an image without text, and a world in which the image
    can be downloaded. *)
Definition picture : Tweet :=
  {| tw_username := Some "user";
     tw_text := None;
     tw_url := Some "/user/status/7";
     tw_timestamp := Some "2025-01-01T00:00:00Z";
     tw_mediaUrl := Some "https://pbs.twimg.com/media/a.jpg";
     tw_scrapedFor := None |}.

Definition storedPicture : RawPost :=
  {| tweetId := "/user/status/7"; username := "user";
     text := None; timestamp := 1735689600000;
     mediaUrl := Some "https://pbs.twimg.com/media/a.jpg";
     status := unprocessed; scrapedFor := feed |}.

Definition withImages (a : Analysis) : World :=
  {| parseDate := fun _ => Some 1735689600000;
     download := fun _ => Some "aGVsbG8=";
     service := fun _ _ => (SvcJson a, 100%nat);
     dexGet := fun _ => Some [Sample.pricedPair];
     parseFloat := fun _ => Finite (1 # 2)%Q |}.

Definition overloaded : M unit :=
  fun s => (Throw (ErrStatus 503), s, [EvErrorChannel "overloaded"]).

End Scenario.

(** Consecutive sweeps, each run to its end. *)
Fixpoint sweepRuns (W : World) (limit : nat) (n : nat) (s : State) : State * list Event :=
  match n with
  | O => (s, [])
  | S k =>
      let r := retryFailedAI W limit s in
      let '(s2, ev2) := sweepRuns W limit k (stOf r) in
      (s2, evOf r ++ ev2)
  end.

(* ================================================================== *)
(** * worker.ts and scraper.ts: scraping *)

Module Scrape.

(** [getRandomDelay]: [Math.floor(Math.random() * (max - min + 1)) + min],
    with [r] the value [Math.random()] returns. *)
Definition getRandomDelay (r : Q) (min max : Z) : Z :=
  Qfloor (r * inject_Z (max - min + 1)) + min.

(** scraper.ts, [slowScroll]: [random k] is what the [k]-th call of
    Math.random() returns, [i] the number of calls made so far.  Returns,
    per iteration, the distance scrolled and the pause. *)
Fixpoint slowScroll (random : nat -> Q) (scrollCount : nat) (i : nat) : list (Z * Z) :=
  match scrollCount with
  | O => []
  | S n =>
      let scrollDistance := getRandomDelay (random i) 300 800 in
      let waitTime := getRandomDelay (random (S i)) 1500 3000 in
      (scrollDistance, waitTime) :: slowScroll random n (S (S i))
  end.

(** [slowScroll(page, getRandomDelay(3, 5))] in [scrapeFeedFollowing]. *)
Definition feedScroll (random : nat -> Q) : list (Z * Z) :=
  slowScroll random (Z.to_nat (getRandomDelay (random 0%nat) 3 5)) 1.

Definition totalWait (steps : list (Z * Z)) : Z :=
  fold_right (fun step acc => snd step + acc) 0 steps.

(** What the page shows while it is scrolled: the number of [article]
    elements after [k] scrolls. *)
Definition Page := nat -> nat.

(** The inner [while (stagnantTries < 2 && currentTweetCount ===
    previousTweetCount)]; [tries] is what is left of the two tries, [k] the
    number of scrolls made so far.  Returns [k] and [currentTweetCount]. *)
Fixpoint stagnant (page : Page) (previousTweetCount : nat) (tries : nat)
         (k : nat) (currentTweetCount : nat) : nat * nat :=
  match tries with
  | O => (k, currentTweetCount)
  | S tries' =>
      if Nat.eqb currentTweetCount previousTweetCount
      then stagnant page previousTweetCount tries' (S k) (page (S k))
      else (k, currentTweetCount)
  end.

(** The [while (currentTweetCount < 20 && scrollAttempts < maxScrollAttempts)]
    of [scrapeUserTweets] and [scrapeMentions]; [left] is
    [maxScrollAttempts - scrollAttempts].  Returns the number of scrolls. *)
Fixpoint scrollLoop (page : Page) (left : nat) (k : nat) (currentTweetCount : nat) : nat :=
  match left with
  | O => k
  | S left' =>
      if Nat.ltb currentTweetCount 20 then
        let previousTweetCount := currentTweetCount in
        let current1 := page (S k) in
        if Nat.eqb current1 previousTweetCount then
          let '(k2, current2) := stagnant page previousTweetCount 2 (S k) current1 in
          if Nat.eqb current2 previousTweetCount then k2
          else scrollLoop page left' k2 current2
        else scrollLoop page left' (S k) current1
      else k
  end.

Definition maxScrollAttempts : nat := 10.

Definition scrolls (page : Page) : nat := scrollLoop page maxScrollAttempts 0 (page 0%nat).

(** What the extraction reads of one [article] element. *)
Record Article := {
  pinned : bool;                     (* a div of the article contains 'Fijado' or 'Pinned' *)
  langText : option string;          (* div[lang]: its textContent, trimmed *)
  datetime : option string;          (* time: its datetime attribute *)
  href : option string;              (* the parent of time: its href attribute *)
  video : bool;                      (* a video component is present *)
  imageSrc : option (option string)  (* a photo is present: its src attribute *)
}.

Definition limit : nat := 5.

(** The callback of [.map] in the two extractions; [None] is the [null]
    returned for an article without text. *)
Definition tweetOf (username : string) (article : Article) : option Tweet :=
  let text := Js.orStr (langText article) "" in
  if negb (Js.truthy (Some text)) then None
  else
    Some {| tw_username := Some username;
            tw_text := Some text;
            tw_url := Some (Js.orStr (href article) "");
            tw_timestamp := Some (Js.orStr (datetime article) "");
            tw_mediaUrl :=
              if video article then None
              else match imageSrc article with
                   | Some src => src
                   | None => None
                   end;
            tw_scrapedFor := None |}.

(** [articles.slice(0, limit).map(...).filter(t => t !== null)]. *)
Definition extract (username : string) (articles : list Article) : list Tweet :=
  flat_map (fun article => match tweetOf username article with
                           | Some t => [t]
                           | None => []
                           end)
           (firstn limit articles).

(** The [page.evaluate] of [scrapeUserTweets]: pinned articles are left
    out first. *)
Definition userTweets (username : string) (dom : list Article) : Scheduler.ScrapeResult :=
  let articles := filter (fun article => negb (pinned article)) dom in
  if Nat.eqb (List.length articles) 0
  then Scheduler.ScrapeError ("Cannot find tweets for username: " ++ username)%string
  else Scheduler.Scraped (extract username articles).

(** The [page.evaluate] of [scrapeMentions]. *)
Definition mentions (username : string) (dom : list Article) : Scheduler.ScrapeResult :=
  if Nat.eqb (List.length dom) 0
  then Scheduler.ScrapeError ("Cannot find tweets for search query: " ++ username)%string
  else Scheduler.Scraped (extract username dom).

(** scraper.ts, [scrapeFeedFollowing]: [tweetsFromFeed.slice(0, 20)]. *)
Definition latestTweets (tweetsFromFeed : list Tweet) : list Tweet :=
  firstn 20 tweetsFromFeed.

(** One cycle of the [while (true)] of [runWorker]. *)
Definition feedCycle (W : World) (tweetsFromFeed : list Tweet) : M unit :=
  s <- get ;;
  let tweetsDB := map tweetId (posts s) in
  let uniqueNewTweets :=
    filter (fun tweet =>
              match tw_url tweet with
              | Some tweetUrl =>
                  Js.truthy (Some tweetUrl) && negb (existsb (String.eqb tweetUrl) tweetsDB)
              | None => false
              end) tweetsFromFeed in
  if Nat.ltb 0 (List.length uniqueNewTweets) then
    let validNewTweets :=
      filter (fun t => Js.truthy (tw_username t) &&
                       (Js.truthy (tw_text t) || Js.truthy (tw_mediaUrl t)) &&
                       Js.truthy (tw_url t) && Js.truthy (tw_timestamp t))
             uniqueNewTweets in
    forEach validNewTweets (processTweet W)
  else ret tt.

End Scrape.

(** Counting the events of a kind in a trace. *)
Definition callCount (ev : list Event) : nat := List.length (aiCallTimes ev).

Definition notificationCount (ev : list Event) : nat := List.length (notifications ev).

(** A computation whose trace counts at most [n], from every state. *)
Definition emitsAtMost {A} (cnt : list Event -> nat) (n : nat) (m : M A) : Prop :=
  forall s, (cnt (evOf (m s)) <= n)%nat.

(** Pages and a tick for the scraping scenarios. *)
Module Pages.

Definition pinnedArticle : Scrape.Article :=
  {| Scrape.pinned := true; Scrape.langText := Some "Welcome to Solana";
     Scrape.datetime := Some "2024-01-01T00:00:00Z"; Scrape.href := Some "/solana/status/1";
     Scrape.video := false; Scrape.imageSrc := None |}.

Definition plainArticle : Scrape.Article :=
  {| Scrape.pinned := false; Scrape.langText := Some "Mainnet upgrade is live";
     Scrape.datetime := Some "2025-01-01T00:00:00Z"; Scrape.href := Some "/solana/status/2";
     Scrape.video := false; Scrape.imageSrc := Some (Some "https://pbs.twimg.com/media/b.jpg") |}.

(** An article without text: a video alone. *)
Definition silentArticle : Scrape.Article :=
  {| Scrape.pinned := false; Scrape.langText := None;
     Scrape.datetime := Some "2025-01-02T00:00:00Z"; Scrape.href := Some "/solana/status/3";
     Scrape.video := true; Scrape.imageSrc := None |}.

Definition profile : list Scrape.Article := [pinnedArticle; plainArticle; silentArticle].

Definition plainTweet : Tweet :=
  {| tw_username := Some "solana";
     tw_text := Some "Mainnet upgrade is live";
     tw_url := Some "/solana/status/2";
     tw_timestamp := Some "2025-01-01T00:00:00Z";
     tw_mediaUrl := Some "https://pbs.twimg.com/media/b.jpg";
     tw_scrapedFor := None |}.

(** A tick whose two scrapes read [profile]. *)
Definition scanning : Scheduler.TickWorld :=
  {| Scheduler.users := Sample.seedUsers;
     Scheduler.world := Sample.answering Sample.contractAlert 100;
     Scheduler.newPageOk := true;
     Scheduler.viewportOk := true;
     Scheduler.scrapeUserTweets := fun u => Scrape.userTweets u profile;
     Scheduler.scrapeMentions := fun u => Scrape.mentions u profile;
     Scheduler.pageCloseOk := true |}.

(** The same tick when [page.close()] throws. *)
Definition unclosable : Scheduler.TickWorld :=
  {| Scheduler.users := Sample.seedUsers;
     Scheduler.world := Sample.answering Sample.contractAlert 100;
     Scheduler.newPageOk := true;
     Scheduler.viewportOk := true;
     Scheduler.scrapeUserTweets := fun u => Scrape.userTweets u profile;
     Scheduler.scrapeMentions := fun u => Scrape.mentions u profile;
     Scheduler.pageCloseOk := false |}.

End Pages.

(* ================================================================== *)
(** * scraper.ts: the credentials a login yields; config/seed.ts *)

Module Login.

(** [handleLogin], from the cookies and the captured token on: it throws
    (here [None]) unless the three values are present and non-empty. *)
Definition credentialsOf (newAuthToken newCt0 newBearerToken : option string)
  : option Session.Credentials :=
  match newAuthToken, newCt0, newBearerToken with
  | Some a, Some c, Some b =>
      if negb (Js.truthy (Some a)) || negb (Js.truthy (Some c)) || negb (Js.truthy (Some b))
      then None
      else Some {| Session.auth_token := a; Session.ct0 := c; Session.bearer_token := b |}
  | _, _, _ => None
  end.

End Login.

Module Seed.

(** What the seed gives for a user; [active] and [createdAt] take their
    defaults. *)
Record NewUser := {
  username : string;
  url : string
}.

Definition initialUsers : list NewUser :=
  [ {| username := "solana"; url := "https://x.com/solana" |};
    {| username := "pumpdotfun"; url := "https://x.com/pumpdotfun" |};
    {| username := "DexScreener"; url := "https://x.com/DexScreener" |} ].

(** [User.findOne({ username })]. *)
Definition exists_ (name : string) (users : list NewUser) : bool :=
  existsb (fun u => (username u =? name)%string) users.

(** The [for (const u of initialUsers)] of [seedUsersAndStart] on the users
    collection, in insertion order. *)
Definition seedWith (initial : list NewUser) (users : list NewUser) : list NewUser :=
  fold_left (fun users u => if exists_ (username u) users then users else users ++ [u])
            initial users.

Definition seedUsers (users : list NewUser) : list NewUser := seedWith initialUsers users.

(** [getAllUsersFromDb] on the collection. *)
Definition getAllUsersFromDb (users : list NewUser) : list Scheduler.User :=
  map (fun u => {| Scheduler.u_username := username u |}) users.

End Seed.

(** A session whose stored credentials have expired: the home page shows the
    login link, and the login that follows yields fresh credentials. *)
Module Expired.

Definition world : Session.SessWorld :=
  {| Session.credentialsFile := Some Sample.storedCredentials;
     Session.launchOk := true;
     Session.probe :=
       {| Session.reachesHome := true; Session.loggedOut := true;
          Session.subscribeButton := false; Session.browserCloseOk := true;
          Session.teardownOk := true |};
     Session.closeOk := true;
     Session.loginResult := Login.credentialsOf (Some "a2") (Some "c2") (Some "b2") |}.

End Expired.

(* ================================================================== *)
(** * services/discordService.ts: the style of an embed *)

Module Embed.

Definition upperAscii (c : ascii) : ascii :=
  let n := nat_of_ascii c in
  if andb (Nat.leb 97 n) (Nat.leb n 122) then ascii_of_nat (n - 32) else c.

Fixpoint toUpperCase (s : string) : string :=
  match s with
  | EmptyString => EmptyString
  | String c r => String (upperAscii c) (toUpperCase r)
  end.

(** A group of [case] labels that fall through to the same body. *)
Definition oneOf (labels : list string) (category : string) : bool :=
  existsb (String.eqb category) labels.

Definition gray : Z := 10038562.

(** The [switch (tweet.category)] of [createDiscordEmbed]: colour and
    title. *)
Definition style (category : string) : Z * string :=
  if oneOf ["Scam Warning"] category then
    (15548997, "🚨 SCAM WARNING 🚨")
  else if oneOf ["Price Alert"; "Signals"; "Market Analysis"; "Market Sentiment";
                 "PnL Sharing"; "Trending"; "Viral"] category then
    (16776960, ("📈 " ++ toUpperCase category ++ " 📈")%string)
  else if oneOf ["Airdrop"; "Giveaway"; "Launch Alerts"; "Presale"; "Listing"] category then
    (3066993, ("💰 " ++ toUpperCase category ++ " 💰")%string)
  else if oneOf ["Contract Alert"] category then
    (10181046, ("✍️ " ++ toUpperCase category ++ " ✍️")%string)
  else if oneOf ["New Meme"; "NFT"] category then
    (12903741, ("🖼️ " ++ toUpperCase category ++ " 🖼️")%string)
  else if oneOf ["Project Updates"; "Governance"; "Crypto News"; "News"] category then
    (5793266, ("📰 " ++ toUpperCase category ++ " 📰")%string)
  else
    (gray, "ℹ️ GENERAL INFO ℹ️").

(** worker.ts, [enum Category], without [NotRelevant]: the categories the
    prompt of aiService.ts offers besides ['not-relevant']. *)
Definition official : list string :=
  [ Category.Trending; Category.Viral; Category.Airdrop; Category.MarketAnalysis;
    Category.Signals; Category.LaunchAlerts; Category.Presale; Category.CryptoNews;
    Category.ProjectUpdates; Category.Governance; Category.PnLSharing; Category.NewMeme;
    Category.ContractAlert; Category.Listing; Category.PriceAlert; Category.News;
    Category.ScamWarning; Category.MarketSentiment; Category.Giveaway; Category.NFT ].

End Embed.

(* ================================================================== *)
(** * The monad: equations and totality *)

Lemma tryCatch_ok A (m : M A) h s a s1 ev1 :
  m s = (Ok a, s1, ev1) -> tryCatch m h s = (Ok a, s1, ev1).
Proof. intros H. unfold tryCatch. rewrite H. reflexivity. Qed.

Lemma triple_eta A (x : Res A * State * list Event) :
  x = (resOf x, stOf x, evOf x).
Proof. destruct x as [[r s] ev]. reflexivity. Qed.

Lemma total_ret A (a : A) : total (ret a).
Proof. intros s. exists a. reflexivity. Qed.

Lemma total_bind A B (m : M A) (k : A -> M B) :
  total m -> (forall a, total (k a)) -> total (bind m k).
Proof.
  intros Hm Hk s. destruct (Hm s) as [a Ha]. unfold bind.
  destruct (m s) as [[[a1|e] s1] ev1]; simpl in Ha; try discriminate.
  destruct (Hk a1 s1) as [b Hb]. exists b.
  destruct (k a1 s1) as [[r s2] ev2]. exact Hb.
Qed.

Lemma total_tryCatch A (m : M A) h :
  (forall e, total (h e)) -> total (tryCatch m h).
Proof.
  intros Hh s. unfold tryCatch.
  destruct (m s) as [[[a|e] s1] ev1].
  - exists a. reflexivity.
  - destruct (Hh e s1) as [a Ha]. exists a.
    destruct (h e s1) as [[r s2] ev2]. exact Ha.
Qed.

(* ================================================================== *)
(** * Properties of traces, compositionally *)

Section TraceAll.

Variable P : Event -> Prop.

Lemma traceAll_ret A (a : A) : traceAll P (ret a).
Proof. intros s. constructor. Qed.

Lemma traceAll_throw A e : traceAll P (@throw A e).
Proof. intros s. constructor. Qed.

Lemma traceAll_emit e : P e -> traceAll P (emit e).
Proof. intros H s. simpl. auto. Qed.

Lemma traceAll_bind A B (m : M A) (k : A -> M B) :
  traceAll P m -> (forall a, traceAll P (k a)) -> traceAll P (bind m k).
Proof.
  intros Hm Hk s. specialize (Hm s). unfold bind.
  destruct (m s) as [[[a|e] s1] ev1]; simpl in *; auto.
  specialize (Hk a s1). destruct (k a s1) as [[r s2] ev2]. simpl in *.
  apply Forall_app; auto.
Qed.

Lemma traceAll_tryCatch A (m : M A) h :
  traceAll P m -> (forall e, traceAll P (h e)) -> traceAll P (tryCatch m h).
Proof.
  intros Hm Hh s. specialize (Hm s). unfold tryCatch.
  destruct (m s) as [[[a|e] s1] ev1]; simpl in *; auto.
  specialize (Hh e s1). destruct (h e s1) as [[r s2] ev2]. simpl in *.
  apply Forall_app; auto.
Qed.

Lemma traceAll_if A (b : bool) (m1 m2 : M A) :
  traceAll P m1 -> traceAll P m2 -> traceAll P (if b then m1 else m2).
Proof. destruct b; auto. Qed.

Lemma traceAll_withTimeout A (m : M A) ms fallback :
  traceAll P m -> traceAll P (withTimeout m ms fallback).
Proof.
  intros Hm s. specialize (Hm s). unfold withTimeout.
  destruct (m s) as [[r s1] ev]. simpl in *.
  destruct (clock s1 - clock s <=? ms); simpl; auto.
Qed.

Lemma traceAll_retryWithBackoff A (fn : M A) retries :
  traceAll P fn -> forall delay, traceAll P (retryWithBackoff fn retries delay).
Proof.
  intros Hfn. induction retries as [|r IH]; intros delay; simpl.
  - apply traceAll_tryCatch; auto. intros e. apply traceAll_throw.
  - apply traceAll_tryCatch; auto. intros e.
    apply traceAll_if.
    + apply traceAll_bind; [intros s; constructor | intros _; apply IH].
    + apply traceAll_throw.
Qed.

End TraceAll.

(** The events of the pipeline, for a property that holds of every event
    the code can emit there. *)
Section PipelineTrace.

Variable P : Event -> Prop.
Hypothesis P_call : forall time parts, P (EvAICall time parts).
Hypothesis P_save : forall id, P (EvPostSave id).
Hypothesis P_update : forall key st, P (EvPostUpdate key st).
Hypothesis P_ia : forall id, P (EvTweetIASave id).
Hypothesis P_error : forall msg, P (EvErrorChannel msg).
Hypothesis P_discord : forall ch dto,
    ch = (if isHighPriority (ia_category dto) then alerts else general) ->
    ia_category dto <> Category.NotRelevant ->
    P (EvDiscord ch dto).

Lemma generateAndParse_trace W parts : traceAll P (generateAndParse W parts).
Proof.
  intros s. unfold generateAndParse.
  destruct (service W (clock s) parts) as [o latency].
  destruct o; simpl; repeat constructor; apply P_call.
Qed.

Lemma classifyTweet_trace W input : traceAll P (classifyTweet W input).
Proof.
  unfold classifyTweet. apply traceAll_if.
  - apply traceAll_ret.
  - apply traceAll_tryCatch.
    + apply generateAndParse_trace.
    + intros e. apply traceAll_ret.
Qed.

Lemma getTokenData_trace W addr : traceAll P (getTokenDataFromDexScreener W addr).
Proof.
  unfold getTokenDataFromDexScreener. destruct (dexGet W addr) as [pairs|].
  - apply traceAll_if.
    + apply traceAll_bind; [apply traceAll_emit; apply P_error | intros _; apply traceAll_ret].
    + apply traceAll_ret.
  - apply traceAll_ret.
Qed.

Lemma enrichContracts_trace W cs : traceAll P (enrichContracts W cs).
Proof.
  induction cs as [|c cs IH]; simpl.
  - apply traceAll_ret.
  - apply traceAll_bind; [apply getTokenData_trace|]. intros td.
    apply traceAll_bind; [exact IH|]. intros more. apply traceAll_ret.
Qed.

Lemma Post_findOneAndUpdate_trace key st : traceAll P (Post_findOneAndUpdate key st).
Proof. intros s. simpl. repeat constructor. apply P_update. Qed.

Lemma TweetsIA_save_trace d : traceAll P (TweetsIA_save d).
Proof.
  intros s. unfold TweetsIA_save.
  destruct (validTweetIA d); [destruct (existsb _ _)|]; simpl; repeat constructor.
  apply P_ia.
Qed.

Lemma Post_save_trace d : traceAll P (Post_save d).
Proof.
  intros s. unfold Post_save.
  destruct (validatePost d); [destruct (existsb _ _)|]; simpl; repeat constructor.
  apply P_save.
Qed.

Lemma switchChannel_trace key dto : traceAll P (switchChannel key dto).
Proof.
  unfold switchChannel.
  destruct (isHighPriority (ia_category dto)) eqn:Hhp.
  - apply traceAll_bind; [|intros _; apply traceAll_ret].
    apply traceAll_emit. apply P_discord.
    + now rewrite Hhp.
    + intros Heq. rewrite Heq in Hhp. discriminate.
  - destruct (ia_category dto =? Category.NotRelevant)%string eqn:Hnr.
    + apply traceAll_bind; [|intros _; apply traceAll_ret].
      apply Post_findOneAndUpdate_trace.
    + apply traceAll_bind; [|intros _; apply traceAll_ret]. simpl.
      apply traceAll_emit. apply P_discord.
      * now rewrite Hhp.
      * apply String.eqb_neq. exact Hnr.
Qed.

Lemma branchOnOutcome_trace W key mkDto analysis :
  traceAll P (branchOnOutcome W key mkDto analysis).
Proof.
  unfold branchOnOutcome.
  apply traceAll_bind.
  - apply traceAll_if; [apply enrichContracts_trace | apply traceAll_ret].
  - intros enriched. apply traceAll_if.
    + apply traceAll_bind; [|intros _; apply traceAll_ret].
      apply Post_findOneAndUpdate_trace.
    + apply traceAll_bind; [intros s; constructor|]. intros n.
      apply traceAll_bind; [apply switchChannel_trace|]. intros returned.
      apply traceAll_if; [apply traceAll_ret|].
      apply traceAll_bind; [|intros _; apply traceAll_ret].
      apply traceAll_tryCatch; [|intros e; apply traceAll_ret].
      apply traceAll_bind; [apply TweetsIA_save_trace|].
      intros _. apply Post_findOneAndUpdate_trace.
Qed.

Lemma processTweet_trace W t : traceAll P (processTweet W t).
Proof.
  unfold processTweet. apply traceAll_tryCatch; [|intros e; apply traceAll_ret].
  apply traceAll_bind; [intros s; constructor|]. intros [p|]; [apply traceAll_ret|].
  apply traceAll_bind; [intros s; constructor|]. intros n0.
  apply traceAll_bind; [apply Post_save_trace|].
  intros _. apply traceAll_bind; [intros s; constructor|]. intros s.
  apply traceAll_bind.
  { apply traceAll_if; [intros s'; constructor | apply traceAll_ret]. }
  intros _. apply traceAll_bind; [intros s'; constructor|]. intros s1.
  apply traceAll_bind; [intros s'; constructor|]. intros _.
  apply traceAll_bind.
  { unfold aiLimiter.
    apply traceAll_withTimeout, traceAll_retryWithBackoff, classifyTweet_trace. }
  intros analysis. apply traceAll_if.
  - apply traceAll_bind; [apply branchOnOutcome_trace | intros _; apply traceAll_ret].
  - apply Post_findOneAndUpdate_trace.
Qed.

(** One iteration of the sweep, after its log line. *)
Lemma retryOne_trace W t :
  P (EvRetrying (tweetId t)) -> traceAll P (retryOne W t).
Proof.
  intros Hlog. unfold retryOne.
  apply traceAll_bind; [apply traceAll_emit; exact Hlog|]. intros _.
  apply traceAll_tryCatch; [|intros e; apply traceAll_ret].
  apply traceAll_bind.
  { apply traceAll_withTimeout, classifyTweet_trace. }
  intros analysis. apply traceAll_if; [apply branchOnOutcome_trace | apply traceAll_ret].
Qed.

Lemma retryLoop_trace W pending :
  (forall id, P (EvRetrying id)) -> traceAll P (retryLoop W pending).
Proof.
  intros Hlog. induction pending as [|t rest IH]; simpl.
  - apply traceAll_ret.
  - apply traceAll_bind; [apply retryOne_trace; apply Hlog|].
    intros returned. apply traceAll_if; [apply traceAll_ret | exact IH].
Qed.

Lemma retryFailedAI_trace W limit :
  (forall id, P (EvRetrying id)) -> traceAll P (retryFailedAI W limit).
Proof.
  intros Hlog. unfold retryFailedAI. apply traceAll_bind; [intros s; constructor|].
  intros pending. now apply retryLoop_trace.
Qed.

End PipelineTrace.

Lemma processTweet_routed W t : traceAll routed (processTweet W t).
Proof. apply processTweet_trace; simpl; auto. Qed.

Lemma retryFailedAI_routed W limit : traceAll routed (retryFailedAI W limit).
Proof. apply retryFailedAI_trace; simpl; auto. Qed.

(* ================================================================== *)
(** * The store *)

Lemma hasId_true id p : hasId id p = true <-> tweetId p = id.
Proof. unfold hasId. apply String.eqb_eq. Qed.

Lemma hasId_false id p : hasId id p = false <-> tweetId p <> id.
Proof. unfold hasId. apply String.eqb_neq. Qed.

Lemma lookupPost_None id ps :
  lookupPost id ps = None <-> ~ In id (map tweetId ps).
Proof.
  unfold lookupPost. induction ps as [|p ps IH]; simpl.
  - tauto.
  - destruct (hasId id p) eqn:E.
    + apply hasId_true in E. split; [discriminate | intros H; exfalso; apply H; auto].
    + apply hasId_false in E. rewrite IH. split.
      * intros H [H1|H1]; [congruence | auto].
      * intros H H1. apply H. auto.
Qed.

Lemma lookupPost_existsb id ps :
  existsb (hasId id) ps = false <-> lookupPost id ps = None.
Proof.
  unfold lookupPost. induction ps as [|p ps IH]; simpl.
  - tauto.
  - destruct (hasId id p); simpl; [split; discriminate | exact IH].
Qed.

Lemma lookupPost_app_l id ps qs p :
  lookupPost id ps = Some p -> lookupPost id (ps ++ qs) = Some p.
Proof.
  unfold lookupPost. induction ps as [|x ps IH]; simpl; [discriminate|].
  destruct (hasId id x); auto.
Qed.

Lemma lookupPost_app_r id ps qs :
  lookupPost id ps = None -> lookupPost id (ps ++ qs) = lookupPost id qs.
Proof.
  unfold lookupPost. induction ps as [|x ps IH]; simpl; auto.
  destruct (hasId id x); [discriminate | auto].
Qed.

Lemma lookupPost_unique ps p :
  NoDup (map tweetId ps) -> In p ps -> lookupPost (tweetId p) ps = Some p.
Proof.
  unfold lookupPost. induction ps as [|x ps IH]; simpl; [tauto|].
  intros Hnd Hin. inversion Hnd as [|? ? Hx Hnd']; subst.
  destruct Hin as [->|Hin].
  - replace (hasId (tweetId p) p) with true; [reflexivity|].
    symmetry. now apply hasId_true.
  - destruct (hasId (tweetId p) x) eqn:E; [|auto].
    apply hasId_true in E. exfalso. apply Hx. rewrite E. now apply in_map.
Qed.

Lemma withStatus_id st p : tweetId (withStatus st p) = tweetId p.
Proof. reflexivity. Qed.

Lemma withStatus_same p : withStatus (status p) p = p.
Proof. destruct p; reflexivity. Qed.

Lemma updateFirst_ids id st ps :
  map tweetId (updateFirst id st ps) = map tweetId ps.
Proof.
  induction ps as [|p ps IH]; simpl; [reflexivity|].
  destruct (hasId id p); simpl; [reflexivity | now rewrite IH].
Qed.

Lemma updateFirst_app_fresh id st ps p :
  lookupPost id ps = None -> tweetId p = id ->
  updateFirst id st (ps ++ [p]) = ps ++ [withStatus st p].
Proof.
  unfold lookupPost. intros Hnone Hid.
  induction ps as [|x ps IH]; simpl in *.
  - replace (hasId id p) with true; [reflexivity|]. symmetry. now apply hasId_true.
  - destruct (hasId id x); [discriminate|]. now rewrite IH.
Qed.

Lemma lookupPost_updateFirst_other id id' st ps :
  id' <> id -> lookupPost id' (updateFirst id st ps) = lookupPost id' ps.
Proof.
  unfold lookupPost. intros Hne.
  induction ps as [|p ps IH]; simpl; [reflexivity|].
  destruct (hasId id p) eqn:E; simpl.
  - apply hasId_true in E.
    replace (hasId id' (withStatus st p)) with false;
      [replace (hasId id' p) with false; [reflexivity|] |].
    + symmetry. apply hasId_false. congruence.
    + symmetry. apply hasId_false. rewrite withStatus_id. congruence.
  - destruct (hasId id' p); [reflexivity | exact IH].
Qed.

Lemma count_unique (A : Type) (f : A -> string) (id : string) (l : list A) :
  NoDup (map f l) ->
  (List.length (filter (fun x => (f x =? id)%string) l) <= 1)%nat.
Proof.
  induction l as [|x l IH]; simpl; intros Hnd; [lia|].
  inversion Hnd as [|? ? Hx Hnd']; subst.
  destruct (f x =? id)%string eqn:E; simpl; [|auto].
  apply String.eqb_eq in E.
  assert (Hz : filter (fun y => (f y =? id)%string) l = []).
  { clear IH Hnd Hnd'. induction l as [|y l IHl]; simpl; [reflexivity|].
    destruct (f y =? id)%string eqn:Ey.
    - apply String.eqb_eq in Ey. exfalso. apply Hx. simpl. left. congruence.
    - apply IHl. intros H. apply Hx. simpl. auto. }
  rewrite Hz. simpl. lia.
Qed.

Lemma rawCount_le_1 id s : uniqueIds s -> (rawCount id s <= 1)%nat.
Proof. intros H. unfold rawCount, hasId. now apply count_unique. Qed.

Lemma classifiedCount_le_1 id s : uniqueIA s -> (classifiedCount id s <= 1)%nat.
Proof. intros H. unfold classifiedCount, iaHasId. now apply count_unique. Qed.

Lemma rawCount_pos id s p :
  lookupPost id (posts s) = Some p -> (1 <= rawCount id s)%nat.
Proof.
  unfold rawCount, lookupPost. induction (posts s) as [|x ps IH]; simpl; [discriminate|].
  destruct (hasId id x); simpl; [lia | auto].
Qed.

Lemma monotone_refl s : monotone s s.
Proof. intros id st H _. exact H. Qed.

Lemma monotone_trans s1 s2 s3 : monotone s1 s2 -> monotone s2 s3 -> monotone s1 s3.
Proof. intros H12 H23 id st H Hne. apply H23; auto. Qed.

(* ================================================================== *)
(** * Total correctness triples *)

Lemma hoare_bind A B (P : State -> Prop) (Q : A -> State -> Prop)
      (R : B -> State -> Prop) (m : M A) (k : A -> M B) :
  hoare P m Q -> (forall a, hoare (Q a) (k a) R) -> hoare P (bind m k) R.
Proof.
  intros Hm Hk s Hs. destruct (Hm s Hs) as [a [Ha Hq]].
  unfold bind. destruct (m s) as [[r s1] ev1]. unfold resOf, stOf in *. simpl in *.
  subst r. destruct (Hk a s1 Hq) as [b [Hb Hr]].
  destruct (k a s1) as [[r2 s2] ev2]. simpl in *. exists b. auto.
Qed.

Lemma hoare_tryCatch A (P : State -> Prop) (Q : A -> State -> Prop) (m : M A) h :
  hoare P m Q -> hoare P (tryCatch m h) Q.
Proof.
  intros Hm s Hs. destruct (Hm s Hs) as [a [Ha Hq]].
  unfold tryCatch. destruct (m s) as [[r s1] ev1]. unfold resOf, stOf in *. simpl in *.
  subst r. exists a. auto.
Qed.

Lemma hoare_if A (P : State -> Prop) (Q : A -> State -> Prop) (b : bool) (m1 m2 : M A) :
  (b = true -> hoare P m1 Q) -> (b = false -> hoare P m2 Q) ->
  hoare P (if b then m1 else m2) Q.
Proof. destruct b; auto. Qed.

Lemma storeEq_refl s : storeEq s s.
Proof. split; reflexivity. Qed.

Lemma keeps_ret A (a : A) : keeps (ret a).
Proof. intros s. apply storeEq_refl. Qed.

Lemma keeps_throw A e : keeps (@throw A e).
Proof. intros s. apply storeEq_refl. Qed.

Lemma keeps_bind A B (m : M A) (k : A -> M B) :
  keeps m -> (forall a, keeps (k a)) -> keeps (bind m k).
Proof.
  intros Hm Hk s. specialize (Hm s). unfold bind.
  destruct (m s) as [[[a|e] s1] ev1]; unfold stOf in *; simpl in *; auto.
  specialize (Hk a s1). destruct (k a s1) as [[r s2] ev2]. unfold stOf in *. simpl in *.
  destruct Hm, Hk. split; congruence.
Qed.

Lemma keeps_tryCatch A (m : M A) h :
  keeps m -> (forall e, keeps (h e)) -> keeps (tryCatch m h).
Proof.
  intros Hm Hh s. specialize (Hm s). unfold tryCatch.
  destruct (m s) as [[[a|e] s1] ev1]; unfold stOf in *; simpl in *; auto.
  specialize (Hh e s1). destruct (h e s1) as [[r s2] ev2]. unfold stOf in *. simpl in *.
  destruct Hm, Hh. split; congruence.
Qed.

Lemma keeps_if A (b : bool) (m1 m2 : M A) :
  keeps m1 -> keeps m2 -> keeps (if b then m1 else m2).
Proof. destruct b; auto. Qed.

Lemma keeps_withTimeout A (m : M A) ms fallback :
  keeps m -> keeps (withTimeout m ms fallback).
Proof.
  intros Hm s. specialize (Hm s). unfold withTimeout.
  destruct (m s) as [[r s1] ev]. unfold stOf in *. simpl in *.
  destruct (clock s1 - clock s <=? ms); simpl; auto.
Qed.

Lemma keeps_sleep ms : keeps (sleep ms).
Proof. intros s. split; reflexivity. Qed.

Lemma keeps_retryWithBackoff A (fn : M A) retries :
  keeps fn -> forall delay, keeps (retryWithBackoff fn retries delay).
Proof.
  intros Hfn. induction retries as [|r IH]; intros delay; simpl.
  - apply keeps_tryCatch; auto. intros e. apply keeps_throw.
  - apply keeps_tryCatch; auto. intros e. apply keeps_if.
    + apply keeps_bind; [apply keeps_sleep | intros _; apply IH].
    + apply keeps_throw.
Qed.

Lemma keeps_generateAndParse W parts : keeps (generateAndParse W parts).
Proof.
  intros s. unfold generateAndParse.
  destruct (service W (clock s) parts) as [o latency].
  destruct o; split; reflexivity.
Qed.

Lemma keeps_classifyTweet W input : keeps (classifyTweet W input).
Proof.
  unfold classifyTweet. apply keeps_if; [apply keeps_ret|].
  apply keeps_tryCatch; [apply keeps_generateAndParse | intros e; apply keeps_ret].
Qed.

Lemma total_classifyTweet W input : total (classifyTweet W input).
Proof.
  unfold classifyTweet.
  destruct (negb _ && _); [apply total_ret|].
  apply total_tryCatch. intros e. apply total_ret.
Qed.

Lemma retryWithBackoff_total A (fn : M A) retries delay :
  total fn -> forall s, retryWithBackoff fn retries delay s = fn s.
Proof.
  intros Hfn s. destruct (Hfn s) as [a Ha].
  destruct (fn s) as [[r s1] ev1] eqn:E. unfold resOf in Ha. simpl in Ha. subst r.
  destruct retries; simpl; now apply tryCatch_ok.
Qed.

Lemma total_withTimeout A (m : M A) ms fallback :
  total m -> total (withTimeout m ms fallback).
Proof.
  intros Hm s. destruct (Hm s) as [a Ha]. unfold withTimeout.
  destruct (m s) as [[r s1] ev]. unfold resOf in *. simpl in *.
  destruct (clock s1 - clock s <=? ms); simpl; eauto.
Qed.

(** The classification step of both paths returns a classification and
    leaves the store alone. *)
Lemma classification_step W input retries delay ms fallback s0 :
  hoare (storeEq s0)
        (withTimeout (retryWithBackoff (classifyTweet W input) retries delay) ms fallback)
        (fun _ => storeEq s0).
Proof.
  intros s Hs.
  assert (Ht : total (withTimeout (retryWithBackoff (classifyTweet W input) retries delay)
                                  ms fallback)).
  { apply total_withTimeout. intros s'.
    rewrite retryWithBackoff_total by apply total_classifyTweet.
    apply total_classifyTweet. }
  destruct (Ht s) as [a Ha]. exists a. split; [exact Ha|].
  pose proof (keeps_withTimeout ms fallback
                (keeps_retryWithBackoff retries (keeps_classifyTweet W input) delay) s) as Hk.
  destruct Hs, Hk. split; congruence.
Qed.

Lemma classification_step_sweep W input ms fallback s0 :
  hoare (storeEq s0) (withTimeout (classifyTweet W input) ms fallback)
        (fun _ => storeEq s0).
Proof.
  intros s Hs.
  destruct (total_withTimeout ms fallback (total_classifyTweet W input) s) as [a Ha].
  exists a. split; [exact Ha|].
  pose proof (keeps_withTimeout ms fallback (keeps_classifyTweet W input) s) as Hk.
  destruct Hs, Hk. split; congruence.
Qed.

(** The market-data lookups return and leave the whole state alone. *)
Lemma enrichContracts_state W cs s :
  exists l, resOf (enrichContracts W cs s) = Ok l /\ stOf (enrichContracts W cs s) = s.
Proof.
  revert s. induction cs as [|c cs IH]; intros s; simpl.
  - exists []. auto.
  - unfold bind, getTokenDataFromDexScreener.
    destruct (dexGet W (address c)) as [pairs|]; simpl.
    + destruct (Nat.eqb (List.length pairs) 0); simpl;
        destruct (IH s) as [l [Hl Hs]];
        destruct (enrichContracts W cs s) as [[r s1] ev1];
        unfold resOf, stOf in *; simpl in *; subst; simpl; eauto.
    + destruct (IH s) as [l [Hl Hs]];
        destruct (enrichContracts W cs s) as [[r s1] ev1];
        unfold resOf, stOf in *; simpl in *; subst; simpl; eauto.
Qed.

(* ================================================================== *)
(** * What one run of the pipeline does to the store *)

Ltac step_leaf :=
  unfold postsStep, iaStep; simpl;
  do 3 eexists; split; [reflexivity|]; simpl; split;
  try solve [ left; reflexivity
            | right; exists discarded; split; [discriminate | reflexivity]
            | right; exists processed; split; [discriminate | reflexivity] ].

Lemma branchOnOutcome_step W id mkDto analysis s :
  (forall a e n, ia_tweetId (mkDto a e n) = id) ->
  exists b s' ev,
    branchOnOutcome W (Some id) mkDto analysis s = (Ok b, s', ev) /\
    postsStep id s s' /\ iaStep id s s'.
Proof.
  intros Hid. unfold branchOnOutcome.
  set (E := if negb (Nat.eqb (List.length (contracts analysis)) 0)
            then enrichContracts W (contracts analysis) else ret []).
  assert (HE : exists l, resOf (E s) = Ok l /\ stOf (E s) = s).
  { unfold E. destruct (negb _); [apply enrichContracts_state | exists []; auto]. }
  destruct HE as [l [Hl Hs]].
  unfold bind at 1. destruct (E s) as [[r s1] ev1].
  unfold resOf, stOf in Hl, Hs. simpl in Hl, Hs. subst r s1.
  destruct (category analysis =? "not-relevant")%string.
  - unfold bind, Post_findOneAndUpdate, ret. step_leaf.
  - unfold bind at 1. unfold now.
    set (dto := mkDto analysis l (clock s)).
    assert (Hdto : ia_tweetId dto = id) by apply Hid.
    unfold bind at 1. unfold switchChannel.
    destruct (isHighPriority (ia_category dto)).
    + unfold sendToDiscord, emit, bind, tryCatch, ret, TweetsIA_save.
      destruct (validTweetIA dto).
      * destruct (existsb (iaHasId (ia_tweetId dto)) (tweetsIA s)) eqn:Ex.
        -- step_leaf.
        -- unfold Post_findOneAndUpdate. step_leaf.
           right. exists (castTweetIA dto). rewrite <- Hdto. auto.
      * step_leaf.
    + destruct (ia_category dto =? Category.NotRelevant)%string.
      * unfold bind, Post_findOneAndUpdate, ret. step_leaf.
      * unfold negb, sendToDiscord, emit, bind, tryCatch, ret, TweetsIA_save.
        destruct (validTweetIA dto).
        -- destruct (existsb (iaHasId (ia_tweetId dto)) (tweetsIA s)) eqn:Ex.
           ++ step_leaf.
           ++ unfold Post_findOneAndUpdate. step_leaf.
              right. exists (castTweetIA dto). rewrite <- Hdto. auto.
        -- step_leaf.
Qed.

Lemma requiredStr_Some v x : requiredStr v = Some x -> v = Some x /\ x <> "".
Proof.
  unfold requiredStr. destruct v as [y|]; [|discriminate].
  destruct (y =? "")%string eqn:E; [discriminate|].
  intros H. inversion H; subst. split; [reflexivity|]. now apply String.eqb_neq.
Qed.

Lemma validatePost_Some d p :
  validatePost d = Some p ->
  d_tweetId d = Some (tweetId p) /\ tweetId p <> "" /\ status p = unprocessed.
Proof.
  unfold validatePost.
  destruct (requiredStr (d_tweetId d)) as [id|] eqn:E1; [|discriminate].
  destruct (requiredStr (d_username d)) as [u|]; [|discriminate].
  destruct (d_timestamp d) as [ts|]; [|discriminate].
  intros H. inversion H; subst. simpl.
  apply requiredStr_Some in E1. destruct E1. auto.
Qed.

Lemma processTweet_existing W t s p :
  existing t s = Some p -> processTweet W t s = (Ok tt, s, []).
Proof.
  intros H. unfold processTweet, tryCatch. unfold bind at 1.
  unfold Post_findOne. unfold existing in H. rewrite H. reflexivity.
Qed.

Lemma processTweet_rejected W t s :
  existing t s = None -> validatePost (newPost W (clock s) t) = None ->
  processTweet W t s = (Ok tt, s, []).
Proof.
  intros H Hv. unfold processTweet, tryCatch. unfold bind at 1.
  unfold Post_findOne. unfold existing in H. rewrite H.
  unfold bind at 1. unfold now. unfold bind at 1. unfold Post_save.
  rewrite Hv. reflexivity.
Qed.

Lemma processTweet_fresh W t s p :
  existing t s = None -> validatePost (newPost W (clock s) t) = Some p ->
  hoare (eq s) (processTweet W t)
        (fun _ s' =>
           (exists st, posts s' = posts s ++ [withStatus st p]) /\
           iaStep (tweetId p) s s').
Proof.
  intros Hex Hv.
  destruct (@validatePost_Some _ _ Hv) as [Hurl [Hne Hst]]. simpl in Hurl.
  assert (Hlook : lookupPost (tweetId p) (posts s) = None).
  { unfold existing in Hex. now rewrite Hurl in Hex. }
  set (sa := setPosts (posts s ++ [p]) s).
  unfold processTweet. apply hoare_tryCatch.
  apply hoare_bind with (Q := fun r s' => s' = s /\ r = None).
  { intros s' <-. eexists. split; [reflexivity|]. split; [reflexivity|].
    unfold existing in Hex. exact Hex. }
  intros [q|]; [intros s' [_ H]; discriminate|].
  apply hoare_bind with (Q := fun n s' => s' = s /\ n = clock s).
  { intros s' [-> _]. eexists. split; [reflexivity|]. auto. }
  intros n0.
  apply hoare_bind with (Q := fun _ s' => s' = sa).
  { intros s' [-> ->]. exists tt. unfold Post_save. rewrite Hv.
    replace (existsb (hasId (tweetId p)) (posts s)) with false
      by (symmetry; now apply lookupPost_existsb).
    split; reflexivity. }
  intros _.
  apply hoare_bind with (Q := fun g s' => g = s' /\ storeEq sa s').
  { intros s' ->. exists sa. split; [reflexivity|]. split; [reflexivity | apply storeEq_refl]. }
  intros g.
  apply hoare_bind with (Q := fun _ s' => storeEq sa s').
  { intros s' [-> Hs']. exists tt. destruct (0 <? _); (split; [reflexivity | exact Hs']). }
  intros _.
  apply hoare_bind with (Q := fun g1 s' => g1 = s' /\ storeEq sa s').
  { intros s' Hs'. exists s'. split; [reflexivity|]. auto. }
  intros g1.
  apply hoare_bind with (Q := fun _ s' => storeEq sa s').
  { intros s' [-> Hs']. exists tt. split; [reflexivity | exact Hs']. }
  intros _.
  apply hoare_bind with (Q := fun _ s' => storeEq sa s').
  { unfold aiLimiter. apply classification_step. }
  intros analysis.
  assert (Hfin : forall s1 s', storeEq sa s1 ->
            postsStep (tweetId p) s1 s' -> iaStep (tweetId p) s1 s' ->
            (exists st, posts s' = posts s ++ [withStatus st p]) /\
            iaStep (tweetId p) s s').
  { intros s1 s' [Hp Hi] Hps His. simpl in Hp, Hi. split.
    - destruct Hps as [Hps | [st [_ Hps]]].
      + exists unprocessed. rewrite Hps, Hp, <- Hst. now rewrite withStatus_same.
      + exists st. rewrite Hps, Hp. now apply updateFirst_app_fresh.
    - unfold iaStep in *. rewrite Hi in His. exact His. }
  apply hoare_if; intros _.
  - intros s1 Hs1.
    destruct (@branchOnOutcome_step W (tweetId p) (dtoOfTweet W t) analysis s1)
      as [b [s' [ev [Hb [Hps His]]]]].
    { intros a e n. simpl. now rewrite Hurl. }
    exists tt. unfold bind. rewrite Hurl, Hb. simpl. split; [reflexivity|].
    apply (Hfin s1 s'); auto.
  - intros s1 [Hp Hi]. exists tt. split; [reflexivity|].
    rewrite Hurl. simpl in *. split.
    + exists unprocessed. rewrite Hp. now apply updateFirst_app_fresh.
    + left. exact Hi.
Qed.

Lemma iaHasId_absent id l :
  existsb (iaHasId id) l = false -> ~ In id (map ia_tweetId l).
Proof.
  induction l as [|d l IH]; simpl; [tauto|].
  destruct (iaHasId id d) eqn:E; simpl; [discriminate|].
  intros H [H1|H1]; [|now apply IH].
  unfold iaHasId in E. apply String.eqb_neq in E. congruence.
Qed.

Lemma NoDup_snoc (A : Type) (l : list A) (x : A) :
  NoDup l -> ~ In x l -> NoDup (l ++ [x]).
Proof.
  induction l as [|y l IH]; simpl; intros Hnd Hx.
  - constructor; [tauto | constructor].
  - inversion Hnd as [|? ? Hy Hl]; subst. constructor.
    + rewrite in_app_iff. simpl. intros [H|[H|[]]]; [tauto|]. apply Hx. auto.
    + apply IH; auto.
Qed.

Lemma iaStep_unique id s s' : uniqueIA s -> iaStep id s s' -> uniqueIA s'.
Proof.
  unfold uniqueIA. intros Hu [H | [dto [Hid [Hex H]]]]; rewrite H; [exact Hu|].
  rewrite map_app. simpl. rewrite Hid.
  apply NoDup_snoc; [exact Hu | now apply iaHasId_absent].
Qed.

Lemma postsStep_unique id s s' : uniqueIds s -> postsStep id s s' -> uniqueIds s'.
Proof.
  unfold uniqueIds. intros Hu [H | [st [_ H]]]; rewrite H; [exact Hu|].
  now rewrite updateFirst_ids.
Qed.

Lemma postsStep_other id id' s s' :
  id' <> id -> postsStep id s s' -> statusOf id' s' = statusOf id' s.
Proof.
  unfold statusOf. intros Hne [H | [st [_ H]]]; rewrite H; [reflexivity|].
  now rewrite lookupPost_updateFirst_other.
Qed.

Lemma postsStep_monotone id s s' :
  (forall st, statusOf id s = Some st -> st = unprocessed) ->
  postsStep id s s' -> monotone s s'.
Proof.
  intros Hun Hstep id0 st0 H0 Hne.
  destruct (string_dec id0 id) as [->|Hd].
  - exfalso. apply Hne. now apply Hun.
  - rewrite (@postsStep_other id id0 s s' Hd Hstep). exact H0.
Qed.

(** [processTweet] keeps the two unique indexes and never moves a post out
    of [processed] or [discarded]. *)
Lemma processTweet_inv W t s :
  uniqueIds s -> uniqueIA s ->
  uniqueIds (stOf (processTweet W t s)) /\
  uniqueIA (stOf (processTweet W t s)) /\
  monotone s (stOf (processTweet W t s)).
Proof.
  intros Hu Hi.
  destruct (existing t s) as [q|] eqn:Hex.
  { rewrite (@processTweet_existing W t s _ Hex). simpl.
    split; [|split]; auto using monotone_refl. }
  destruct (validatePost (newPost W (clock s) t)) as [p|] eqn:Hv.
  2:{ rewrite (@processTweet_rejected W t s Hex Hv). simpl.
      split; [|split]; auto using monotone_refl. }
  destruct (@processTweet_fresh W t s p Hex Hv s eq_refl) as [u [_ [[st Hp] His]]].
  destruct (@validatePost_Some _ _ Hv) as [Hurl _]. simpl in Hurl.
  assert (Hlook : lookupPost (tweetId p) (posts s) = None).
  { unfold existing in Hex. now rewrite Hurl in Hex. }
  split; [|split].
  - unfold uniqueIds. rewrite Hp, map_app. simpl.
    apply NoDup_snoc; [exact Hu | now apply lookupPost_None].
  - eapply iaStep_unique; eauto.
  - intros id0 st0 H0 _. unfold statusOf in *. rewrite Hp.
    destruct (lookupPost id0 (posts s)) as [q|] eqn:E; [|discriminate].
    now rewrite (@lookupPost_app_l id0 (posts s) _ q E).
Qed.

(** After [processTweet] on a candidate that is already stored or that the
    schema accepts, a post with the candidate's identifier is stored. *)
Lemma processTweet_stores W t s id :
  tw_url t = Some id ->
  existing t s <> None \/ validatePost (newPost W (clock s) t) <> None ->
  exists q, lookupPost id (posts (stOf (processTweet W t s))) = Some q.
Proof.
  intros Hurl Hor.
  destruct (existing t s) as [q|] eqn:Hex.
  { rewrite (@processTweet_existing W t s _ Hex). simpl. exists q.
    unfold existing in Hex. now rewrite Hurl in Hex. }
  destruct Hor as [H|H]; [congruence|].
  destruct (validatePost (newPost W (clock s) t)) as [p|] eqn:Hv; [|congruence].
  destruct (@processTweet_fresh W t s p Hex Hv s eq_refl) as [u [_ [[st Hp] _]]].
  destruct (@validatePost_Some _ _ Hv) as [Hurl' _]. simpl in Hurl'.
  assert (Hid : tweetId p = id) by congruence.
  exists (withStatus st p). rewrite Hp.
  unfold existing in Hex. rewrite Hurl in Hex.
  rewrite (@lookupPost_app_r id (posts s) _ Hex). unfold lookupPost. simpl.
  unfold hasId. simpl. rewrite Hid, String.eqb_refl. reflexivity.
Qed.

(* ================================================================== *)
(** * What the recovery sweep does to the store *)

Lemma retried_app ev1 ev2 : retried (ev1 ++ ev2) = retried ev1 ++ retried ev2.
Proof.
  induction ev1 as [|e ev1 IH]; simpl; [reflexivity|].
  destruct e; simpl; rewrite ?IH; reflexivity.
Qed.

Lemma retried_none ev : Forall notRetrying ev -> retried ev = [].
Proof.
  induction 1 as [|e ev He _ IH]; simpl; [reflexivity|].
  destruct e; simpl in *; tauto.
Qed.

Lemma retryOne_step W t s :
  exists b s' ev,
    retryOne W t s = (Ok b, s', EvRetrying (tweetId t) :: ev) /\
    Forall notRetrying ev /\
    postsStep (tweetId t) s s' /\ iaStep (tweetId t) s s'.
Proof.
  unfold retryOne.
  set (input := {| in_text := Js.orStr (text t) "";
                   in_mediaUrl := mediaUrl t;
                   in_mimeType := Some "image/jpeg" |}).
  set (C := withTimeout (classifyTweet W input) AI_TIMEOUT_MS errorSentinel).
  destruct (@classification_step_sweep W input AI_TIMEOUT_MS errorSentinel s s (storeEq_refl s))
    as [a [Ha [Hp Hi]]].
  fold C in Ha, Hp, Hi.
  assert (HC : Forall notRetrying (evOf (C s))).
  { apply traceAll_withTimeout, classifyTweet_trace. intros; exact I. }
  destruct (C s) as [[r s1] ev1] eqn:EC. unfold resOf, stOf, evOf in *. simpl in *. subst r.
  unfold bind at 1. unfold emit. unfold tryCatch. unfold bind at 1. rewrite EC.
  destruct (negb (category a =? "error")%string).
  - destruct (@branchOnOutcome_step W (tweetId t) (dtoOfPost t) a s1)
      as [b [s' [ev [Hb [Hps His]]]]]; [reflexivity|].
    assert (HB : Forall notRetrying
                   (evOf (branchOnOutcome W (Some (tweetId t)) (dtoOfPost t) a s1))).
    { apply branchOnOutcome_trace; intros; exact I. }
    rewrite Hb in *. unfold evOf in HB. simpl in HB.
    exists b, s', (ev1 ++ ev). split; [reflexivity|]. split; [|split].
    + apply Forall_app; auto.
    + unfold postsStep in *. now rewrite Hp in Hps.
    + unfold iaStep in *. now rewrite Hi in His.
  - exists false, s1, (ev1 ++ []). split; [reflexivity|]. split; [|split].
    + apply Forall_app; auto.
    + left. exact Hp.
    + left. exact Hi.
Qed.

(** The sweep over a batch of distinct posts that are all [unprocessed]. *)
Lemma retryLoop_inv W pending :
  forall s,
    uniqueIds s -> uniqueIA s ->
    NoDup (map tweetId pending) ->
    (forall t, In t pending -> statusOf (tweetId t) s = Some unprocessed) ->
    exists s' ev,
      retryLoop W pending s = (Ok tt, s', ev) /\
      uniqueIds s' /\ uniqueIA s' /\ monotone s s' /\
      exists rest, map tweetId pending = retried ev ++ rest.
Proof.
  induction pending as [|t rest IH]; intros s Hu Hi Hnd Hall.
  - exists s, []. simpl. repeat split; auto using monotone_refl. now exists [].
  - simpl. destruct (retryOne_step W t s) as [b [s1 [ev1 [H1 [Hnr [Hps His]]]]]].
    unfold bind. rewrite H1.
    assert (Hu1 : uniqueIds s1) by (eapply postsStep_unique; eauto).
    assert (Hi1 : uniqueIA s1) by (eapply iaStep_unique; eauto).
    assert (Hm1 : monotone s s1).
    { eapply postsStep_monotone; [|exact Hps].
      intros st Hst. rewrite (Hall t (or_introl eq_refl)) in Hst. congruence. }
    destruct b.
    + exists s1, (EvRetrying (tweetId t) :: ev1 ++ []). split; [reflexivity|].
      repeat split; auto. exists (map tweetId rest). simpl.
      rewrite retried_app, (retried_none Hnr). reflexivity.
    + inversion Hnd as [|? ? Hx Hnd']; subst.
      destruct (IH s1 Hu1 Hi1 Hnd') as [s2 [ev2 [H2 [Hu2 [Hi2 [Hm2 [rest' Hr]]]]]]].
      { intros t' Hin. rewrite (@postsStep_other (tweetId t) (tweetId t') s s1); auto.
        - apply Hall. now right.
        - intros Heq. apply Hx. rewrite <- Heq. now apply in_map. }
      rewrite H2. exists s2, (EvRetrying (tweetId t) :: ev1 ++ ev2).
      split; [reflexivity|]. repeat split; auto.
      * eapply monotone_trans; eauto.
      * exists rest'. simpl. rewrite retried_app, (retried_none Hnr). simpl.
        now rewrite Hr.
Qed.

Lemma NoDup_map_filter (A : Type) (f : A -> string) (g : A -> bool) (l : list A) :
  NoDup (map f l) -> NoDup (map f (filter g l)).
Proof.
  induction l as [|x l IH]; simpl; intros H; [constructor|].
  inversion H as [|? ? Hx Hl]; subst.
  destruct (g x); simpl; [|auto].
  constructor; [|auto].
  intros Hin. apply Hx. apply in_map_iff in Hin. destruct Hin as [y [Hy Hin]].
  apply filter_In in Hin. rewrite <- Hy. apply in_map. tauto.
Qed.

Lemma In_firstn (A : Type) (n : nat) (l : list A) (x : A) :
  In x (firstn n l) -> In x l.
Proof.
  revert l. induction n as [|n IH]; intros l; simpl; [tauto|].
  destruct l as [|y l]; simpl; [tauto|]. intros [H|H]; auto.
Qed.

Lemma NoDup_map_firstn (A : Type) (f : A -> string) (n : nat) (l : list A) :
  NoDup (map f l) -> NoDup (map f (firstn n l)).
Proof.
  revert l. induction n as [|n IH]; intros l H; simpl; [constructor|].
  destruct l as [|x l]; simpl in *; [constructor|].
  inversion H as [|? ? Hx Hl]; subst. constructor; [|auto].
  intros Hin. apply Hx. apply in_map_iff in Hin. destruct Hin as [y [Hy Hin]].
  rewrite <- Hy. apply in_map. eapply In_firstn. exact Hin.
Qed.

(** The batch the sweep fetches: distinct posts, all [unprocessed]. *)
Lemma pending_ok s limit :
  uniqueIds s ->
  let pending := firstn limit (filter isUnprocessed (posts s)) in
  NoDup (map tweetId pending) /\
  (forall t, In t pending -> statusOf (tweetId t) s = Some unprocessed) /\
  (List.length pending <= limit)%nat.
Proof.
  intros Hu pending. split; [|split].
  - apply NoDup_map_firstn, NoDup_map_filter, Hu.
  - intros t Hin. apply In_firstn in Hin. apply filter_In in Hin.
    destruct Hin as [Hin Hst]. unfold statusOf.
    rewrite (@lookupPost_unique (posts s) t Hu Hin). simpl.
    unfold isUnprocessed in Hst. destruct (status t); simpl in Hst; congruence.
  - apply firstn_le_length.
Qed.

Lemma retryFailedAI_inv W limit s :
  uniqueIds s -> uniqueIA s ->
  exists s' ev,
    retryFailedAI W limit s = (Ok tt, s', ev) /\
    uniqueIds s' /\ uniqueIA s' /\ monotone s s' /\
    exists rest,
      map tweetId (firstn limit (filter isUnprocessed (posts s))) = retried ev ++ rest.
Proof.
  intros Hu Hi. destruct (@pending_ok s limit Hu) as [Hnd [Hall _]].
  destruct (@retryLoop_inv W _ s Hu Hi Hnd Hall) as [s' [ev [H R]]].
  exists s', ev. split; [|exact R].
  unfold retryFailedAI, bind, Post_find_unprocessed. rewrite H. reflexivity.
Qed.

(* ================================================================== *)
(** * Idempotency of the pipeline *)

(** C1. Running [processTweet] twice on the same candidate, whose
    identifier is [id] and which is already stored or passes the validation
    of the Post schema, leaves exactly one raw post and at most one
    classified post with that identifier; the second run finds the raw post
    and returns at once: the state is unchanged and no write,
    classification call or notification is made. *)
Theorem processTweet_idempotent (W1 W2 : World) (t : Tweet) (id : string) (s : State) :
  uniqueIds s -> uniqueIA s ->
  tw_url t = Some id ->
  existing t s <> None \/ validatePost (newPost W1 (clock s) t) <> None ->
  let s1 := stOf (processTweet W1 t s) in
  processTweet W2 t s1 = (Ok tt, s1, []) /\
  rawCount id (stOf (processTweet W2 t s1)) = 1%nat /\
  (classifiedCount id (stOf (processTweet W2 t s1)) <= 1)%nat.
Proof.
  intros Hu Hi Hurl Hor s1.
  destruct (@processTweet_inv W1 t s Hu Hi) as [Hu1 [Hi1 _]]. fold s1 in Hu1, Hi1.
  destruct (@processTweet_stores W1 t s id Hurl Hor) as [q Hq]. fold s1 in Hq.
  assert (Hex : existing t s1 = Some q) by (unfold existing; now rewrite Hurl).
  rewrite (@processTweet_existing W2 t s1 q Hex). simpl.
  split; [reflexivity|]. split.
  - apply Nat.le_antisymm; [exact (@rawCount_le_1 id s1 Hu1) | exact (@rawCount_pos id s1 q Hq)].
  - now apply classifiedCount_le_1.
Qed.

Lemma processTweet_idempotent_witness :
  (uniqueIds Sample.emptyState /\ uniqueIA Sample.emptyState /\
   tw_url Sample.candidate = Some "/user/status/1" /\
   (existing Sample.candidate Sample.emptyState <> None \/
    validatePost (newPost (Sample.answering Sample.contractAlert 100)
                          (clock Sample.emptyState) Sample.candidate) <> None)) /\
  let s1 := stOf (processTweet (Sample.answering Sample.contractAlert 100)
                               Sample.candidate Sample.emptyState) in
  processTweet (Sample.answering notRelevant 100) Sample.candidate s1 = (Ok tt, s1, []) /\
  rawCount "/user/status/1"
           (stOf (processTweet (Sample.answering notRelevant 100) Sample.candidate s1)) = 1%nat /\
  (classifiedCount "/user/status/1"
           (stOf (processTweet (Sample.answering notRelevant 100) Sample.candidate s1)) <= 1)%nat.
Proof.
  assert (H1 : uniqueIds Sample.emptyState) by constructor.
  assert (H2 : uniqueIA Sample.emptyState) by constructor.
  assert (H3 : tw_url Sample.candidate = Some "/user/status/1") by reflexivity.
  assert (H4 : existing Sample.candidate Sample.emptyState <> None \/
               validatePost (newPost (Sample.answering Sample.contractAlert 100)
                                     (clock Sample.emptyState) Sample.candidate) <> None)
    by (right; discriminate).
  split; [auto|].
  exact (@processTweet_idempotent (Sample.answering Sample.contractAlert 100)
           (Sample.answering notRelevant 100) Sample.candidate "/user/status/1"
           Sample.emptyState H1 H2 H3 H4).
Defined.

(* ================================================================== *)
(** * Status monotonicity *)

Lemma runOp_inv o s :
  uniqueIds s -> uniqueIA s ->
  uniqueIds (runOp o s) /\ uniqueIA (runOp o s) /\ monotone s (runOp o s).
Proof.
  intros Hu Hi. destruct o as [W t | W limit]; simpl.
  - now apply processTweet_inv.
  - destruct (@retryFailedAI_inv W limit s Hu Hi) as [s' [ev [H [Hu' [Hi' [Hm _]]]]]].
    rewrite H. simpl. auto.
Qed.

Lemma runOps_inv os :
  forall s, uniqueIds s -> uniqueIA s ->
            uniqueIds (runOps os s) /\ uniqueIA (runOps os s) /\ monotone s (runOps os s).
Proof.
  induction os as [|o os IH]; intros s Hu Hi; simpl.
  - auto using monotone_refl.
  - destruct (@runOp_inv o s Hu Hi) as [Hu1 [Hi1 Hm1]].
    destruct (IH _ Hu1 Hi1) as [Hu2 [Hi2 Hm2]].
    repeat split; auto. eapply monotone_trans; eauto.
Qed.

(** C8. Along any sequence of pipeline runs and recovery sweeps, each run
    to its end before the next starts, a raw post whose status is
    [processed] or [discarded] keeps that status, and every post a sweep
    announces for re-classification has status [unprocessed] when the sweep
    starts.  But the sweep is started without [await] and the feed loop
    runs beside the cron: when a sweep runs during the [await] of a
    classification that then times out, the sweep classifies the post the
    run has inserted and marks it [processed], and the run writes
    [unprocessed] over it afterwards.  The post is left [unprocessed] with
    its classified post stored, so every later sweep notifies it again. *)
Theorem status_monotone :
  (forall (os : list Op) (s : State),
      uniqueIds s -> uniqueIA s ->
      monotone s (runOps os s) /\
      forall W limit id,
        In id (retried (evOf (retryFailedAI W limit (runOps os s)))) ->
        statusOf id (runOps os s) = Some unprocessed) /\
  (forall W t, processTweetAwaiting (fun promise => promise) W t = processTweet W t) /\
  let W := Scenario.racing Sample.contractAlert in
  let sweep := retryFailedAI W 5 in
  let run := processTweetAwaiting (fun promise => awaitBeside promise 1000 sweep)
                                  W Sample.candidate Sample.emptyState in
  let later := sweepRuns W 5 2 (stOf run) in
  resOf run = Ok tt /\
  aiCallTimes (evOf run) = [1000000; 1001000] /\
  clock (stOf (sweep (setClock 1001000 (gated Scenario.storedCandidate Sample.emptyState))))
  = 1001100 /\
  clock (stOf run) = 1020000 /\
  statusWrites "/user/status/1" (evOf run) = [unprocessed; processed; unprocessed] /\
  statusOf "/user/status/1" (stOf run) = Some unprocessed /\
  classifiedCount "/user/status/1" (stOf run) = 1%nat /\
  notifications (evOf run) = [(alerts, "Contract Alert")] /\
  notifications (snd later) = [(alerts, "Contract Alert"); (alerts, "Contract Alert")] /\
  statusOf "/user/status/1" (fst later) = Some unprocessed.
Proof.
  split; [|split].
  - intros os s Hu Hi. destruct (@runOps_inv os s Hu Hi) as [Hu' [Hi' Hm]].
    split; [exact Hm|]. intros W limit id Hin.
    destruct (@retryFailedAI_inv W limit _ Hu' Hi') as [s' [ev [H [_ [_ [_ [rest Hr]]]]]]].
    rewrite H in Hin. simpl in Hin.
    destruct (@pending_ok (runOps os s) limit Hu') as [_ [Hall _]].
    assert (Hin' : In id (map tweetId
                            (firstn limit (filter isUnprocessed (posts (runOps os s)))))).
    { rewrite Hr. apply in_or_app. now left. }
    apply in_map_iff in Hin'. destruct Hin' as [t [Ht Hint]].
    rewrite <- Ht. now apply Hall.
  - intros W t. reflexivity.
  - repeat split; vm_compute; reflexivity.
Qed.

(* ================================================================== *)
(** * Category routing *)

Lemma notifications_app ev1 ev2 :
  notifications (ev1 ++ ev2) = notifications ev1 ++ notifications ev2.
Proof.
  induction ev1 as [|e ev1 IH]; simpl; [reflexivity|].
  destruct e; simpl; rewrite ?IH; reflexivity.
Qed.

Lemma notifications_none ev : Forall notDiscord ev -> notifications ev = [].
Proof.
  induction 1 as [|e ev He _ IH]; simpl; [reflexivity|].
  destruct e; simpl in *; tauto.
Qed.

Lemma isHighPriority_spec c :
  isHighPriority c = true <->
  In c ["Airdrop"; "Launch Alerts"; "Presale"; "Contract Alert"; "Listing";
        "Price Alert"; "Scam Warning"; "Giveaway"; "Signals"; "PnL Sharing"].
Proof.
  unfold isHighPriority. rewrite existsb_exists. split.
  - intros [x [Hin Heq]]. apply String.eqb_eq in Heq. subst x. exact Hin.
  - intros Hin. exists c. split; [exact Hin | apply String.eqb_refl].
Qed.

Lemma branchOnOutcome_notifications W key mkDto analysis s :
  (forall a e n, ia_category (mkDto a e n) = category a) ->
  category analysis <> "not-relevant" ->
  notifications (evOf (branchOnOutcome W key mkDto analysis s)) =
  [(channelFor (category analysis), category analysis)].
Proof.
  intros Hcat Hne. unfold branchOnOutcome.
  set (E := if negb (Nat.eqb (List.length (contracts analysis)) 0)
            then enrichContracts W (contracts analysis) else ret []).
  assert (HE : exists l, resOf (E s) = Ok l /\ stOf (E s) = s).
  { unfold E. destruct (negb _); [apply enrichContracts_state | exists []; auto]. }
  assert (HN : Forall notDiscord (evOf (E s))).
  { unfold E. destruct (negb _); [|constructor].
    apply enrichContracts_trace. intros; exact I. }
  destruct HE as [l [Hl Hs]].
  unfold bind at 1. destruct (E s) as [[r s1] ev1].
  unfold resOf, stOf, evOf in Hl, Hs, HN. simpl in Hl, Hs, HN. subst r s1.
  apply String.eqb_neq in Hne. rewrite Hne.
  unfold bind at 1. unfold now.
  set (dto := mkDto analysis l (clock s)).
  assert (Hdto : ia_category dto = category analysis) by apply Hcat.
  unfold bind at 1. unfold switchChannel, channelFor. rewrite Hdto.
  unfold Category.NotRelevant. rewrite Hne.
  destruct (isHighPriority (category analysis));
    unfold negb, sendToDiscord, emit, bind, tryCatch, ret, TweetsIA_save;
    destruct (validTweetIA dto);
    try destruct (existsb (iaHasId (ia_tweetId dto)) (tweetsIA s));
    unfold evOf; simpl; rewrite notifications_app, (notifications_none HN);
    simpl; rewrite Hdto; reflexivity.
Qed.

(** C6. A classified post whose category is not the discarded one is sent
    to exactly one channel: to "alerts" when the category is one of the ten
    high-priority categories and to "general" otherwise.  This holds of the
    shared outcome branch, and of every notification that [processTweet]
    and [retryFailedAI] send. *)
Theorem category_routing (W : World) (key : option string)
        (mkDto : Analysis -> list EnrichedData -> Z -> TweetIA)
        (analysis : Analysis) (t : Tweet) (limit : nat) (s : State) :
  (forall a e n, ia_category (mkDto a e n) = category a) ->
  category analysis <> "not-relevant" ->
  let hp := ["Airdrop"; "Launch Alerts"; "Presale"; "Contract Alert"; "Listing";
             "Price Alert"; "Scam Warning"; "Giveaway"; "Signals"; "PnL Sharing"] in
  let sent := notifications (evOf (branchOnOutcome W key mkDto analysis s)) in
  (In (category analysis) hp -> sent = [(alerts, category analysis)]) /\
  (~ In (category analysis) hp -> sent = [(general, category analysis)]) /\
  (forall ch c, In (ch, c) (notifications (evOf (processTweet W t s))) ->
                c <> "not-relevant" /\ (In c hp -> ch = alerts) /\ (~ In c hp -> ch = general)) /\
  (forall ch c, In (ch, c) (notifications (evOf (retryFailedAI W limit s))) ->
                c <> "not-relevant" /\ (In c hp -> ch = alerts) /\ (~ In c hp -> ch = general)).
Proof.
  intros Hcat Hne hp sent.
  assert (Hsent : sent = [(channelFor (category analysis), category analysis)])
    by now apply branchOnOutcome_notifications.
  assert (Hroute : forall ev, Forall routed ev ->
            forall ch c, In (ch, c) (notifications ev) ->
            c <> "not-relevant" /\ (In c hp -> ch = alerts) /\ (~ In c hp -> ch = general)).
  { induction 1 as [|e ev He _ IH]; simpl; [tauto|].
    destruct e; simpl in *; auto.
    intros ch0 c [Heq|Hin]; [|now apply IH].
    inversion Heq; subst. destruct He as [Hch Hnr]. split; [exact Hnr|].
    unfold channelFor in *.
    destruct (isHighPriority (ia_category dto)) eqn:Ehp.
    - split; [auto|]. intros Hn. exfalso. apply Hn. now apply isHighPriority_spec.
    - split; [|auto]. intros Hin. apply isHighPriority_spec in Hin. congruence. }
  split; [|split; [|split]].
  - intros Hin. rewrite Hsent. unfold channelFor.
    apply isHighPriority_spec in Hin. now rewrite Hin.
  - intros Hn. rewrite Hsent. unfold channelFor.
    destruct (isHighPriority (category analysis)) eqn:Ehp; [|reflexivity].
    exfalso. apply Hn. now apply isHighPriority_spec.
  - apply Hroute. apply processTweet_routed.
  - apply Hroute. apply retryFailedAI_routed.
Qed.

Lemma category_routing_witness :
  ((forall a e n, ia_category (dtoOfTweet (Sample.answering Sample.contractAlert 100)
                                          Sample.candidate a e n) = category a) /\
   category Sample.contractAlert <> "not-relevant") /\
  notifications
    (evOf (branchOnOutcome (Sample.answering Sample.contractAlert 100)
                           (Some "/user/status/1")
                           (dtoOfTweet (Sample.answering Sample.contractAlert 100)
                                       Sample.candidate)
                           Sample.contractAlert Sample.emptyState))
  = [(alerts, "Contract Alert")].
Proof.
  assert (H1 : forall a e n,
             ia_category (dtoOfTweet (Sample.answering Sample.contractAlert 100)
                                     Sample.candidate a e n) = category a)
    by (intros; reflexivity).
  assert (H2 : category Sample.contractAlert <> "not-relevant") by discriminate.
  split; [auto|].
  refine (proj1 (@category_routing (Sample.answering Sample.contractAlert 100)
                   (Some "/user/status/1")
                   (dtoOfTweet (Sample.answering Sample.contractAlert 100) Sample.candidate)
                   Sample.contractAlert Sample.candidate 5 Sample.emptyState H1 H2) _).
  simpl. tauto.
Defined.

(* ================================================================== *)
(** * The classifier and the rate gate, step by step *)

Lemma contentPartsOf_text_only W input :
  Js.truthy (in_mediaUrl input) = false \/ Js.truthy (in_mimeType input) = false \/
  (exists url, in_mediaUrl input = Some url /\ urlToBase64 W url = "") ->
  contentPartsOf W input = [PText (aiPrompt (in_text input))].
Proof.
  unfold contentPartsOf.
  destruct (in_mediaUrl input) as [m|]; [|reflexivity].
  destruct (in_mimeType input) as [mt|]; [|reflexivity].
  intros [H|[H|[url [Hu Hb]]]].
  - rewrite H. reflexivity.
  - rewrite H. rewrite andb_false_r. reflexivity.
  - inversion Hu; subst. rewrite Hb. simpl.
    destruct (_ && _); reflexivity.
Qed.

Lemma classifyTweet_swallows_error W input s e latency :
  Js.truthy (Some (in_text input)) = true ->
  service W (clock s) (contentPartsOf W input) = (SvcError e, latency) ->
  classifyTweet W input s =
  (Ok notRelevant, setClock (clock s + Z.of_nat latency) s,
   [EvAICall (clock s) (contentPartsOf W input)]).
Proof.
  intros Ht Hs. unfold classifyTweet. rewrite Ht. simpl.
  unfold tryCatch, generateAndParse. rewrite Hs. reflexivity.
Qed.

Lemma classification_exact W input retries delay ms fallback s a s1 ev :
  classifyTweet W input s = (Ok a, s1, ev) ->
  clock s1 - clock s < ms ->
  withTimeout (retryWithBackoff (classifyTweet W input) retries delay) ms fallback s
  = (Ok a, s1, ev).
Proof.
  intros H Hlt. unfold withTimeout.
  rewrite retryWithBackoff_total by apply total_classifyTweet.
  rewrite H. apply Z.lt_le_incl, Z.leb_le in Hlt. now rewrite Hlt.
Qed.

Lemma bind_eq A B (m : M A) (k : A -> M B) s a s1 ev1 r s2 ev2 :
  m s = (Ok a, s1, ev1) -> k a s1 = (r, s2, ev2) ->
  bind m k s = (r, s2, ev1 ++ ev2).
Proof. intros H1 H2. unfold bind. now rewrite H1, H2. Qed.

(** The rate gate: wait until [lastAICallTime + AI_CALL_INTERVAL]. *)
Lemma rateGate_eq s :
  let timeToWait := Z.max 0 (lastAICallTime s + AI_CALL_INTERVAL - clock s) in
  (if 0 <? timeToWait then sleep timeToWait else ret tt) s =
  (Ok tt, setClock (Z.max (clock s) (lastAICallTime s + AI_CALL_INTERVAL)) s, []).
Proof.
  destruct s as [ps ia c l]. simpl.
  destruct (0 <? Z.max 0 (l + AI_CALL_INTERVAL - c)) eqn:E.
  - apply Z.ltb_lt in E. unfold sleep, setClock. simpl.
    replace (c + Z.max 0 (l + AI_CALL_INTERVAL - c)) with (Z.max c (l + AI_CALL_INTERVAL)) by lia.
    reflexivity.
  - apply Z.ltb_ge in E. unfold ret, setClock. simpl.
    replace (Z.max c (l + AI_CALL_INTERVAL)) with c by lia.
    reflexivity.
Qed.

Lemma processTweet_failed_call W t s p e latency :
  existing t s = None ->
  validatePost (newPost W (clock s) t) = Some p ->
  Js.truthy (tw_text t) = true ->
  let callTime := Z.max (clock s) (lastAICallTime s + AI_CALL_INTERVAL) in
  let input := {| in_text := Js.orStr (tw_text t) "";
                  in_mediaUrl := tw_mediaUrl t;
                  in_mimeType := Some "image/jpeg" |} in
  service W callTime (contentPartsOf W input) = (SvcError e, latency) ->
  Z.of_nat latency < 20000 ->
  processTweet W t s =
  (Ok tt,
   {| posts := posts s ++ [withStatus discarded p]; tweetsIA := tweetsIA s;
      clock := callTime + Z.of_nat latency; lastAICallTime := callTime |},
   [EvPostSave (tweetId p); EvAICall callTime (contentPartsOf W input);
    EvPostUpdate (Some (tweetId p)) discarded]).
Proof.
  intros Hex Hv Htext callTime input Hsvc Hlat.
  destruct (@validatePost_Some _ _ Hv) as [Hurl [_ Hst]]. simpl in Hurl.
  assert (Hlook : lookupPost (tweetId p) (posts s) = None).
  { unfold existing in Hex. now rewrite Hurl in Hex. }
  assert (Hin : Js.truthy (Some (Js.orStr (tw_text t) "")) = true).
  { clear -Htext. destruct (tw_text t) as [x|]; simpl in *; [|discriminate].
    destruct (x =? "")%string eqn:E; simpl in *; [discriminate|]. now rewrite E. }
  unfold processTweet. apply tryCatch_ok.
  change [EvPostSave (tweetId p); EvAICall callTime (contentPartsOf W input);
          EvPostUpdate (Some (tweetId p)) discarded]
    with ([] ++ [] ++ [EvPostSave (tweetId p)] ++ [] ++ [] ++ [] ++ [] ++
          [EvAICall callTime (contentPartsOf W input)] ++
          [EvPostUpdate (Some (tweetId p)) discarded]).
  eapply bind_eq.
  { unfold Post_findOne. unfold existing in Hex. rewrite Hex. reflexivity. }
  cbv beta iota.
  eapply bind_eq; [reflexivity|]. cbv beta.
  eapply bind_eq.
  { unfold Post_save. rewrite Hv.
    replace (existsb (hasId (tweetId p)) (posts s)) with false
      by (symmetry; now apply lookupPost_existsb).
    reflexivity. }
  eapply bind_eq; [reflexivity|]. cbv beta.
  eapply bind_eq; [apply rateGate_eq|].
  eapply bind_eq; [reflexivity|]. cbv beta.
  eapply bind_eq; [reflexivity|].
  eapply bind_eq.
  { unfold aiLimiter. eapply classification_exact.
    - eapply classifyTweet_swallows_error with (e := e) (latency := latency).
      + exact Hin.
      + simpl. exact Hsvc.
    - simpl. fold callTime. lia. }
  simpl. rewrite Hurl. unfold setPosts, setClock, setLastAICallTime. simpl.
  unfold branchOnOutcome, bind, Post_findOneAndUpdate, ret. simpl.
  rewrite (@updateFirst_app_fresh (tweetId p) discarded (posts s) p Hlook eq_refl).
  reflexivity.
Qed.

(** C10. With an empty text and no usable media part (no media URL, no
    MIME type, or a download that yields the empty string),
    [classifyTweet] returns the not-relevant classification and does not
    call the AI service: the trace is empty and the state, clock included,
    is unchanged. *)
Theorem classifyTweet_empty_skips_service (W : World) (input : ClassificationInput) (s : State) :
  in_text input = "" ->
  (Js.truthy (in_mediaUrl input) = false \/ Js.truthy (in_mimeType input) = false \/
   exists url, in_mediaUrl input = Some url /\ urlToBase64 W url = "") ->
  classifyTweet W input s = (Ok notRelevant, s, []) /\
  aiCallTimes (evOf (classifyTweet W input s)) = [].
Proof.
  intros Ht Hm.
  assert (H : classifyTweet W input s = (Ok notRelevant, s, [])).
  { unfold classifyTweet.
    rewrite (@contentPartsOf_text_only W input Hm), Ht. reflexivity. }
  rewrite H. split; reflexivity.
Qed.

Lemma classifyTweet_empty_skips_service_witness :
  (in_text {| in_text := ""; in_mediaUrl := Some "https://pbs.twimg.com/media/a.jpg";
              in_mimeType := Some "image/jpeg" |} = "" /\
   (Js.truthy (Some "https://pbs.twimg.com/media/a.jpg") = false \/
    Js.truthy (Some "image/jpeg") = false \/
    exists url, Some "https://pbs.twimg.com/media/a.jpg" = Some url /\
                urlToBase64 (Sample.answering Sample.contractAlert 100) url = "")) /\
  classifyTweet (Sample.answering Sample.contractAlert 100)
                {| in_text := ""; in_mediaUrl := Some "https://pbs.twimg.com/media/a.jpg";
                   in_mimeType := Some "image/jpeg" |}
                Sample.emptyState
  = (Ok notRelevant, Sample.emptyState, []).
Proof.
  assert (H1 : in_text {| in_text := ""; in_mediaUrl := Some "https://pbs.twimg.com/media/a.jpg";
                          in_mimeType := Some "image/jpeg" |} = "") by reflexivity.
  assert (H2 : Js.truthy (Some "https://pbs.twimg.com/media/a.jpg") = false \/
               Js.truthy (Some "image/jpeg") = false \/
               exists url, Some "https://pbs.twimg.com/media/a.jpg" = Some url /\
                           urlToBase64 (Sample.answering Sample.contractAlert 100) url = "").
  { right. right. exists "https://pbs.twimg.com/media/a.jpg". split; reflexivity. }
  split; [auto|].
  exact (proj1 (@classifyTweet_empty_skips_service
                  (Sample.answering Sample.contractAlert 100)
                  {| in_text := ""; in_mediaUrl := Some "https://pbs.twimg.com/media/a.jpg";
                     in_mimeType := Some "image/jpeg" |}
                  Sample.emptyState H1 H2)).
Defined.

(* ================================================================== *)
(** * A classification call that fails *)

(** C3, what the code does.  When the request to the AI service is
    rejected, with whatever error (the status 503 included), and within
    the timeout, [classifyTweet] itself catches the error and answers
    "not-relevant": the call is made once, nothing is retried, and the
    pipeline marks the raw post [discarded], not [unprocessed]; no
    classified post is stored and no notification is sent. *)
Theorem failed_classification_discards (W : World) (t : Tweet) (s : State)
        (p : RawPost) (e : Err) (latency : nat) :
  existing t s = None ->
  validatePost (newPost W (clock s) t) = Some p ->
  Js.truthy (tw_text t) = true ->
  service W (Z.max (clock s) (lastAICallTime s + AI_CALL_INTERVAL))
          (contentPartsOf W {| in_text := Js.orStr (tw_text t) "";
                               in_mediaUrl := tw_mediaUrl t;
                               in_mimeType := Some "image/jpeg" |})
  = (SvcError e, latency) ->
  Z.of_nat latency < 20000 ->
  statusOf (tweetId p) (stOf (processTweet W t s)) = Some discarded /\
  aiCallTimes (evOf (processTweet W t s))
  = [Z.max (clock s) (lastAICallTime s + AI_CALL_INTERVAL)] /\
  notifications (evOf (processTweet W t s)) = [] /\
  tweetsIA (stOf (processTweet W t s)) = tweetsIA s.
Proof.
  intros Hex Hv Htext Hsvc Hlat.
  rewrite (@processTweet_failed_call W t s p e latency Hex Hv Htext Hsvc Hlat).
  destruct (@validatePost_Some _ _ Hv) as [Hurl _]. simpl in Hurl.
  assert (Hlook : lookupPost (tweetId p) (posts s) = None).
  { unfold existing in Hex. now rewrite Hurl in Hex. }
  unfold statusOf, stOf, evOf. simpl.
  rewrite (@lookupPost_app_r (tweetId p) (posts s) _ Hlook).
  unfold lookupPost, hasId. simpl. rewrite String.eqb_refl. auto.
Qed.

Lemma failed_classification_discards_witness :
  (existing Sample.candidate Sample.emptyState = None /\
   validatePost (newPost (Sample.failing 500 100) (clock Sample.emptyState) Sample.candidate)
   = Some {| tweetId := "/user/status/1"; username := "user";
             text := Some "check CA: 7xKXtg...pump"; timestamp := 1735689600000;
             mediaUrl := None; status := unprocessed; scrapedFor := feed |} /\
   Js.truthy (tw_text Sample.candidate) = true /\
   Z.of_nat 100 < 20000) /\
  statusOf "/user/status/1"
           (stOf (processTweet (Sample.failing 500 100) Sample.candidate Sample.emptyState))
  = Some discarded.
Proof.
  assert (H1 : existing Sample.candidate Sample.emptyState = None) by reflexivity.
  assert (H2 : validatePost (newPost (Sample.failing 500 100) (clock Sample.emptyState)
                                     Sample.candidate)
               = Some {| tweetId := "/user/status/1"; username := "user";
                         text := Some "check CA: 7xKXtg...pump"; timestamp := 1735689600000;
                         mediaUrl := None; status := unprocessed; scrapedFor := feed |})
    by reflexivity.
  assert (H3 : Js.truthy (tw_text Sample.candidate) = true) by reflexivity.
  assert (H4 : Z.of_nat 100 < 20000) by (vm_compute; reflexivity).
  split; [auto|].
  exact (proj1 (@failed_classification_discards (Sample.failing 500 100) Sample.candidate
                  Sample.emptyState _ (ErrStatus 500) 100%nat H1 H2 H3 eq_refl H4)).
Defined.

(* ================================================================== *)
(** * The recovery sweep: early return and missing rate gate *)

(** The batch is bounded by the limit and holds [unprocessed] posts only,
    and the sweep inserts no raw post: the identifiers in the store are the
    same before and after. *)
Lemma retryFailedAI_batch W limit s :
  uniqueIds s -> uniqueIA s ->
  (List.length (firstn limit (filter isUnprocessed (posts s))) <= limit)%nat /\
  (List.length (retried (evOf (retryFailedAI W limit s))) <= limit)%nat.
Proof.
  intros Hu Hi. destruct (@pending_ok s limit Hu) as [_ [_ Hlen]].
  split; [exact Hlen|].
  destruct (@retryFailedAI_inv W limit s Hu Hi) as [s' [ev [H [_ [_ [_ [rest Hr]]]]]]].
  rewrite H. unfold evOf. simpl.
  assert (Hl : List.length (map tweetId (firstn limit (filter isUnprocessed (posts s))))
               = List.length (retried ev ++ rest)) by now rewrite Hr.
  rewrite length_map, length_app in Hl. lia.
Qed.

(** The sweep inserts no raw post and deletes none. *)
Lemma retryLoop_ids W pending :
  forall s, map tweetId (posts (stOf (retryLoop W pending s))) = map tweetId (posts s).
Proof.
  induction pending as [|t rest IH]; intros s; simpl; [reflexivity|].
  destruct (retryOne_step W t s) as [b [s1 [ev1 [H1 [_ [Hps _]]]]]].
  assert (Hids : map tweetId (posts s1) = map tweetId (posts s)).
  { destruct Hps as [H | [st [_ H]]]; rewrite H; [reflexivity | apply updateFirst_ids]. }
  unfold bind. rewrite H1. destruct b.
  - unfold stOf. simpl. exact Hids.
  - specialize (IH s1). destruct (retryLoop W rest s1) as [[r s2] ev2].
    unfold stOf in *. simpl in *. congruence.
Qed.

Lemma retryFailedAI_ids W limit s :
  map tweetId (posts (stOf (retryFailedAI W limit s))) = map tweetId (posts s).
Proof.
  unfold retryFailedAI, bind, Post_find_unprocessed.
  pose proof (retryLoop_ids W (firstn limit (filter isUnprocessed (posts s))) s) as H.
  destruct (retryLoop W (firstn limit (filter isUnprocessed (posts s))) s) as [[r s2] ev2].
  exact H.
Qed.

(** Once an iteration executes [return], the posts after it in the batch
    are not re-classified. *)
Lemma retryLoop_returns W t rest s :
  resOf (retryOne W t s) = Ok true ->
  retried (evOf (retryLoop W (t :: rest) s)) = [tweetId t].
Proof.
  intros H. destruct (retryOne_step W t s) as [b [s1 [ev1 [H1 [Hnr _]]]]].
  rewrite H1 in H. unfold resOf in H. simpl in H. inversion H; subst b.
  simpl. unfold bind. rewrite H1. unfold evOf. simpl.
  rewrite retried_app, (retried_none Hnr). reflexivity.
Qed.

(** C7, what the code does.  The sweep fetches at most [limit] posts, all
    [unprocessed], and inserts no raw post; but an iteration that discards
    its post executes [return] and ends the sweep.  With two [unprocessed]
    posts in the store and a classifier that finds the first one not
    relevant, the sweep fetches both, discards the first and returns: the
    second post of the batch is never re-classified and stays
    [unprocessed]. *)
Theorem sweep_returns_after_discard :
  (forall W limit s,
      uniqueIds s -> uniqueIA s ->
      (List.length (retried (evOf (retryFailedAI W limit s))) <= limit)%nat /\
      map tweetId (posts (stOf (retryFailedAI W limit s))) = map tweetId (posts s)) /\
  (forall W t rest s,
      resOf (retryOne W t s) = Ok true ->
      retried (evOf (retryLoop W (t :: rest) s)) = [tweetId t]) /\
  let W := Sample.answering notRelevant 100 in
  let r := retryFailedAI W 5 Sample.backlog in
  map tweetId (firstn 5 (filter isUnprocessed (posts Sample.backlog)))
  = ["/user/status/1"; "/user/status/2"] /\
  retried (evOf r) = ["/user/status/1"] /\
  List.length (aiCallTimes (evOf r)) = 1%nat /\
  statusOf "/user/status/1" (stOf r) = Some discarded /\
  statusOf "/user/status/2" (stOf r) = Some unprocessed.
Proof.
  split; [|split].
  - intros W limit s Hu Hi. split.
    + apply (@retryFailedAI_batch W limit s Hu Hi).
    + apply retryFailedAI_ids.
  - exact retryLoop_returns.
  - vm_compute. repeat split; reflexivity.
Qed.

Lemma sweep_returns_after_discard_witness :
  (uniqueIds Sample.backlog /\ uniqueIA Sample.backlog /\
   resOf (retryOne (Sample.answering notRelevant 100) (Sample.stuck "/user/status/1")
                   Sample.backlog) = Ok true) /\
  (List.length (retried (evOf (retryFailedAI (Sample.answering notRelevant 100) 5
                                             Sample.backlog))) <= 5)%nat /\
  retried (evOf (retryLoop (Sample.answering notRelevant 100)
                           [Sample.stuck "/user/status/1"; Sample.stuck "/user/status/2"]
                           Sample.backlog))
  = ["/user/status/1"].
Proof.
  assert (H1 : uniqueIds Sample.backlog).
  { unfold uniqueIds. simpl. constructor.
    - simpl. intros [H|[]]. discriminate H.
    - constructor; [simpl; tauto | constructor]. }
  assert (H2 : uniqueIA Sample.backlog) by constructor.
  assert (H3 : resOf (retryOne (Sample.answering notRelevant 100)
                               (Sample.stuck "/user/status/1") Sample.backlog) = Ok true)
    by reflexivity.
  split; [auto|]. split.
  - exact (proj1 (proj1 sweep_returns_after_discard
                        (Sample.answering notRelevant 100) 5%nat Sample.backlog H1 H2)).
  - exact (proj1 (proj2 sweep_returns_after_discard)
                 (Sample.answering notRelevant 100) (Sample.stuck "/user/status/1")
                 [Sample.stuck "/user/status/2"] Sample.backlog H3).
Defined.

(* ================================================================== *)
(** * The market figures of an embed *)











(* ================================================================== *)
(** * The session check *)

(** C4. With stored credentials and a browser that carries out the check
    without an exception, the check has three outcomes: 'premium' when the
    subscribe link is on the page, [false] when it is not and the login
    link is, [true] when neither is.  On 'premium' the session manager
    returns 'premium' and does not call [handleLogin]. *)
Theorem session_check_outcomes (W : Session.SessWorld) (s : Session.SessState)
        (c : Session.Credentials) :
  Session.isLoggingIn s = false ->
  Session.credentialsFile W = Some c ->
  Js.truthy (Some (Session.auth_token c)) = true ->
  Session.browserInstance s <> None \/ Session.launchOk W = true ->
  Session.reachesHome (Session.probe W) = true ->
  Session.browserCloseOk (Session.probe W) = true ->
  Session.teardownOk (Session.probe W) = true ->
  let pr := Session.probe W in
  fst (Session.checkAndInjectCredentials pr (Some c))
  = (if Session.subscribeButton pr then Session.CkPremium
     else if Session.loggedOut pr then Session.CkFalse
     else Session.CkTrue) /\
  (Session.subscribeButton pr = true ->
   fst (fst (Session.setupPersistentBrowser W s)) = Session.RPremium /\
   ~ In Session.SevLogin (snd (Session.setupPersistentBrowser W s))) /\
  (Session.subscribeButton pr = false -> Session.loggedOut pr = false ->
   ~ In Session.SevLogin (snd (Session.setupPersistentBrowser W s))).
Proof.
  intros Hlog Hfile Htok Hbrowser Hhome Hclose Htear pr.
  assert (Hcheck : Session.checkAndInjectCredentials pr (Some c)
                   = (if Session.subscribeButton pr
                      then (Session.CkPremium, [Session.SevClose])
                      else if Session.loggedOut pr then (Session.CkFalse, [])
                           else (Session.CkTrue, []))).
  { unfold Session.checkAndInjectCredentials, pr.
    rewrite Hhome, Hclose, Htear. simpl.
    destruct (Session.subscribeButton (Session.probe W)); [reflexivity|].
    destruct (Session.loggedOut (Session.probe W)); reflexivity. }
  split; [|split].
  - rewrite Hcheck. destruct (Session.subscribeButton pr); [reflexivity|].
    destruct (Session.loggedOut pr); reflexivity.
  - intros Hsub. unfold Session.setupPersistentBrowser.
    rewrite Hlog, Hfile, Htok. fold pr. rewrite Hcheck, Hsub.
    destruct (Session.browserInstance s) as [b|]; simpl.
    + split; [reflexivity|]. intros [H|[]]; discriminate.
    + destruct Hbrowser as [H|H]; [congruence|]. rewrite H. simpl.
      split; [reflexivity|]. intros [H0|[H0|[]]]; discriminate.
  - intros Hsub Hout. unfold Session.setupPersistentBrowser.
    rewrite Hlog, Hfile, Htok. fold pr. rewrite Hcheck, Hsub, Hout.
    destruct (Session.browserInstance s) as [b|]; simpl.
    + tauto.
    + destruct Hbrowser as [H|H]; [congruence|]. rewrite H. simpl.
      intros [H0|[]]; discriminate.
Qed.

(* ================================================================== *)
(** * The rotation cursor *)

(** The deep scan returns normally whenever closing the page does. *)
Lemma processUserAndMentions_returns T user s :
  (Scheduler.newPageOk T = true -> Scheduler.pageCloseOk T = true) ->
  resOf (Scheduler.processUserAndMentions T user s) = Ok tt.
Proof.
  intros Hclose.
  assert (Ht : total (Scheduler.processUserAndMentions T user)).
  { unfold Scheduler.processUserAndMentions.
    apply total_bind; [apply total_tryCatch; intros e; apply total_ret|].
    intros _. apply total_bind; [apply total_tryCatch; intros e; apply total_ret|].
    intros _. destruct (Scheduler.newPageOk T); [|apply total_ret].
    rewrite Hclose by reflexivity. apply total_ret. }
  destruct (Ht s) as [[] H]. exact H.
Qed.

Lemma scanned_app ev1 ev2 :
  Scheduler.scanned (ev1 ++ ev2) = Scheduler.scanned ev1 ++ Scheduler.scanned ev2.
Proof.
  induction ev1 as [|e ev1 IH]; simpl; [reflexivity|].
  destruct e; simpl; rewrite ?IH; reflexivity.
Qed.

Lemma scanned_pipeline ev : Scheduler.scanned (map Scheduler.TePipeline ev) = [].
Proof. induction ev as [|e ev IH]; simpl; auto. Qed.

Lemma userAt_Some us i :
  0 <= i < Z.of_nat (List.length us) -> exists u, Scheduler.userAt us i = Some u.
Proof.
  intros [H0 H1]. unfold Scheduler.userAt.
  replace (i <? 0) with false by (symmetry; apply Z.ltb_ge; lia).
  destruct (nth_error us (Z.to_nat i)) as [u|] eqn:E; [eauto|].
  apply nth_error_None in E. lia.
Qed.

(** One tick: the account under the cursor is scanned and the cursor moves
    by one, whatever the scan did. *)
Lemma tick_advances T s u :
  (Scheduler.newPageOk T = true -> Scheduler.pageCloseOk T = true) ->
  Scheduler.userAt (Scheduler.users T) (Scheduler.cursor s) = Some u ->
  Scheduler.cursor (fst (Scheduler.tick T s))
  = (Scheduler.cursor s + 1) mod Z.of_nat (List.length (Scheduler.users T)) /\
  Scheduler.scanned (snd (Scheduler.tick T s)) = [Scheduler.u_username u].
Proof.
  intros Hclose Hu. unfold Scheduler.tick.
  assert (Hpos : (0 < List.length (Scheduler.users T))%nat).
  { unfold Scheduler.userAt in Hu. destruct (Scheduler.cursor s <? 0); [discriminate|].
    destruct (Scheduler.users T); [|simpl; lia].
    destruct (Z.to_nat (Scheduler.cursor s)); discriminate. }
  assert (Hc0 : 0 <= Scheduler.cursor s).
  { unfold Scheduler.userAt in Hu.
    destruct (Scheduler.cursor s <? 0) eqn:E; [discriminate|]. now apply Z.ltb_ge. }
  replace (Nat.eqb (List.length (Scheduler.users T)) 0) with false
    by (symmetry; apply Nat.eqb_neq; lia).
  fold (Scheduler.cursor s). rewrite Hu.
  pose proof (@processUserAndMentions_returns T u (Scheduler.pipeline s) Hclose) as Hr.
  destruct (Scheduler.processUserAndMentions T u (Scheduler.pipeline s)) as [[r p] ev].
  unfold resOf in Hr. simpl in Hr. subst r. simpl. split.
  - apply Z.rem_mod_nonneg; lia.
  - rewrite scanned_app, scanned_pipeline. reflexivity.
Qed.

Lemma mod_rotate c i n :
  0 <= c < n -> 0 <= i < n ->
  ((c + i) mod n = c + i /\ c + i < n) \/ ((c + i) mod n = c + i - n /\ n <= c + i).
Proof.
  intros Hc Hi. destruct (Z_lt_le_dec (c + i) n) as [H|H].
  - left. split; [apply Z.mod_small; lia | exact H].
  - right. split; [|exact H].
    assert (E : (c + i) mod n = (c + i - n) mod n).
    { rewrite <- (Z_mod_plus_full (c + i - n) 1 n). f_equal. lia. }
    rewrite E. apply Z.mod_small. lia.
Qed.

Lemma ticks_visits (us : list Scheduler.User) (Ts : list Scheduler.TickWorld) :
  forall s,
    (forall T, In T Ts ->
               Scheduler.users T = us /\
               (Scheduler.newPageOk T = true -> Scheduler.pageCloseOk T = true)) ->
    0 <= Scheduler.cursor s < Z.of_nat (List.length us) ->
    Scheduler.cursor (fst (Scheduler.ticks Ts s))
    = (Scheduler.cursor s + Z.of_nat (List.length Ts)) mod Z.of_nat (List.length us) /\
    Scheduler.scanned (snd (Scheduler.ticks Ts s))
    = map (fun i => Scheduler.nameAt us
                      ((Scheduler.cursor s + Z.of_nat i) mod Z.of_nat (List.length us)))
          (seq 0 (List.length Ts)).
Proof.
  set (n := Z.of_nat (List.length us)).
  induction Ts as [|T rest IH]; intros s Hall Hc.
  - simpl. rewrite Z.add_0_r. split; [|reflexivity].
    symmetry. apply Z.mod_small. exact Hc.
  - destruct (Hall T (or_introl eq_refl)) as [Hus Hclose].
    destruct (@userAt_Some us (Scheduler.cursor s) Hc) as [u Hu].
    rewrite <- Hus in Hu.
    destruct (@tick_advances T s u Hclose Hu) as [Hcur Hscan].
    rewrite Hus in Hcur, Hu. fold n in Hcur.
    simpl Scheduler.ticks.
    destruct (Scheduler.tick T s) as [s1 ev1]. simpl in Hcur, Hscan.
    assert (Hc1 : 0 <= Scheduler.cursor s1 < n).
    { rewrite Hcur. apply Z.mod_pos_bound. lia. }
    destruct (IH s1 (fun T' H' => Hall T' (or_intror H')) Hc1) as [Hcur2 Hscan2].
    destruct (Scheduler.ticks rest s1) as [s2 ev2]. simpl in Hcur2, Hscan2 |- *.
    split.
    + rewrite Hcur2, Hcur. rewrite Zplus_mod_idemp_l. f_equal. lia.
    + rewrite scanned_app, Hscan, Hscan2. simpl. f_equal.
      * unfold Scheduler.nameAt. rewrite Z.add_0_r, Z.mod_small by exact Hc.
        now rewrite Hu.
      * rewrite <- seq_shift, map_map. apply map_ext. intros i.
        rewrite Hcur, Zplus_mod_idemp_l. do 2 f_equal. lia.
Qed.

Lemma NoDup_map_inj_on (A B : Type) (f : A -> B) (l : list A) :
  (forall x y, In x l -> In y l -> f x = f y -> x = y) ->
  NoDup l -> NoDup (map f l).
Proof.
  induction l as [|a l IH]; simpl; intros Hinj Hnd; [constructor|].
  inversion Hnd as [|? ? Ha Hl]; subst. constructor.
  - intros Hin. apply in_map_iff in Hin. destruct Hin as [y [Hy Hin]].
    apply Ha. rewrite (Hinj a y); auto.
  - apply IH; auto.
Qed.

(** Reading the accounts at the offsets [c, c+1, ...] modulo their number
    reads each position once. *)
Lemma rotation_permutation (k : nat) (c : Z) :
  0 <= c < Z.of_nat k ->
  Permutation (map (fun i => Z.to_nat ((c + Z.of_nat i) mod Z.of_nat k)) (seq 0 k))
              (seq 0 k).
Proof.
  intros Hc. apply NoDup_Permutation_bis.
  - apply NoDup_map_inj_on; [|apply seq_NoDup].
    intros x y Hx Hy Heq. apply in_seq in Hx, Hy.
    destruct (@mod_rotate c (Z.of_nat x) (Z.of_nat k)) as [[E1 B1]|[E1 B1]]; [lia|lia| |];
      destruct (@mod_rotate c (Z.of_nat y) (Z.of_nat k)) as [[E2 B2]|[E2 B2]]; try lia;
      rewrite E1, E2 in Heq; lia.
  - rewrite length_map. lia.
  - intros j Hj. apply in_map_iff in Hj. destruct Hj as [i [Hi Hin]].
    apply in_seq in Hin. apply in_seq.
    pose proof (Z.mod_pos_bound (c + Z.of_nat i) (Z.of_nat k)). lia.
Qed.

Lemma names_of_positions (us : list Scheduler.User) :
  map (fun j => Scheduler.nameAt us (Z.of_nat j)) (seq 0 (List.length us))
  = map Scheduler.u_username us.
Proof.
  assert (H : forall j, Scheduler.nameAt us (Z.of_nat j)
                        = match nth_error us j with
                          | Some u => Scheduler.u_username u
                          | None => ""
                          end).
  { intros j. unfold Scheduler.nameAt, Scheduler.userAt.
    replace (Z.of_nat j <? 0) with false by (symmetry; apply Z.ltb_ge; lia).
    now rewrite Nat2Z.id. }
  rewrite (map_ext _ _ H). clear H.
  induction us as [|u us IH]; simpl; [reflexivity|].
  f_equal. rewrite <- seq_shift, map_map. simpl. exact IH.
Qed.

Lemma processUserAndMentions_close_throws T user s :
  Scheduler.newPageOk T = true -> Scheduler.pageCloseOk T = false ->
  resOf (Scheduler.processUserAndMentions T user s) = Throw (ErrOther "page.close").
Proof.
  intros Hnew Hclose. unfold Scheduler.processUserAndMentions.
  rewrite Hnew, Hclose.
  match goal with
  | |- resOf (bind ?m1 (fun _ => bind ?m2 _) s) = _ => set (a := m1); set (b := m2)
  end.
  assert (H1 : total a) by (apply total_tryCatch; intros e; apply total_ret).
  assert (H2 : total b) by (apply total_tryCatch; intros e; apply total_ret).
  unfold bind. destruct (H1 s) as [[] E1]. destruct (a s) as [[r1 s1] ev1].
  unfold resOf in E1. cbn [fst] in E1. subst r1.
  destruct (H2 s1) as [[] E2]. destruct (b s1) as [[r2 s2] ev2].
  unfold resOf in E2. cbn [fst] in E2. subst r2.
  reflexivity.
Qed.

(** One tick whose [page.close()] throws: the account under the cursor is
    scanned and the cursor stays. *)
Lemma tick_stalls T s u :
  Scheduler.newPageOk T = true -> Scheduler.pageCloseOk T = false ->
  Scheduler.userAt (Scheduler.users T) (Scheduler.cursor s) = Some u ->
  Scheduler.cursor (fst (Scheduler.tick T s)) = Scheduler.cursor s /\
  Scheduler.scanned (snd (Scheduler.tick T s)) = [Scheduler.u_username u].
Proof.
  intros Hnew Hclose Hu. unfold Scheduler.tick.
  destruct (Scheduler.users T) as [|u0 us] eqn:Eus.
  - unfold Scheduler.userAt in Hu. destruct (Scheduler.cursor s <? 0); [discriminate|].
    destruct (Z.to_nat (Scheduler.cursor s)); discriminate.
  - cbn [List.length Nat.eqb]. fold (Scheduler.cursor s). rewrite Hu.
    pose proof (@processUserAndMentions_close_throws T u (Scheduler.pipeline s) Hnew Hclose)
      as Hr.
    destruct (Scheduler.processUserAndMentions T u (Scheduler.pipeline s)) as [[r p] ev].
    unfold resOf in Hr. cbn [fst] in Hr. subst r. cbn [fst snd Scheduler.scanned].
    split; [reflexivity|]. now rewrite scanned_pipeline.
Qed.

Lemma ticks_stall (us : list Scheduler.User) (Ts : list Scheduler.TickWorld) :
  forall s,
    (forall T, In T Ts ->
               Scheduler.users T = us /\
               Scheduler.newPageOk T = true /\ Scheduler.pageCloseOk T = false) ->
    0 <= Scheduler.cursor s < Z.of_nat (List.length us) ->
    Scheduler.cursor (fst (Scheduler.ticks Ts s)) = Scheduler.cursor s /\
    Scheduler.scanned (snd (Scheduler.ticks Ts s))
    = repeat (Scheduler.nameAt us (Scheduler.cursor s)) (List.length Ts).
Proof.
  induction Ts as [|T rest IH]; intros s Hall Hc; [split; reflexivity|].
  destruct (Hall T (or_introl eq_refl)) as [Hus [Hnew Hclose]].
  destruct (@userAt_Some us (Scheduler.cursor s) Hc) as [u Hu].
  assert (Hname : Scheduler.nameAt us (Scheduler.cursor s) = Scheduler.u_username u)
    by (unfold Scheduler.nameAt; now rewrite Hu).
  rewrite <- Hus in Hu.
  destruct (@tick_stalls T s u Hnew Hclose Hu) as [Hcur Hscan].
  simpl Scheduler.ticks.
  destruct (Scheduler.tick T s) as [s1 ev1]. cbn [fst snd] in Hcur, Hscan.
  assert (Hc1 : 0 <= Scheduler.cursor s1 < Z.of_nat (List.length us)) by (now rewrite Hcur).
  destruct (IH s1 (fun T' H' => Hall T' (or_intror H')) Hc1) as [Hcur2 Hscan2].
  destruct (Scheduler.ticks rest s1) as [s2 ev2]. cbn [fst snd] in Hcur2, Hscan2 |- *.
  split; [now rewrite Hcur2|].
  rewrite scanned_app, Hscan, Hscan2, Hcur, Hname. reflexivity.
Qed.

Lemma rotation_visits_all (us : list Scheduler.User) (c : Z) :
  0 <= c < Z.of_nat (List.length us) ->
  Permutation
    (map (fun i => Scheduler.nameAt us ((c + Z.of_nat i) mod Z.of_nat (List.length us)))
         (seq 0 (List.length us)))
    (map Scheduler.u_username us).
Proof.
  intros Hc. rewrite <- names_of_positions.
  rewrite <- (Permutation_map (fun j => Scheduler.nameAt us (Z.of_nat j))
                              (@rotation_permutation (List.length us) c Hc)).
  rewrite map_map. apply Permutation_refl'. apply map_ext_in. intros i _.
  f_equal. rewrite Z2Nat.id; [reflexivity|].
  apply Z.mod_pos_bound. lia.
Qed.

(** C5. Against an unchanged list of N tracked accounts, with the cursor
    in range.  As long as [page.close()] succeeds, every tick scans the
    account under the cursor and moves the cursor by one modulo N, whatever
    the deep scan returned or threw: the cursor stays in [0, N), N ticks
    scan every account exactly once, and tick N+1 scans the account of
    tick 1 again.  But the advancement is not unconditional: while
    [page.close()] throws at the end of the deep scan, the exception leaves
    [processUserAndMentions] through its [finally], the cron callback
    skips the update of the index, and every tick scans the same account
    again with the cursor where it was. *)
Theorem cursor_rotation (us : list Scheduler.User) (Ts : list Scheduler.TickWorld)
        (s : Scheduler.SysState) :
  (forall T, In T Ts -> Scheduler.users T = us) ->
  0 <= Scheduler.cursor s < Z.of_nat (List.length us) ->
  let N := Z.of_nat (List.length us) in
  let visited := Scheduler.scanned (snd (Scheduler.ticks Ts s)) in
  ((forall T, In T Ts -> Scheduler.newPageOk T = true -> Scheduler.pageCloseOk T = true) ->
   Scheduler.cursor (fst (Scheduler.ticks Ts s))
   = (Scheduler.cursor s + Z.of_nat (List.length Ts)) mod N /\
   0 <= Scheduler.cursor (fst (Scheduler.ticks Ts s)) < N /\
   visited = map (fun i => Scheduler.nameAt us ((Scheduler.cursor s + Z.of_nat i) mod N))
                 (seq 0 (List.length Ts)) /\
   (List.length Ts = List.length us ->
    Permutation visited (map Scheduler.u_username us)) /\
   (List.length Ts = S (List.length us) ->
    nth_error visited (List.length us) = nth_error visited 0)) /\
  ((forall T, In T Ts ->
              Scheduler.newPageOk T = true /\ Scheduler.pageCloseOk T = false) ->
   Scheduler.cursor (fst (Scheduler.ticks Ts s)) = Scheduler.cursor s /\
   visited = repeat (Scheduler.nameAt us (Scheduler.cursor s)) (List.length Ts)).
Proof.
  intros Hus Hc N visited. split.
  - intros Hclose.
    destruct (@ticks_visits us Ts s (fun T HT => conj (Hus T HT) (Hclose T HT)) Hc)
      as [Hcur Hvis].
    fold N in Hcur, Hvis. fold visited in Hvis.
    split; [exact Hcur|]. split; [rewrite Hcur; apply Z.mod_pos_bound; lia|].
    split; [exact Hvis|]. split.
    + intros Hlen. rewrite Hvis, Hlen. now apply rotation_visits_all.
    + intros Hlen. rewrite Hvis, Hlen.
      set (f := fun i => Scheduler.nameAt us ((Scheduler.cursor s + Z.of_nat i) mod N)).
      rewrite !nth_error_map.
      rewrite !nth_error_seq.
      replace (Nat.ltb (List.length us) (S (List.length us))) with true
        by (symmetry; apply Nat.ltb_lt; lia).
      simpl. unfold f. do 2 f_equal.
      rewrite Z.add_0_r. unfold N.
      rewrite <- (Z_mod_plus_full (Scheduler.cursor s) 1 (Z.of_nat (List.length us))).
      f_equal. lia.
  - intros Hfail.
    apply (@ticks_stall us Ts s (fun T HT => conj (Hus T HT) (Hfail T HT)) Hc).
Qed.

Lemma cursor_rotation_witness :
  ((forall T, In T (repeat Pages.unclosable 3) -> Scheduler.users T = Sample.seedUsers) /\
   0 <= Scheduler.cursor Sample.freshSystem < Z.of_nat (List.length Sample.seedUsers) /\
   (forall T, In T (repeat Pages.unclosable 3) ->
              Scheduler.newPageOk T = true /\ Scheduler.pageCloseOk T = false)) /\
  Scheduler.scanned (snd (Scheduler.ticks (repeat Pages.unclosable 3) Sample.freshSystem))
  = ["solana"; "solana"; "solana"] /\
  Scheduler.cursor (fst (Scheduler.ticks (repeat Pages.unclosable 3) Sample.freshSystem)) = 0.
Proof.
  assert (H1 : forall T, In T (repeat Pages.unclosable 3) ->
                         Scheduler.users T = Sample.seedUsers).
  { intros T HT. apply repeat_spec in HT. subst T. reflexivity. }
  assert (H2 : 0 <= Scheduler.cursor Sample.freshSystem
               < Z.of_nat (List.length Sample.seedUsers)) by (cbn; lia).
  assert (H3 : forall T, In T (repeat Pages.unclosable 3) ->
                         Scheduler.newPageOk T = true /\ Scheduler.pageCloseOk T = false).
  { intros T HT. apply repeat_spec in HT. subst T. split; reflexivity. }
  split; [auto|].
  destruct (proj2 (@cursor_rotation Sample.seedUsers (repeat Pages.unclosable 3)
                     Sample.freshSystem H1 H2) H3) as [Hc Hv].
  rewrite Hc, Hv. split; reflexivity.
Defined.

Lemma session_check_outcomes_witness :
  (Session.isLoggingIn Sample.idleSession = false /\
   Session.credentialsFile Sample.lockedAccount = Some Sample.storedCredentials /\
   Js.truthy (Some (Session.auth_token Sample.storedCredentials)) = true /\
   (Session.browserInstance Sample.idleSession <> None \/
    Session.launchOk Sample.lockedAccount = true) /\
   Session.reachesHome (Session.probe Sample.lockedAccount) = true /\
   Session.browserCloseOk (Session.probe Sample.lockedAccount) = true /\
   Session.teardownOk (Session.probe Sample.lockedAccount) = true) /\
  fst (Session.checkAndInjectCredentials (Session.probe Sample.lockedAccount)
                                         (Some Sample.storedCredentials))
  = Session.CkPremium /\
  fst (fst (Session.setupPersistentBrowser Sample.lockedAccount Sample.idleSession))
  = Session.RPremium /\
  ~ In Session.SevLogin
       (snd (Session.setupPersistentBrowser Sample.lockedAccount Sample.idleSession)).
Proof.
  assert (H1 : Session.isLoggingIn Sample.idleSession = false) by reflexivity.
  assert (H2 : Session.credentialsFile Sample.lockedAccount = Some Sample.storedCredentials)
    by reflexivity.
  assert (H3 : Js.truthy (Some (Session.auth_token Sample.storedCredentials)) = true)
    by reflexivity.
  assert (H4 : Session.browserInstance Sample.idleSession <> None \/
               Session.launchOk Sample.lockedAccount = true) by (right; reflexivity).
  assert (H5 : Session.reachesHome (Session.probe Sample.lockedAccount) = true) by reflexivity.
  assert (H6 : Session.browserCloseOk (Session.probe Sample.lockedAccount) = true)
    by reflexivity.
  assert (H7 : Session.teardownOk (Session.probe Sample.lockedAccount) = true) by reflexivity.
  split; [repeat split; assumption|].
  destruct (@session_check_outcomes Sample.lockedAccount Sample.idleSession
              Sample.storedCredentials H1 H2 H3 H4 H5 H6 H7) as [Ha [Hb _]].
  split; [exact Ha|]. exact (Hb eq_refl).
Defined.

Lemma status_monotone_witness :
  let s := {| posts := [withStatus processed Scenario.storedCandidate;
                        Sample.stuck "/user/status/2"];
              tweetsIA := []; clock := 1000000; lastAICallTime := 0 |} in
  let os := [OpRetryFailedAI (Sample.answering notRelevant 100) 5;
             OpProcessTweet (Sample.failing 500 100) Sample.candidate;
             OpRetryFailedAI (Sample.answering Sample.contractAlert 100) 5] in
  (uniqueIds s /\ uniqueIA s) /\
  statusOf "/user/status/1" s = Some processed /\
  statusOf "/user/status/1" (runOps os s) = Some processed /\
  statusOf "/user/status/2" (runOps os s) = Some discarded.
Proof.
  intros s os.
  assert (H1 : uniqueIds s).
  { unfold uniqueIds. simpl. constructor.
    - simpl. intros [H|[]]. discriminate H.
    - constructor; [simpl; tauto | constructor]. }
  assert (H2 : uniqueIA s) by constructor.
  split; [auto|]. split; [reflexivity|]. split.
  - apply (proj1 (proj1 status_monotone os s H1 H2) "/user/status/1" processed).
    + reflexivity.
    + discriminate.
  - vm_compute. reflexivity.
Defined.

(* ================================================================== *)
(** * The rate gate of the pipeline *)

Section Preserve.

Variable B : Type.
Variable proj : State -> B.
Hypothesis proj_clock : forall c s, proj (setClock c s) = proj s.
Hypothesis proj_posts : forall ps s, proj (setPosts ps s) = proj s.
Hypothesis proj_ia : forall l s, proj (setTweetsIA l s) = proj s.

Lemma preserves_ret A (a : A) : preserves proj (ret a).
Proof. intros s. reflexivity. Qed.

Lemma preserves_throw A e : preserves proj (@throw A e).
Proof. intros s. reflexivity. Qed.

Lemma preserves_bind A C (m : M A) (k : A -> M C) :
  preserves proj m -> (forall a, preserves proj (k a)) -> preserves proj (bind m k).
Proof.
  intros Hm Hk s. specialize (Hm s). unfold bind.
  destruct (m s) as [[[a|e] s1] ev1]; unfold stOf in *; simpl in *; auto.
  specialize (Hk a s1). destruct (k a s1) as [[r s2] ev2]. unfold stOf in *. simpl in *.
  congruence.
Qed.

Lemma preserves_tryCatch A (m : M A) h :
  preserves proj m -> (forall e, preserves proj (h e)) -> preserves proj (tryCatch m h).
Proof.
  intros Hm Hh s. specialize (Hm s). unfold tryCatch.
  destruct (m s) as [[[a|e] s1] ev1]; unfold stOf in *; simpl in *; auto.
  specialize (Hh e s1). destruct (h e s1) as [[r s2] ev2]. unfold stOf in *. simpl in *.
  congruence.
Qed.

Lemma preserves_if A (b : bool) (m1 m2 : M A) :
  preserves proj m1 -> preserves proj m2 -> preserves proj (if b then m1 else m2).
Proof. destruct b; auto. Qed.

Lemma preserves_sleep ms : preserves proj (sleep ms).
Proof. intros s. exact (proj_clock (clock s + ms) s). Qed.

Lemma preserves_withTimeout A (m : M A) ms fallback :
  preserves proj m -> preserves proj (withTimeout m ms fallback).
Proof.
  intros Hm s. specialize (Hm s). unfold withTimeout.
  destruct (m s) as [[r s1] ev]. unfold stOf in *. simpl in *.
  destruct (clock s1 - clock s <=? ms); simpl; [exact Hm|].
  now rewrite proj_clock.
Qed.

Lemma preserves_retryWithBackoff A (fn : M A) retries :
  preserves proj fn -> forall delay, preserves proj (retryWithBackoff fn retries delay).
Proof.
  intros Hfn. induction retries as [|r IH]; intros delay; simpl.
  - apply preserves_tryCatch; auto. intros e. apply preserves_throw.
  - apply preserves_tryCatch; auto. intros e. apply preserves_if.
    + apply preserves_bind; [apply preserves_sleep | intros _; apply IH].
    + apply preserves_throw.
Qed.

Lemma preserves_classifyTweet W input : preserves proj (classifyTweet W input).
Proof.
  unfold classifyTweet. apply preserves_if; [apply preserves_ret|].
  apply preserves_tryCatch; [|intros e; apply preserves_ret].
  intros s. unfold generateAndParse.
  destruct (service W (clock s) (contentPartsOf W input)) as [o latency].
  destruct o; unfold stOf; simpl; apply proj_clock.
Qed.

Lemma preserves_update key st : preserves proj (Post_findOneAndUpdate key st).
Proof.
  intros s. unfold Post_findOneAndUpdate, stOf. simpl.
  destruct key; [apply proj_posts | reflexivity].
Qed.

Lemma preserves_TweetsIA_save d : preserves proj (TweetsIA_save d).
Proof.
  intros s. unfold TweetsIA_save, stOf.
  destruct (validTweetIA d); [destruct (existsb _ _)|]; simpl;
    try reflexivity. apply proj_ia.
Qed.

Lemma preserves_branchOnOutcome W key mkDto analysis :
  preserves proj (branchOnOutcome W key mkDto analysis).
Proof.
  unfold branchOnOutcome. apply preserves_bind.
  - intros s.
    destruct (negb (Nat.eqb (List.length (contracts analysis)) 0)); [|reflexivity].
    destruct (enrichContracts_state W (contracts analysis) s) as [l [_ Hs]].
    now rewrite Hs.
  - intros enriched. apply preserves_if.
    + apply preserves_bind; [apply preserves_update | intros _; apply preserves_ret].
    + apply preserves_bind; [intros s; reflexivity|]. intros n.
      apply preserves_bind.
      * unfold switchChannel. repeat apply preserves_if;
          (apply preserves_bind; [|intros _; apply preserves_ret]);
          try apply preserves_update; try (intros s; reflexivity).
        apply preserves_if; intros s; reflexivity.
      * intros returned. apply preserves_if; [apply preserves_ret|].
        apply preserves_bind; [|intros _; apply preserves_ret].
        apply preserves_tryCatch; [|intros e; apply preserves_ret].
        apply preserves_bind; [apply preserves_TweetsIA_save|].
        intros _. apply preserves_update.
Qed.

End Preserve.

Lemma aiCallTimes_app ev1 ev2 :
  aiCallTimes (ev1 ++ ev2) = aiCallTimes ev1 ++ aiCallTimes ev2.
Proof.
  induction ev1 as [|e ev1 IH]; simpl; [reflexivity|].
  destruct e; simpl; rewrite ?IH; reflexivity.
Qed.

Lemma aiCallTimes_none ev : Forall notAICall ev -> aiCallTimes ev = [].
Proof.
  induction 1 as [|e ev He _ IH]; simpl; [reflexivity|].
  destruct e; simpl in *; tauto.
Qed.

Lemma classifyTweet_calls W input s :
  aiCallTimes (evOf (classifyTweet W input s)) = [] \/
  aiCallTimes (evOf (classifyTweet W input s)) = [clock s].
Proof.
  unfold classifyTweet. destruct (negb _ && _); [left; reflexivity|].
  right. unfold tryCatch, generateAndParse.
  destruct (service W (clock s) (contentPartsOf W input)) as [o latency].
  destruct o; reflexivity.
Qed.

Lemma withTimeout_events A (m : M A) ms fallback s :
  evOf (withTimeout m ms fallback s) = evOf (m s).
Proof.
  unfold withTimeout. destruct (m s) as [[r s1] ev].
  destruct (clock s1 - clock s <=? ms); reflexivity.
Qed.

(** From the classification on: at most one call, issued at once, and
    [lastAICallTime] is left as it is. *)
Lemma afterGate W t input s :
  let m := analysis <-
             aiLimiter (withTimeout (retryWithBackoff (classifyTweet W input) 3 2000)
                                    20000 errorSentinel) ;;
           if negb (category analysis =? "error")%string
           then branchOnOutcome W (tw_url t) (dtoOfTweet W t) analysis ;;; ret tt
           else Post_findOneAndUpdate (tw_url t) unprocessed in
  lastAICallTime (stOf (m s)) = lastAICallTime s /\
  (aiCallTimes (evOf (m s)) = [] \/ aiCallTimes (evOf (m s)) = [clock s]).
Proof.
  intros m.
  assert (Hlast : preserves lastAICallTime m).
  { unfold m, aiLimiter. apply preserves_bind; try reflexivity.
    - apply preserves_withTimeout, preserves_retryWithBackoff, preserves_classifyTweet;
        reflexivity.
    - intros analysis. apply preserves_if.
      + apply preserves_bind; try reflexivity.
        * apply preserves_branchOnOutcome; reflexivity.
        * intros _. apply preserves_ret.
      + apply preserves_update; reflexivity. }
  split; [apply Hlast|].
  set (C := withTimeout (retryWithBackoff (classifyTweet W input) 3 2000) 20000 errorSentinel).
  assert (HC : evOf (C s) = evOf (classifyTweet W input s)).
  { unfold C. rewrite withTimeout_events.
    now rewrite retryWithBackoff_total by apply total_classifyTweet. }
  assert (Hev : aiCallTimes (evOf (m s)) = aiCallTimes (evOf (C s))).
  { unfold m, aiLimiter. fold C. unfold bind at 1.
    destruct (C s) as [[[a|e] s1] ev1]; [|reflexivity].
    set (K := if negb (category a =? "error")%string
              then branchOnOutcome W (tw_url t) (dtoOfTweet W t) a ;;; ret tt
              else Post_findOneAndUpdate (tw_url t) unprocessed).
    assert (HK : Forall notAICall (evOf (K s1))).
    { unfold K. apply traceAll_if.
      - apply traceAll_bind; [|intros _; apply traceAll_ret].
        apply branchOnOutcome_trace; intros; exact I.
      - intros s'. simpl. repeat constructor. }
    destruct (K s1) as [[r2 s2] ev2]. unfold evOf in *. simpl in HK |- *.
    now rewrite aiCallTimes_app, (aiCallTimes_none HK), app_nil_r. }
  rewrite Hev, HC. apply classifyTweet_calls.
Qed.

(** One run of the pipeline calls the classifier at most once, not before
    [lastAICallTime + AI_CALL_INTERVAL], and records the time of the call. *)
Lemma processTweet_gate W t s :
  lastAICallTime s <= lastAICallTime (stOf (processTweet W t s)) /\
  (aiCallTimes (evOf (processTweet W t s)) = [] \/
   (aiCallTimes (evOf (processTweet W t s)) = [gateTime s] /\
    lastAICallTime (stOf (processTweet W t s)) = gateTime s)).
Proof.
  destruct (existing t s) as [q|] eqn:Hex.
  { rewrite (@processTweet_existing W t s _ Hex). unfold stOf, evOf. simpl.
    split; [apply Z.le_refl | now left]. }
  destruct (validatePost (newPost W (clock s) t)) as [p|] eqn:Hv.
  2:{ rewrite (@processTweet_rejected W t s Hex Hv). unfold stOf, evOf. simpl.
      split; [apply Z.le_refl | now left]. }
  set (input := {| in_text := Js.orStr (d_text (newPost W (clock s) t)) "";
                   in_mediaUrl := d_mediaUrl (newPost W (clock s) t);
                   in_mimeType := Some "image/jpeg" |}).
  set (sl := setLastAICallTime (gateTime s)
               (setClock (gateTime s) (setPosts (posts s ++ [p]) s))).
  destruct (@afterGate W t input sl) as [Hlast Hcalls].
  cbv zeta in Hlast, Hcalls.
  match type of Hlast with
  | lastAICallTime (stOf (?m sl)) = _ => set (rest := m) in *
  end.
  assert (HX : processTweet W t s
               = (Ok tt, stOf (rest sl), EvPostSave (tweetId p) :: evOf (rest sl)) \/
               processTweet W t s
               = (Ok tt, stOf (rest sl), EvPostSave (tweetId p) :: evOf (rest sl) ++ [])).
  { unfold processTweet.
    match goal with
    | |- context [tryCatch ?X _] => set (inner := X)
    end.
    assert (Hinner :
              inner s
              = (resOf (rest sl), stOf (rest sl),
                 [] ++ [] ++ [EvPostSave (tweetId p)] ++ [] ++ [] ++ [] ++ [] ++ evOf (rest sl))).
    { unfold inner. eapply bind_eq.
      { unfold Post_findOne. unfold existing in Hex. rewrite Hex. reflexivity. }
      cbv beta iota.
      eapply bind_eq; [reflexivity|]. cbv beta zeta.
      eapply bind_eq.
      { unfold Post_save. rewrite Hv.
        replace (existsb (hasId (tweetId p)) (posts s)) with false.
        - reflexivity.
        - symmetry. apply lookupPost_existsb.
          destruct (@validatePost_Some _ _ Hv) as [Hurl _]. simpl in Hurl.
          unfold existing in Hex. now rewrite Hurl in Hex. }
      eapply bind_eq; [reflexivity|]. cbv beta zeta.
      eapply bind_eq; [apply rateGate_eq|].
      eapply bind_eq; [reflexivity|]. cbv beta.
      eapply bind_eq; [reflexivity|].
      apply triple_eta. }
    unfold tryCatch. rewrite Hinner. simpl.
    destruct (resOf (rest sl)) as [[]|e]; [left | right]; reflexivity. }
  assert (Hgate : lastAICallTime sl = gateTime s /\ clock sl = gateTime s) by (split; reflexivity).
  destruct Hgate as [Hg1 Hg2]. rewrite Hg1 in Hlast. rewrite Hg2 in Hcalls.
  assert (Hmono : lastAICallTime s <= gateTime s).
  { unfold gateTime, AI_CALL_INTERVAL. lia. }
  destruct HX as [HX|HX]; rewrite HX; unfold stOf, evOf; simpl;
    rewrite ?app_nil_r; (split; [unfold stOf in Hlast; simpl in Hlast; lia|]);
    unfold evOf in Hcalls; (destruct Hcalls as [Hc|Hc]; [left; exact Hc | right; split; [exact Hc|exact Hlast]]).
Qed.

Lemma spaced_cons gap c times :
  (forall c', In c' times -> c + gap <= c') -> spaced gap times -> spaced gap (c :: times).
Proof.
  intros Hall Hsp. simpl. split; [|exact Hsp].
  destruct times as [|c' rest]; [exact I|]. apply Hall. now left.
Qed.

Lemma pipelineRuns_gate runs :
  forall s,
    lastAICallTime s <= lastAICallTime (fst (pipelineRuns runs s)) /\
    spaced AI_CALL_INTERVAL (aiCallTimes (snd (pipelineRuns runs s))) /\
    forall c, In c (aiCallTimes (snd (pipelineRuns runs s))) ->
              lastAICallTime s + AI_CALL_INTERVAL <= c.
Proof.
  induction runs as [|[W t] rest IH]; intros s.
  - simpl. split; [apply Z.le_refl|]. split; [exact I | tauto].
  - simpl. destruct (processTweet_gate W t s) as [Hmono Hcalls].
    destruct (IH (stOf (processTweet W t s))) as [Hmono2 [Hsp2 Hall2]].
    destruct (pipelineRuns rest (stOf (processTweet W t s))) as [s2 ev2].
    simpl in *. rewrite aiCallTimes_app.
    split; [lia|].
    destruct Hcalls as [Hc | [Hc Hlast]]; rewrite Hc; simpl.
    + split; [exact Hsp2|]. intros c Hin. specialize (Hall2 c Hin). lia.
    + rewrite Hlast in Hall2. split.
      * apply spaced_cons; auto.
      * intros c [<-|Hin].
        -- unfold gateTime. lia.
        -- specialize (Hall2 c Hin). unfold gateTime, AI_CALL_INTERVAL in *. lia.
Qed.

(** In consecutive runs of the pipeline alone, the calls to the classifier
    are at least [AI_CALL_INTERVAL] apart. *)
Lemma pipelineRuns_spaced runs s :
  spaced AI_CALL_INTERVAL (aiCallTimes (snd (pipelineRuns runs s))).
Proof. apply pipelineRuns_gate. Qed.

(** C2, what the code does.  In consecutive runs of the pipeline alone the
    calls to the classifier are at least 6000 ms apart.  The sweep calls
    the classifier for each post of its batch without consulting
    [lastAICallTime] or the limiter: with two [unprocessed] posts and a
    classifier that answers in 100 ms, two calls are issued 100 ms apart;
    and a sweep that follows a pipeline run calls the classifier as soon as
    that run ends. *)
Theorem sweep_ignores_rate_gate :
  let W := Sample.answering Sample.contractAlert 100 in
  (forall runs s, spaced 6000 (aiCallTimes (snd (pipelineRuns runs s)))) /\
  aiCallTimes (evOf (retryFailedAI W 5 Sample.backlog)) = [1000000; 1000100] /\
  ~ spaced 6000 (aiCallTimes (evOf (retryFailedAI W 5 Sample.backlog))) /\
  (let r1 := processTweet W Sample.candidate
               {| posts := [Sample.stuck "/user/status/2"]; tweetsIA := [];
                  clock := 1000000; lastAICallTime := 0 |} in
   aiCallTimes (evOf r1) ++ aiCallTimes (evOf (retryFailedAI W 5 (stOf r1)))
   = [1000000; 1000100]).
Proof.
  split; [exact pipelineRuns_spaced|].
  vm_compute. split; [reflexivity|]. split; [|reflexivity].
  intros [H _]. apply H. reflexivity.
Qed.

(* ================================================================== *)
(** * The paths of one pipeline run *)

Lemma classifyTweet_answer W input s o latency :
  Js.truthy (Some (in_text input)) = true \/ List.length (contentPartsOf W input) <> 1%nat ->
  service W (clock s) (contentPartsOf W input) = (o, latency) ->
  classifyTweet W input s =
  (Ok (answerOf o), setClock (clock s + Z.of_nat latency) s,
   [EvAICall (clock s) (contentPartsOf W input)]).
Proof.
  intros Hcall Hs. unfold classifyTweet.
  replace (negb (Js.truthy (Some (in_text input))) &&
           Nat.eqb (List.length (contentPartsOf W input)) 1) with false.
  - unfold tryCatch, generateAndParse. rewrite Hs. destruct o; reflexivity.
  - symmetry. destruct Hcall as [H|H].
    + now rewrite H.
    + apply Nat.eqb_neq in H. rewrite H. apply andb_false_r.
Qed.

Lemma classification_timed W input retries delay ms fallback s o latency :
  Js.truthy (Some (in_text input)) = true \/ List.length (contentPartsOf W input) <> 1%nat ->
  service W (clock s) (contentPartsOf W input) = (o, latency) ->
  withTimeout (retryWithBackoff (classifyTweet W input) retries delay) ms fallback s
  = (Ok (if Z.of_nat latency <=? ms then answerOf o else fallback),
     setClock (clock s + (if Z.of_nat latency <=? ms then Z.of_nat latency else ms)) s,
     [EvAICall (clock s) (contentPartsOf W input)]).
Proof.
  intros Hcall Hs. unfold withTimeout.
  rewrite retryWithBackoff_total by apply total_classifyTweet.
  rewrite (@classifyTweet_answer W input s o latency Hcall Hs). simpl.
  replace (clock s + Z.of_nat latency - clock s) with (Z.of_nat latency) by lia.
  destruct (Z.of_nat latency <=? ms); reflexivity.
Qed.

Lemma enrichContracts_run W cs s :
  enrichContracts W cs s = (Ok (enrichedList W cs), s, enrichEvents W cs).
Proof.
  induction cs as [|c cs IH]; [reflexivity|].
  simpl. unfold bind, getTokenDataFromDexScreener, pairOf.
  destruct (dexGet W (address c)) as [[|pr pairs]|]; simpl; rewrite IH; simpl;
    rewrite ?app_nil_r; try reflexivity.
  destruct (fold_left betterPair pairs (betterPair None pr)); reflexivity.
Qed.

Lemma enrichment_run W (a : Analysis) s :
  (if negb (Nat.eqb (List.length (contracts a)) 0)
   then enrichContracts W (contracts a) else ret []) s
  = (Ok (enrichedList W (contracts a)), s, enrichEvents W (contracts a)).
Proof.
  destruct (contracts a) as [|c cs] eqn:E; [reflexivity|].
  simpl negb. cbv iota. apply enrichContracts_run.
Qed.

Lemma branch_discard W id mkDto a s :
  category a = "not-relevant" ->
  branchOnOutcome W (Some id) mkDto a s
  = (Ok true, setPosts (updateFirst id discarded (posts s)) s,
     enrichEvents W (contracts a) ++ [EvPostUpdate (Some id) discarded]).
Proof.
  intros Hc. unfold branchOnOutcome. unfold bind at 1.
  rewrite enrichment_run, Hc. reflexivity.
Qed.

Lemma switchChannel_send key dto s :
  ia_category dto <> "not-relevant" ->
  switchChannel key dto s
  = (Ok false, s, [EvDiscord (channelFor (ia_category dto)) dto]).
Proof.
  intros Hne. unfold switchChannel, channelFor.
  apply String.eqb_neq in Hne. unfold Category.NotRelevant. rewrite Hne.
  destruct (isHighPriority (ia_category dto)); reflexivity.
Qed.

Lemma branch_saved W id mkDto a s :
  category a <> "not-relevant" ->
  (forall x e n, ia_category (mkDto x e n) = category x) ->
  (forall x e n, ia_tweetId (mkDto x e n) = id) ->
  let dto := mkDto a (enrichedList W (contracts a)) (clock s) in
  validTweetIA dto = true ->
  existsb (iaHasId id) (tweetsIA s) = false ->
  branchOnOutcome W (Some id) mkDto a s
  = (Ok false,
     setPosts (updateFirst id processed (posts s))
              (setTweetsIA (tweetsIA s ++ [castTweetIA dto]) s),
     enrichEvents W (contracts a) ++
     [EvDiscord (channelFor (category a)) dto; EvTweetIASave id;
      EvPostUpdate (Some id) processed]).
Proof.
  intros Hne Hcat Hid dto Hvalid Hfresh. unfold branchOnOutcome. unfold bind at 1.
  rewrite enrichment_run.
  apply String.eqb_neq in Hne. rewrite Hne. apply String.eqb_neq in Hne.
  unfold bind at 1. unfold now. fold dto.
  unfold bind at 1. rewrite switchChannel_send by (unfold dto; now rewrite Hcat).
  unfold bind, tryCatch, TweetsIA_save. rewrite Hvalid.
  unfold dto at 1. rewrite Hid. rewrite Hfresh.
  unfold Post_findOneAndUpdate, ret. simpl.
  unfold dto. rewrite Hcat, !Hid. reflexivity.
Qed.

Lemma branch_unsaved W id mkDto a s :
  category a <> "not-relevant" ->
  (forall x e n, ia_category (mkDto x e n) = category x) ->
  (forall x e n, ia_tweetId (mkDto x e n) = id) ->
  let dto := mkDto a (enrichedList W (contracts a)) (clock s) in
  validTweetIA dto = false \/ existsb (iaHasId id) (tweetsIA s) = true ->
  branchOnOutcome W (Some id) mkDto a s
  = (Ok false, s,
     enrichEvents W (contracts a) ++ [EvDiscord (channelFor (category a)) dto]).
Proof.
  intros Hne Hcat Hid dto Hbad. unfold branchOnOutcome. unfold bind at 1.
  rewrite enrichment_run.
  apply String.eqb_neq in Hne. rewrite Hne. apply String.eqb_neq in Hne.
  unfold bind at 1. unfold now. fold dto.
  unfold bind at 1. rewrite switchChannel_send by (unfold dto; now rewrite Hcat).
  unfold bind, tryCatch, TweetsIA_save.
  destruct (validTweetIA dto) eqn:Ev.
  - destruct Hbad as [H|H]; [discriminate|].
    unfold dto at 1. rewrite Hid, H. unfold ret. simpl.
    unfold dto. now rewrite Hcat.
  - unfold ret. simpl. unfold dto. now rewrite Hcat.
Qed.

Lemma total_classifyAndBranch W t id :
  tw_url t = Some id -> total (classifyAndBranch W t).
Proof.
  intros Hurl. unfold classifyAndBranch, aiLimiter. apply total_bind.
  - apply total_withTimeout. intros s.
    rewrite retryWithBackoff_total by apply total_classifyTweet.
    apply total_classifyTweet.
  - intros a. destruct (negb _).
    + apply total_bind; [|intros _; apply total_ret]. intros s. rewrite Hurl.
      destruct (@branchOnOutcome_step W id (dtoOfTweet W t) a s) as [b [s' [ev [H _]]]].
      { intros x e n. simpl. now rewrite Hurl. }
      exists b. now rewrite H.
    + intros s. eexists. reflexivity.
Qed.

(** A run on a candidate that is new and that the schema accepts: the raw
    post is stored, the gate is waited for, and the rest is the
    classification and its outcome branch. *)
Lemma processTweet_unfold W t s p :
  existing t s = None ->
  validatePost (newPost W (clock s) t) = Some p ->
  processTweet W t s
  = (Ok tt, stOf (classifyAndBranch W t (gated p s)),
     EvPostSave (tweetId p) :: evOf (classifyAndBranch W t (gated p s))).
Proof.
  intros Hex Hv.
  destruct (@validatePost_Some _ _ Hv) as [Hurl _]. simpl in Hurl.
  unfold processTweet.
  match goal with
  | |- context [tryCatch ?X _] => set (inner := X)
  end.
  assert (Hinner :
            inner s
            = (resOf (classifyAndBranch W t (gated p s)),
               stOf (classifyAndBranch W t (gated p s)),
               [] ++ [] ++ [EvPostSave (tweetId p)] ++ [] ++ [] ++ [] ++ [] ++
               evOf (classifyAndBranch W t (gated p s)))).
  { unfold inner. eapply bind_eq.
    { unfold Post_findOne. unfold existing in Hex. rewrite Hex. reflexivity. }
    cbv beta iota.
    eapply bind_eq; [reflexivity|]. cbv beta zeta.
    eapply bind_eq.
    { unfold Post_save. rewrite Hv.
      replace (existsb (hasId (tweetId p)) (posts s)) with false.
      - reflexivity.
      - symmetry. apply lookupPost_existsb.
        unfold existing in Hex. now rewrite Hurl in Hex. }
    eapply bind_eq; [reflexivity|]. cbv beta zeta.
    eapply bind_eq; [apply rateGate_eq|].
    eapply bind_eq; [reflexivity|]. cbv beta.
    eapply bind_eq; [reflexivity|].
    apply triple_eta. }
  unfold tryCatch. rewrite Hinner.
  destruct (@total_classifyAndBranch W t _ Hurl (gated p s)) as [[] Hok].
  rewrite Hok. reflexivity.
Qed.

(** The classification step of a run, when the call is made. *)
Lemma inputOf_truthy txt m : Js.truthy (Some (in_text (inputOf txt m))) = Js.truthy txt.
Proof.
  unfold inputOf. simpl. destruct txt as [x|]; simpl; [|reflexivity].
  destruct (x =? "")%string eqn:E; simpl; [reflexivity | now rewrite E].
Qed.

Lemma classifyAndBranch_eq W t s o latency r s2 ev2 :
  Js.truthy (tw_text t) = true \/
  List.length (contentPartsOf W (inputOf (tw_text t) (tw_mediaUrl t))) <> 1%nat ->
  service W (clock s) (contentPartsOf W (inputOf (tw_text t) (tw_mediaUrl t))) = (o, latency) ->
  (if negb (String.eqb
              (category (if Z.of_nat latency <=? 20000 then answerOf o else errorSentinel))
              "error")
   then branchOnOutcome W (tw_url t) (dtoOfTweet W t)
                        (if Z.of_nat latency <=? 20000 then answerOf o else errorSentinel) ;;;
        ret tt
   else Post_findOneAndUpdate (tw_url t) unprocessed)
    (setClock (clock s + (if Z.of_nat latency <=? 20000 then Z.of_nat latency else 20000)) s)
  = (r, s2, ev2) ->
  classifyAndBranch W t s
  = (r, s2,
     [EvAICall (clock s) (contentPartsOf W (inputOf (tw_text t) (tw_mediaUrl t)))] ++ ev2).
Proof.
  intros Htext Hsvc HK. unfold classifyAndBranch, aiLimiter.
  eapply bind_eq; [|exact HK].
  apply classification_timed; [|exact Hsvc].
  rewrite inputOf_truthy. exact Htext.
Qed.

Lemma dateOf_again W n n' ts z :
  dateOf W n ts = Some z -> exists z', dateOf W n' ts = Some z'.
Proof.
  unfold dateOf. destruct ts as [x|]; [|eauto].
  destruct (Js.truthy (Some x)); eauto.
Qed.

Lemma truthy_required v : Js.truthy v = true -> exists x, requiredStr v = Some x.
Proof.
  unfold Js.truthy, requiredStr. destruct v as [x|]; [|discriminate].
  destruct (x =? "")%string; [discriminate | eauto].
Qed.

Lemma validatePost_fields d p :
  validatePost d = Some p ->
  requiredStr (d_tweetId d) = Some (tweetId p) /\
  requiredStr (d_username d) = Some (username p) /\
  d_timestamp d = Some (timestamp p) /\
  text p = d_text d /\ mediaUrl p = d_mediaUrl d /\
  scrapedFor p = d_scrapedFor d /\ status p = unprocessed.
Proof.
  unfold validatePost.
  destruct (requiredStr (d_tweetId d)) as [id|]; [|discriminate].
  destruct (requiredStr (d_username d)) as [u|]; [|discriminate].
  destruct (d_timestamp d) as [ts|]; [|discriminate].
  intros H. inversion H; subst. simpl. repeat split; reflexivity.
Qed.

Lemma statusOf_appended id st ps p s' :
  lookupPost id ps = None -> tweetId p = id ->
  posts s' = ps ++ [withStatus st p] -> statusOf id s' = Some st.
Proof.
  intros Hl Hid Hp. unfold statusOf. rewrite Hp.
  rewrite (@lookupPost_app_r id ps _ Hl). unfold lookupPost, hasId. simpl.
  rewrite Hid, String.eqb_refl. reflexivity.
Qed.

Lemma dto_valid W t p a n n0 :
  validatePost (newPost W n0 t) = Some p ->
  Js.truthy (tw_text t) = true ->
  validTweetIA (dtoOfTweet W t a (enrichedList W (contracts a)) n) = storable W a.
Proof.
  intros Hv Htext.
  destruct (validatePost_fields _ Hv) as [Hid [Hun [Hts _]]].
  cbn [newPost d_tweetId d_username d_timestamp] in Hid, Hun, Hts.
  destruct (requiredStr_Some _ Hid) as [Hurl Hnonempty].
  destruct (truthy_required _ Htext) as [x Hx].
  destruct (@dateOf_again W n0 n _ _ Hts) as [z' Hz].
  unfold validTweetIA, dtoOfTweet, storable.
  cbn [ia_tweetId ia_username ia_text ia_timestamp ia_contracts ia_enriched].
  rewrite Hurl, Hun, Hx, Hz.
  unfold requiredStr. apply String.eqb_neq in Hnonempty. now rewrite Hnonempty.
Qed.

Lemma quiet_enrichEvents W cs :
  notifications (enrichEvents W cs) = [] /\ aiCallTimes (enrichEvents W cs) = [].
Proof.
  assert (H : Forall (fun e => notDiscord e /\ notAICall e) (enrichEvents W cs)).
  { unfold enrichEvents. apply Forall_flat_map. apply Forall_forall. intros c _.
    destruct (dexGet W (address c)) as [[|]|]; repeat constructor. }
  split.
  - apply notifications_none. eapply Forall_impl; [|exact H]. simpl. tauto.
  - apply aiCallTimes_none. eapply Forall_impl; [|exact H]. simpl. tauto.
Qed.

(** X1.  A post with text that the classifier finds relevant within the
    timeout is enriched and notified once on the channel of its category,
    after a single request.  When every contract of the analysis has an
    address and no price is NaN, its classified post is stored (without the
    media url, for which the schema has no path) and the raw post is marked
    [processed]; otherwise the save is refused, nothing is stored and the
    raw post stays [unprocessed]. *)
Theorem pipeline_relevant_post (W : World) (t : Tweet) (s : State) (p : RawPost)
        (a : Analysis) (latency : nat) :
  existing t s = None ->
  validatePost (newPost W (clock s) t) = Some p ->
  Js.truthy (tw_text t) = true ->
  service W (gateTime s) (contentPartsOf W (inputOf (tw_text t) (tw_mediaUrl t)))
  = (SvcJson a, latency) ->
  Z.of_nat latency <= 20000 ->
  category a <> "error" -> category a <> "not-relevant" ->
  existsb (iaHasId (tweetId p)) (tweetsIA s) = false ->
  notifications (evOf (processTweet W t s)) = [(channelFor (category a), category a)] /\
  List.length (aiCallTimes (evOf (processTweet W t s))) = 1%nat /\
  (storable W a = true ->
   statusOf (tweetId p) (stOf (processTweet W t s)) = Some processed /\
   exists n,
     tweetsIA (stOf (processTweet W t s))
     = tweetsIA s ++ [castTweetIA (dtoOfTweet W t a (enrichedList W (contracts a)) n)]) /\
  (storable W a = false ->
   statusOf (tweetId p) (stOf (processTweet W t s)) = Some unprocessed /\
   tweetsIA (stOf (processTweet W t s)) = tweetsIA s).
Proof.
  intros Hex Hv Htext Hsvc Hlat Hne Hnr Hfresh.
  destruct (validatePost_fields _ Hv) as [Hid [_ [_ [_ [_ [_ Hst]]]]]]. simpl in Hid.
  destruct (requiredStr_Some _ Hid) as [Hurl _].
  assert (Hlook : lookupPost (tweetId p) (posts s) = None).
  { unfold existing in Hex. now rewrite Hurl in Hex. }
  rewrite (@processTweet_unfold W t s p Hex Hv).
  set (s1 := setClock (gateTime s + Z.of_nat latency) (gated p s)).
  set (dto := dtoOfTweet W t a (enrichedList W (contracts a)) (gateTime s + Z.of_nat latency)).
  assert (Hvalid : validTweetIA dto = storable W a).
  { unfold dto. eapply dto_valid; eauto. }
  assert (Hbranch : forall b s2 ev2,
             branchOnOutcome W (Some (tweetId p)) (dtoOfTweet W t) a s1 = (Ok b, s2, ev2) ->
             classifyAndBranch W t (gated p s)
             = (Ok tt, s2,
                [EvAICall (gateTime s)
                          (contentPartsOf W (inputOf (tw_text t) (tw_mediaUrl t)))] ++
                ev2 ++ [])).
  { intros b s2 ev2 Hb.
    apply (@classifyAndBranch_eq W t (gated p s) (SvcJson a) latency);
      [now left | exact Hsvc |].
    apply Z.leb_le in Hlat. rewrite Hlat. change (answerOf (SvcJson a)) with a.
    apply String.eqb_neq in Hne. rewrite Hne. simpl negb. cbv iota.
    rewrite Hurl. eapply bind_eq; [exact Hb | reflexivity]. }
  destruct (quiet_enrichEvents W (contracts a)) as [Hq1 Hq2].
  destruct (storable W a) eqn:Est.
  - rewrite (Hbranch _ _ _
               (@branch_saved W (tweetId p) (dtoOfTweet W t) a s1 Hnr
                  (fun _ _ _ => eq_refl)
                  (fun x e n => f_equal (fun o => match o with Some u => u | None => "" end) Hurl)
                  Hvalid Hfresh)).
    unfold stOf, evOf. cbn [fst snd].
    change (EvPostSave (tweetId p) :: ?l) with ([EvPostSave (tweetId p)] ++ l).
    rewrite !notifications_app, !aiCallTimes_app, Hq1, Hq2.
    split; [reflexivity|]. split; [reflexivity|]. split; [|discriminate].
    intros _. split.
    + eapply statusOf_appended; [exact Hlook | reflexivity |].
      simpl. now apply updateFirst_app_fresh.
    + exists (gateTime s + Z.of_nat latency). reflexivity.
  - rewrite (Hbranch _ _ _
               (@branch_unsaved W (tweetId p) (dtoOfTweet W t) a s1 Hnr
                  (fun _ _ _ => eq_refl)
                  (fun x e n => f_equal (fun o => match o with Some u => u | None => "" end) Hurl)
                  (or_introl Hvalid))).
    unfold stOf, evOf. cbn [fst snd].
    change (EvPostSave (tweetId p) :: ?l) with ([EvPostSave (tweetId p)] ++ l).
    rewrite !notifications_app, !aiCallTimes_app, Hq1, Hq2.
    split; [reflexivity|]. split; [reflexivity|]. split; [discriminate|].
    intros _. split; [|reflexivity].
    eapply statusOf_appended; [exact Hlook | reflexivity |].
    simpl. destruct p. simpl in Hst. subst. reflexivity.
Qed.

(** X2.  A run in which the classifier answers [not-relevant] (or in which the
    request fails, which [classifyTweet] turns into the same answer) marks
    the new raw post [discarded]: no classified post, no notification, and
    the post is out of reach of the recovery sweep. *)
Theorem pipeline_discards_not_relevant (W : World) (t : Tweet) (s : State) (p : RawPost)
        (o : ServiceOutcome) (latency : nat) :
  existing t s = None ->
  validatePost (newPost W (clock s) t) = Some p ->
  Js.truthy (tw_text t) = true \/
  List.length (contentPartsOf W (inputOf (tw_text t) (tw_mediaUrl t))) <> 1%nat ->
  service W (gateTime s) (contentPartsOf W (inputOf (tw_text t) (tw_mediaUrl t)))
  = (o, latency) ->
  Z.of_nat latency < 20000 ->
  category (answerOf o) = "not-relevant" ->
  posts (stOf (processTweet W t s)) = posts s ++ [withStatus discarded p] /\
  tweetsIA (stOf (processTweet W t s)) = tweetsIA s /\
  notifications (evOf (processTweet W t s)) = [] /\
  Post_find_unprocessed 5 (stOf (processTweet W t s))
  = (Ok (firstn 5 (filter isUnprocessed (posts s))), stOf (processTweet W t s), []).
Proof.
  intros Hex Hv Hcall Hsvc Hlat Hcat.
  destruct (validatePost_fields _ Hv) as [Hid _]. simpl in Hid.
  destruct (requiredStr_Some _ Hid) as [Hurl _].
  assert (Hlook : lookupPost (tweetId p) (posts s) = None).
  { unfold existing in Hex. now rewrite Hurl in Hex. }
  rewrite (@processTweet_unfold W t s p Hex Hv).
  set (s1 := setClock (gateTime s + Z.of_nat latency) (gated p s)).
  assert (Hrun : classifyAndBranch W t (gated p s)
                 = (Ok tt, setPosts (updateFirst (tweetId p) discarded (posts s1)) s1,
                    [EvAICall (gateTime s)
                              (contentPartsOf W (inputOf (tw_text t) (tw_mediaUrl t)))] ++
                    (enrichEvents W (contracts (answerOf o)) ++
                     [EvPostUpdate (Some (tweetId p)) discarded]) ++ [])).
  { apply (@classifyAndBranch_eq W t (gated p s) o latency); [exact Hcall | exact Hsvc |].
    apply Z.lt_le_incl, Z.leb_le in Hlat. rewrite Hlat, Hcat. simpl negb. cbv iota.
    rewrite Hurl. eapply bind_eq; [|reflexivity].
    apply (@branch_discard W (tweetId p) (dtoOfTweet W t) (answerOf o) s1 Hcat). }
  rewrite Hrun. unfold stOf, evOf. cbn [fst snd].
  destruct (quiet_enrichEvents W (contracts (answerOf o))) as [Hq1 _].
  assert (Hposts : updateFirst (tweetId p) discarded (posts s1)
                   = posts s ++ [withStatus discarded p]).
  { simpl. now apply updateFirst_app_fresh. }
  split; [exact Hposts|]. split; [reflexivity|]. split.
  - change (EvPostSave (tweetId p) :: ?l) with ([EvPostSave (tweetId p)] ++ l).
    rewrite !notifications_app, Hq1. reflexivity.
  - unfold Post_find_unprocessed. cbn [posts setPosts]. rewrite Hposts.
    rewrite filter_app. simpl. rewrite app_nil_r. reflexivity.
Qed.

Lemma processTweet_timeout_eq W t s p o latency :
  existing t s = None ->
  validatePost (newPost W (clock s) t) = Some p ->
  Js.truthy (tw_text t) = true \/
  List.length (contentPartsOf W (inputOf (tw_text t) (tw_mediaUrl t))) <> 1%nat ->
  service W (gateTime s) (contentPartsOf W (inputOf (tw_text t) (tw_mediaUrl t)))
  = (o, latency) ->
  20000 < Z.of_nat latency ->
  processTweet W t s
  = (Ok tt,
     {| posts := posts s ++ [p]; tweetsIA := tweetsIA s;
        clock := gateTime s + 20000; lastAICallTime := gateTime s |},
     [EvPostSave (tweetId p);
      EvAICall (gateTime s) (contentPartsOf W (inputOf (tw_text t) (tw_mediaUrl t)));
      EvPostUpdate (Some (tweetId p)) unprocessed]).
Proof.
  intros Hex Hv Hcall Hsvc Hlat.
  destruct (validatePost_fields _ Hv) as [Hid [_ [_ [_ [_ [_ Hst]]]]]]. simpl in Hid.
  destruct (requiredStr_Some _ Hid) as [Hurl _].
  assert (Hlook : lookupPost (tweetId p) (posts s) = None).
  { unfold existing in Hex. now rewrite Hurl in Hex. }
  rewrite (@processTweet_unfold W t s p Hex Hv).
  set (s1 := setClock (gateTime s + 20000) (gated p s)).
  assert (Hrun : classifyAndBranch W t (gated p s)
                 = (Ok tt, setPosts (updateFirst (tweetId p) unprocessed (posts s1)) s1,
                    [EvAICall (gateTime s)
                              (contentPartsOf W (inputOf (tw_text t) (tw_mediaUrl t)))] ++
                    [EvPostUpdate (Some (tweetId p)) unprocessed])).
  { apply (@classifyAndBranch_eq W t (gated p s) o latency); [exact Hcall | exact Hsvc |].
    apply Z.leb_gt in Hlat. rewrite Hlat. simpl. rewrite Hurl. reflexivity. }
  rewrite Hrun. unfold stOf, evOf. cbn [fst snd].
  assert (Hsame : withStatus unprocessed p = p).
  { destruct p. simpl in Hst. subst. reflexivity. }
  assert (Hposts : updateFirst (tweetId p) unprocessed (posts s1) = posts s ++ [p]).
  { simpl. rewrite (@updateFirst_app_fresh (tweetId p) unprocessed (posts s) p Hlook eq_refl).
    now rewrite Hsame. }
  rewrite Hposts. reflexivity.
Qed.


(** X4.  A post with an image but no text that the classifier finds relevant is
    notified, but the classified post is refused by the schema ([text] is
    required there): nothing is saved and the raw post stays [unprocessed],
    so the recovery sweep selects it again. *)
Theorem pipeline_media_only_unsaved (W : World) (t : Tweet) (s : State) (p : RawPost)
        (a : Analysis) (latency : nat) :
  existing t s = None ->
  validatePost (newPost W (clock s) t) = Some p ->
  Js.truthy (tw_text t) = false ->
  List.length (contentPartsOf W (inputOf (tw_text t) (tw_mediaUrl t))) <> 1%nat ->
  service W (gateTime s) (contentPartsOf W (inputOf (tw_text t) (tw_mediaUrl t)))
  = (SvcJson a, latency) ->
  Z.of_nat latency < 20000 ->
  category a <> "error" -> category a <> "not-relevant" ->
  posts (stOf (processTweet W t s)) = posts s ++ [p] /\
  status p = unprocessed /\
  tweetsIA (stOf (processTweet W t s)) = tweetsIA s /\
  notifications (evOf (processTweet W t s)) = [(channelFor (category a), category a)].
Proof.
  intros Hex Hv Htext Hparts Hsvc Hlat Hne Hnr.
  destruct (validatePost_fields _ Hv) as [Hid [_ [_ [_ [_ [_ Hst]]]]]]. simpl in Hid.
  destruct (requiredStr_Some _ Hid) as [Hurl _].
  rewrite (@processTweet_unfold W t s p Hex Hv).
  set (s1 := setClock (gateTime s + Z.of_nat latency) (gated p s)).
  set (dto := dtoOfTweet W t a (enrichedList W (contracts a)) (gateTime s + Z.of_nat latency)).
  assert (Hrun : classifyAndBranch W t (gated p s)
                 = (Ok tt, s1,
                    [EvAICall (gateTime s)
                              (contentPartsOf W (inputOf (tw_text t) (tw_mediaUrl t)))] ++
                    (enrichEvents W (contracts a) ++
                     [EvDiscord (channelFor (category a)) dto]) ++ [])).
  { apply (@classifyAndBranch_eq W t (gated p s) (SvcJson a) latency);
      [now right | exact Hsvc |].
    apply Z.lt_le_incl, Z.leb_le in Hlat. rewrite Hlat. change (answerOf (SvcJson a)) with a.
    apply String.eqb_neq in Hne. rewrite Hne. simpl negb. cbv iota.
    rewrite Hurl. eapply bind_eq; [|reflexivity].
    apply (@branch_unsaved W (tweetId p) (dtoOfTweet W t) a s1 Hnr).
    - intros; reflexivity.
    - intros x e n. simpl. now rewrite Hurl.
    - left. unfold validTweetIA, dtoOfTweet. cbn [ia_tweetId ia_username ia_text ia_timestamp].
      replace (requiredStr (tw_text t)) with (@None string).
      + destruct (requiredStr (Some _)); [|reflexivity].
        destruct (requiredStr (tw_username t)); reflexivity.
      + unfold Js.truthy in Htext. unfold requiredStr.
        destruct (tw_text t) as [x|]; [|reflexivity].
        destruct (x =? "")%string; [reflexivity | discriminate]. }
  rewrite Hrun. unfold stOf, evOf. cbn [fst snd].
  destruct (quiet_enrichEvents W (contracts a)) as [Hq1 _].
  split; [reflexivity|]. split; [exact Hst|]. split; [reflexivity|].
  change (EvPostSave (tweetId p) :: ?l) with ([EvPostSave (tweetId p)] ++ l).
  rewrite !notifications_app, Hq1. reflexivity.
Qed.

(** X5.  A post with neither text nor a usable image is stored and marked
    [discarded] without any request to the classifier; the run still waits
    for the rate gate and stamps [lastAICallTime]. *)
Theorem pipeline_empty_post_discarded (W : World) (t : Tweet) (s : State) (p : RawPost) :
  existing t s = None ->
  validatePost (newPost W (clock s) t) = Some p ->
  Js.truthy (tw_text t) = false ->
  List.length (contentPartsOf W (inputOf (tw_text t) (tw_mediaUrl t))) = 1%nat ->
  processTweet W t s
  = (Ok tt,
     {| posts := posts s ++ [withStatus discarded p]; tweetsIA := tweetsIA s;
        clock := gateTime s; lastAICallTime := gateTime s |},
     [EvPostSave (tweetId p); EvPostUpdate (Some (tweetId p)) discarded]).
Proof.
  intros Hex Hv Htext Hparts.
  destruct (validatePost_fields _ Hv) as [Hid _]. simpl in Hid.
  destruct (requiredStr_Some _ Hid) as [Hurl _].
  assert (Hlook : lookupPost (tweetId p) (posts s) = None).
  { unfold existing in Hex. now rewrite Hurl in Hex. }
  rewrite (@processTweet_unfold W t s p Hex Hv).
  assert (Hrun : classifyAndBranch W t (gated p s)
                 = (Ok tt,
                    setPosts (updateFirst (tweetId p) discarded (posts (gated p s))) (gated p s),
                    [] ++ ([] ++ [EvPostUpdate (Some (tweetId p)) discarded]) ++ [])).
  { unfold classifyAndBranch, aiLimiter. eapply bind_eq.
    - unfold withTimeout.
      rewrite retryWithBackoff_total by apply total_classifyTweet.
      unfold classifyTweet. rewrite inputOf_truthy, Htext, Hparts. simpl.
      rewrite Z.sub_diag. reflexivity.
    - simpl negb. cbv iota. rewrite Hurl. eapply bind_eq; [|reflexivity].
      apply (@branch_discard W (tweetId p) (dtoOfTweet W t) notRelevant (gated p s) eq_refl). }
  rewrite Hrun. unfold stOf, evOf. cbn [fst snd]. simpl.
  rewrite (@updateFirst_app_fresh (tweetId p) discarded (posts s) p Hlook eq_refl).
  reflexivity.
Qed.

(* ================================================================== *)
(** * The recovery sweep, step by step *)

Lemma sweep_classification W input ms fallback s o latency :
  Js.truthy (Some (in_text input)) = true \/ List.length (contentPartsOf W input) <> 1%nat ->
  service W (clock s) (contentPartsOf W input) = (o, latency) ->
  withTimeout (classifyTweet W input) ms fallback s
  = (Ok (if Z.of_nat latency <=? ms then answerOf o else fallback),
     setClock (clock s + (if Z.of_nat latency <=? ms then Z.of_nat latency else ms)) s,
     [EvAICall (clock s) (contentPartsOf W input)]).
Proof.
  intros Hcall Hs. unfold withTimeout.
  rewrite (@classifyTweet_answer W input s o latency Hcall Hs). simpl.
  replace (clock s + Z.of_nat latency - clock s) with (Z.of_nat latency) by lia.
  destruct (Z.of_nat latency <=? ms); reflexivity.
Qed.

(** One iteration of the sweep on a post that the classifier now finds
    relevant. *)
Lemma retryOne_saved W t s a latency :
  Js.truthy (text t) = true -> tweetId t <> "" -> username t <> "" ->
  service W (clock s) (contentPartsOf W (inputOf (text t) (mediaUrl t)))
  = (SvcJson a, latency) ->
  Z.of_nat latency < AI_TIMEOUT_MS ->
  category a <> "error" -> category a <> "not-relevant" ->
  storable W a = true ->
  existsb (iaHasId (tweetId t)) (tweetsIA s) = false ->
  let dto := dtoOfPost t a (enrichedList W (contracts a)) (clock s + Z.of_nat latency) in
  retryOne W t s
  = (Ok false,
     {| posts := updateFirst (tweetId t) processed (posts s);
        tweetsIA := tweetsIA s ++ [castTweetIA dto];
        clock := clock s + Z.of_nat latency; lastAICallTime := lastAICallTime s |},
     [EvRetrying (tweetId t)] ++
     ([EvAICall (clock s) (contentPartsOf W (inputOf (text t) (mediaUrl t)))] ++
      enrichEvents W (contracts a) ++
      [EvDiscord (channelFor (category a)) dto; EvTweetIASave (tweetId t);
       EvPostUpdate (Some (tweetId t)) processed])).
Proof.
  intros Htext Hid Hun Hsvc Hlat Hne Hnr Hst Hfresh dto.
  unfold retryOne. eapply bind_eq; [reflexivity|].
  apply tryCatch_ok. eapply bind_eq.
  - apply (@sweep_classification W (inputOf (text t) (mediaUrl t)) AI_TIMEOUT_MS errorSentinel
             s (SvcJson a) latency); [|exact Hsvc].
    left. now rewrite inputOf_truthy.
  - apply Z.lt_le_incl, Z.leb_le in Hlat. rewrite Hlat. change (answerOf (SvcJson a)) with a.
    apply String.eqb_neq in Hne. rewrite Hne. simpl negb. cbv iota.
    apply (@branch_saved W (tweetId t) (dtoOfPost t) a
             (setClock (clock s + Z.of_nat latency) s) Hnr).
    + intros; reflexivity.
    + intros; reflexivity.
    + unfold validTweetIA, dtoOfPost.
      cbn [ia_tweetId ia_username ia_text ia_timestamp ia_contracts ia_enriched].
      destruct (truthy_required _ Htext) as [x Hx]. rewrite Hx.
      unfold requiredStr. apply String.eqb_neq in Hid, Hun. rewrite Hid, Hun.
      exact Hst.
    + exact Hfresh.
Qed.

(** X8.  A post left [unprocessed] by a run whose classification takes more
    than 20000 ms is recovered by the next sweep: when the classifier then
    answers in time with a relevant category, every contract of the answer
    has an address and no price is NaN, the post becomes [processed], its
    classified post is stored (without the media url), and over the two
    invocations it is requested twice and notified exactly once. *)
Theorem timeout_then_sweep_recovers (W : World) (t : Tweet) (s : State) (p : RawPost)
        (o : ServiceOutcome) (lat1 : nat) (a : Analysis) (lat2 : nat) (limit : nat) :
  existing t s = None ->
  validatePost (newPost W (clock s) t) = Some p ->
  Js.truthy (tw_text t) = true ->
  filter isUnprocessed (posts s) = [] ->
  existsb (iaHasId (tweetId p)) (tweetsIA s) = false ->
  service W (gateTime s) (contentPartsOf W (inputOf (tw_text t) (tw_mediaUrl t)))
  = (o, lat1) ->
  20000 < Z.of_nat lat1 ->
  service W (gateTime s + 20000) (contentPartsOf W (inputOf (tw_text t) (tw_mediaUrl t)))
  = (SvcJson a, lat2) ->
  Z.of_nat lat2 < AI_TIMEOUT_MS ->
  category a <> "error" -> category a <> "not-relevant" ->
  storable W a = true ->
  (0 < limit)%nat ->
  let r1 := processTweet W t s in
  let r2 := retryFailedAI W limit (stOf r1) in
  posts (stOf r2) = posts s ++ [withStatus processed p] /\
  tweetsIA (stOf r2)
  = tweetsIA s ++ [castTweetIA (dtoOfPost p a (enrichedList W (contracts a))
                                          (timestamp p))] /\
  notifications (evOf r1 ++ evOf r2) = [(channelFor (category a), category a)] /\
  List.length (aiCallTimes (evOf r1 ++ evOf r2)) = 2%nat.
Proof.
  intros Hex Hv Htext Hnone Hfresh Hsvc1 Hlat1 Hsvc2 Hlat2 Hne Hnr Hstor Hlimit r1 r2.
  destruct (validatePost_fields _ Hv) as [Hid [Hun [_ [Htx [Hmedia [_ Hst]]]]]].
  cbn [newPost d_tweetId d_username d_text d_mediaUrl] in Hid, Hun, Htx, Hmedia.
  destruct (requiredStr_Some _ Hid) as [Hurl Hidne].
  destruct (requiredStr_Some _ Hun) as [_ Hunne].
  assert (Hlook : lookupPost (tweetId p) (posts s) = None).
  { unfold existing in Hex. now rewrite Hurl in Hex. }
  set (s1 := {| posts := posts s ++ [p]; tweetsIA := tweetsIA s;
                clock := gateTime s + 20000; lastAICallTime := gateTime s |}).
  assert (H1 : r1 = (Ok tt, s1,
                     [EvPostSave (tweetId p);
                      EvAICall (gateTime s)
                               (contentPartsOf W (inputOf (tw_text t) (tw_mediaUrl t)));
                      EvPostUpdate (Some (tweetId p)) unprocessed])).
  { unfold r1. apply (@processTweet_timeout_eq W t s p o lat1); auto. }
  set (dto := dtoOfPost p a (enrichedList W (contracts a)) (gateTime s + 20000 + Z.of_nat lat2)).
  assert (H2 : retryFailedAI W limit s1
               = (Ok tt,
                  {| posts := updateFirst (tweetId p) processed (posts s1);
                     tweetsIA := tweetsIA s1 ++ [castTweetIA dto];
                     clock := clock s1 + Z.of_nat lat2; lastAICallTime := lastAICallTime s1 |},
                  [] ++
                  ([EvRetrying (tweetId p)] ++
                   ([EvAICall (clock s1) (contentPartsOf W (inputOf (text p) (mediaUrl p)))] ++
                    enrichEvents W (contracts a) ++
                    [EvDiscord (channelFor (category a)) dto; EvTweetIASave (tweetId p);
                     EvPostUpdate (Some (tweetId p)) processed])) ++ [])).
  { destruct limit as [|n]; [lia|]. unfold retryFailedAI. eapply bind_eq.
    - unfold Post_find_unprocessed. cbn [posts s1]. rewrite filter_app, Hnone.
      simpl. unfold isUnprocessed. rewrite Hst. simpl. reflexivity.
    - simpl retryLoop. eapply bind_eq.
      + apply (@retryOne_saved W p s1 a lat2); auto.
        * now rewrite Htx.
        * rewrite Htx, Hmedia. exact Hsvc2.
      + cbv iota. rewrite firstn_nil. reflexivity. }
  unfold r2. rewrite H1. unfold stOf, evOf. cbn [fst snd]. rewrite H2. cbn [fst snd].
  destruct (quiet_enrichEvents W (contracts a)) as [Hq1 Hq2].
  cbn [posts tweetsIA s1].
  split; [now apply updateFirst_app_fresh|]. split; [reflexivity|].
  rewrite !notifications_app, !aiCallTimes_app, Hq1, Hq2. split; reflexivity.
Qed.

(** X10.  A sweep with a limit of at least 1 (the worker passes 5) is a no-op
    exactly when the store holds no [unprocessed] post. *)
Theorem sweep_noop_iff (W : World) (limit : nat) (s : State) :
  (0 < limit)%nat ->
  (retryFailedAI W limit s = (Ok tt, s, []) <->
   filter isUnprocessed (posts s) = []).
Proof.
  intros Hlimit. destruct limit as [|n]; [lia|].
  unfold retryFailedAI, bind, Post_find_unprocessed.
  destruct (filter isUnprocessed (posts s)) as [|t rest].
  - simpl. split; reflexivity.
  - split; [|discriminate]. cbn [firstn retryLoop]. unfold bind.
    destruct (retryOne_step W t s) as [b [s1 [ev1 [H1 _]]]]. rewrite H1.
    destruct ((if b then ret tt else retryLoop W (firstn n rest)) s1) as [[r2 s2] ev2].
    simpl. discriminate.
Qed.

Lemma classifyTweet_events W input s :
  evOf (classifyTweet W input s) = [] \/
  evOf (classifyTweet W input s) = [EvAICall (clock s) (contentPartsOf W input)].
Proof.
  unfold classifyTweet. destruct (negb _ && _); [left; reflexivity|].
  right. unfold tryCatch, generateAndParse.
  destruct (service W (clock s) (contentPartsOf W input)) as [o latency].
  destruct o; reflexivity.
Qed.

Lemma branchOnOutcome_budget W key mkDto a s :
  (forall x e n, ia_category (mkDto x e n) = category x) ->
  (List.length (notifications (evOf (branchOnOutcome W key mkDto a s))) <= 1)%nat /\
  aiCallTimes (evOf (branchOnOutcome W key mkDto a s)) = [].
Proof.
  intros Hcat. split.
  - destruct (String.eqb_spec (category a) "not-relevant") as [E|E].
    + unfold branchOnOutcome. unfold bind at 1. rewrite enrichment_run.
      apply String.eqb_eq in E. rewrite E.
      destruct (quiet_enrichEvents W (contracts a)) as [Hq _].
      unfold bind, Post_findOneAndUpdate, ret, evOf. simpl.
      rewrite !notifications_app, Hq. simpl. apply Nat.le_0_l.
    + rewrite (@branchOnOutcome_notifications W key mkDto a s Hcat E). simpl. lia.
  - apply aiCallTimes_none.
    apply (@branchOnOutcome_trace notAICall); intros; exact I.
Qed.

(** One iteration of the sweep makes at most one request to the classifier
    and sends at most one notification. *)
Lemma retryOne_budget W t s :
  (List.length (aiCallTimes (evOf (retryOne W t s))) <= 1)%nat /\
  (List.length (notifications (evOf (retryOne W t s))) <= 1)%nat.
Proof.
  unfold retryOne.
  set (input := {| in_text := Js.orStr (text t) "";
                   in_mediaUrl := mediaUrl t;
                   in_mimeType := Some "image/jpeg" |}).
  set (C := withTimeout (classifyTweet W input) AI_TIMEOUT_MS errorSentinel).
  assert (HCev : evOf (C s) = evOf (classifyTweet W input s)) by apply withTimeout_events.
  destruct (@total_withTimeout _ (classifyTweet W input) AI_TIMEOUT_MS errorSentinel
              (@total_classifyTweet W input) s) as [a Ha].
  fold C in Ha.
  destruct (C s) as [[rc s1] ev1] eqn:EC. unfold resOf, evOf in Ha, HCev. simpl in Ha, HCev.
  subst rc.
  assert (Hev1 : (List.length (aiCallTimes ev1) <= 1)%nat /\ notifications ev1 = []).
  { rewrite HCev. destruct (classifyTweet_events W input s) as [E|E];
      unfold evOf in E; rewrite E; simpl; split; auto. }
  set (K := if negb (category a =? "error")%string
            then branchOnOutcome W (Some (tweetId t)) (dtoOfPost t) a
            else ret false).
  assert (HK : (List.length (notifications (evOf (K s1))) <= 1)%nat /\
               aiCallTimes (evOf (K s1)) = []).
  { unfold K. destruct (negb _).
    - apply branchOnOutcome_budget. intros; reflexivity.
    - simpl. split; auto. }
  destruct Hev1 as [Hc Hn]. destruct HK as [Hkn Hkc].
  assert (Hev : evOf ((emit (EvRetrying (tweetId t)) ;;;
                       tryCatch (analysis <- C ;;
                                 if negb (category analysis =? "error")%string
                                 then branchOnOutcome W (Some (tweetId t)) (dtoOfPost t) analysis
                                 else ret false)
                                (fun _ => ret false)) s)
                = [EvRetrying (tweetId t)] ++ ev1 ++ evOf (K s1)).
  { unfold bind, emit, tryCatch. rewrite EC. fold K.
    destruct (K s1) as [[[b|e] s2] ev2]; unfold evOf; simpl; rewrite ?app_nil_r; reflexivity. }
  rewrite Hev, !aiCallTimes_app, !notifications_app, Hn, Hkc, !length_app.
  simpl. split; lia.
Qed.

Lemma retryLoop_budget W pending :
  forall s,
    (List.length (aiCallTimes (evOf (retryLoop W pending s))) <= List.length pending)%nat /\
    (List.length (notifications (evOf (retryLoop W pending s))) <= List.length pending)%nat.
Proof.
  induction pending as [|t rest IH]; intros s; [simpl; split; lia|].
  simpl retryLoop. unfold bind.
  destruct (retryOne_budget W t s) as [Hc Hn].
  destruct (retryOne W t s) as [[[b|e] s1] ev1]; unfold evOf in *; cbn [fst snd] in *.
  - destruct b.
    + simpl. rewrite app_nil_r. simpl. split; lia.
    + specialize (IH s1). destruct (retryLoop W rest s1) as [[r2 s2] ev2].
      cbn [fst snd] in *. rewrite aiCallTimes_app, notifications_app, !length_app.
      simpl. split; lia.
  - simpl. split; lia.
Qed.

Lemma retryFailedAI_budget W limit s :
  (List.length (aiCallTimes (evOf (retryFailedAI W limit s))) <= limit)%nat /\
  (List.length (notifications (evOf (retryFailedAI W limit s))) <= limit)%nat.
Proof.
  unfold retryFailedAI, bind, Post_find_unprocessed.
  pose proof (retryLoop_budget W (firstn limit (filter isUnprocessed (posts s))) s) as H.
  destruct (retryLoop W (firstn limit (filter isUnprocessed (posts s))) s) as [[r2 s2] ev2].
  unfold evOf in *. cbn [fst snd] in *. simpl.
  pose proof (firstn_le_length limit (filter isUnprocessed (posts s))).
  lia.
Qed.

(** X11.  One sweep with a limit of at least 1 (the worker passes 5) makes at
    most [limit] requests to the classifier and sends at most [limit]
    notifications, whatever the store holds; each selected post accounts for
    at most one of each. *)
Theorem sweep_budget (W : World) (limit : nat) (s : State) :
  (0 < limit)%nat ->
  (List.length (aiCallTimes (evOf (retryFailedAI W limit s))) <= limit)%nat /\
  (List.length (notifications (evOf (retryFailedAI W limit s))) <= limit)%nat /\
  (forall pending s0,
      List.length (aiCallTimes (evOf (retryLoop W pending s0))) <= List.length pending /\
      List.length (notifications (evOf (retryLoop W pending s0))) <= List.length pending)%nat.
Proof.
  intros _.
  unfold retryFailedAI, bind, Post_find_unprocessed.
  set (pending := firstn limit (filter isUnprocessed (posts s))).
  assert (Hlen : (List.length pending <= limit)%nat) by apply firstn_le_length.
  pose proof (retryLoop_budget W pending s) as [Hc Hn].
  destruct (retryLoop W pending s) as [[r2 s2] ev2].
  unfold evOf in *. cbn [fst snd app] in *.
  split; [lia|]. split; [lia|].
  intros pending0 s0. apply retryLoop_budget.
Qed.

(* ================================================================== *)
(** * retryWithBackoff *)

Lemma setClock_same s : setClock (clock s) s = s.
Proof. destruct s. reflexivity. Qed.

(** X12.  Against a function that keeps failing with status 503, the helper makes
    [retries + 1] attempts, waits [delay], [2 delay], [4 delay], ... between
    them ([delay * (2 ^ retries - 1)] in all) and rethrows the last error. *)
Theorem retryWithBackoff_exhausts (A : Type) (fn : M A) (ev : list Event)
        (retries : nat) :
  (forall s, fn s = (Throw (ErrStatus 503), s, ev)) ->
  forall delay s,
    retryWithBackoff fn retries delay s
    = (Throw (ErrStatus 503),
       setClock (clock s + delay * (2 ^ Z.of_nat retries - 1)) s,
       concat (repeat ev (S retries))).
Proof.
  intros Hfn. induction retries as [|r IH]; intros delay s.
  - simpl. unfold tryCatch, throw. rewrite Hfn.
    cbn [Z.of_nat]. change (2 ^ 0 - 1) with 0. rewrite Z.mul_0_r, Z.add_0_r.
    rewrite setClock_same. cbn [repeat concat]. now rewrite !app_nil_r.
  - cbn [retryWithBackoff]. unfold tryCatch. rewrite Hfn. cbn [status503].
    change (503 =? 503) with true. cbv iota.
    unfold bind, sleep. rewrite IH. cbn [clock].
    replace (clock s + delay + delay * 2 * (2 ^ Z.of_nat r - 1))
      with (clock s + delay * (2 ^ Z.of_nat (S r) - 1)).
    + reflexivity.
    + rewrite Nat2Z.inj_succ, Z.pow_succ_r by lia. lia.
Qed.

(** X13.  An outcome other than a 503 rejection is passed through after a single
    attempt, without any wait: a result, or an error with another status. *)
Theorem retryWithBackoff_passthrough (A : Type) (fn : M A) (retries : nat) (delay : Z)
        (s : State) :
  (forall e, resOf (fn s) = Throw e -> status503 e = false) ->
  retryWithBackoff fn retries delay s = fn s.
Proof.
  intros H. destruct (fn s) as [[[a|e] s1] ev1] eqn:E.
  - destruct retries; simpl; unfold tryCatch; now rewrite E.
  - assert (He : status503 e = false) by (apply H; reflexivity).
    destruct retries; simpl; unfold tryCatch; rewrite E; rewrite ?He;
      unfold throw; now rewrite app_nil_r.
Qed.

(* ================================================================== *)
(** * utils/getDataDexScreener.ts *)

Lemma betterPair_cases best current :
  (betterPair best current = Some current /\
   (match best with Some b => liquidityOf b | None => 0 end < liquidityOf current)%Q) \/
  (betterPair best current = best /\
   (liquidityOf current <= match best with Some b => liquidityOf b | None => 0 end)%Q).
Proof.
  unfold betterPair, liquidityOf.
  destruct (Qle_bool _ _) eqn:E; simpl.
  - right. split; [reflexivity|]. now apply Qle_bool_iff.
  - left. split; [reflexivity|]. apply Qnot_le_lt. intros H.
    apply Qle_bool_iff in H. congruence.
Qed.

Lemma fold_betterPair pairs :
  forall best,
    let liq := fun o : option DexScreenerPair =>
                 match o with Some b => liquidityOf b | None => 0%Q end in
    let r := fold_left betterPair pairs best in
    (liq best <= liq r)%Q /\
    (forall q, In q pairs -> (liquidityOf q <= liq r)%Q) /\
    (r = best \/ exists b, r = Some b /\ In b pairs /\ (liq best < liquidityOf b)%Q).
Proof.
  induction pairs as [|c rest IH]; intros best liq r.
  - simpl in *. split; [apply Qle_refl|]. split; [tauto | now left].
  - simpl in r. specialize (IH (betterPair best c)).
    cbv zeta in IH. fold liq in IH. fold r in IH.
    destruct IH as [Hmono [Hall Hor]].
    destruct (betterPair_cases best c) as [[Hb Hlt]|[Hb Hle]]; fold (liq best) in *;
      rewrite Hb in *; cbn [liq] in Hmono.
    + split; [fold (liq r) in *; lra|]. split.
      * intros q [<-|Hq]; [exact Hmono | now apply Hall].
      * right. destruct Hor as [Hr|[b [Hr [Hin Hgt]]]].
        -- exists c. split; [exact Hr|]. split; [now left | exact Hlt].
        -- exists b. split; [exact Hr|]. split; [now right|]. cbn [liq] in Hgt. lra.
    + split; [exact Hmono|]. split.
      * intros q [<-|Hq]; [lra | now apply Hall].
      * destruct Hor as [Hr|[b [Hr [Hin Hgt]]]]; [now left|].
        right. exists b. split; [exact Hr|]. split; [now right | exact Hgt].
Qed.

(** X14.  The pair returned for a token is one of the pairs DexScreener lists, its
    liquidity is strictly positive and no listed pair has more; when no
    listed pair has positive liquidity the token is reported as not found. *)
Theorem bestPair_maximal (W : World) (addr : string) (s : State)
        (pairs : list DexScreenerPair) :
  dexGet W addr = Some pairs ->
  match resOf (getTokenDataFromDexScreener W addr s) with
  | Ok (Some b) =>
      In b pairs /\ (0 < liquidityOf b)%Q /\
      forall q, In q pairs -> (liquidityOf q <= liquidityOf b)%Q
  | Ok None => forall q, In q pairs -> (liquidityOf q <= 0)%Q
  | Throw _ => False
  end.
Proof.
  intros Hget. unfold getTokenDataFromDexScreener. rewrite Hget.
  destruct pairs as [|c rest]; [simpl; tauto|].
  cbn [List.length Nat.eqb]. unfold ret, resOf. cbn [fst].
  destruct (fold_betterPair (c :: rest) None) as [_ [Hall Hor]].
  destruct (fold_left betterPair (c :: rest) None) as [b|].
  - destruct Hor as [Hr|[b' [Hr [Hin Hgt]]]]; [discriminate|].
    inversion Hr; subst b'. auto.
  - exact Hall.
Qed.

Lemma pairOf_positive W addr td :
  pairOf W addr = Some td -> exists q, liquidityUsd td = Some q /\ (0 < q)%Q.
Proof.
  unfold pairOf. destruct (dexGet W addr) as [pairs|]; [|discriminate].
  intros H. destruct (fold_betterPair pairs None) as [_ [_ Hor]].
  rewrite H in Hor. destruct Hor as [Hr|[b [Hr [_ Hgt]]]]; [discriminate|].
  inversion Hr; subst b. unfold liquidityOf, Js.orNum in Hgt.
  destruct (liquidityUsd td) as [q|]; [|lra].
  exists q. split; [reflexivity|]. destruct (Qeq_bool q 0); [lra | exact Hgt].
Qed.

(** X15.  The enrichment of a list of contracts never fails and leaves the
    store alone; every entry of its result carries the address of one of the
    contracts the classifier reported and a present, strictly positive
    liquidity. *)
Theorem enriched_liquidity_positive (W : World) (cs : list Contract) (s : State) :
  exists l,
    resOf (enrichContracts W cs s) = Ok l /\
    posts (stOf (enrichContracts W cs s)) = posts s /\
    tweetsIA (stOf (enrichContracts W cs s)) = tweetsIA s /\
    forall e, In e l ->
              In (e_address e) (map address cs) /\
              exists q, e_liquidity e = Some q /\ (0 < q)%Q.
Proof.
  exists (enrichedList W cs). rewrite enrichContracts_run.
  unfold resOf, stOf. cbn [fst snd].
  split; [reflexivity|]. split; [reflexivity|]. split; [reflexivity|].
  intros e Hin.
  unfold enrichedList in Hin. apply in_flat_map in Hin. destruct Hin as [c [Hc He]].
  destruct (pairOf W (address c)) as [td|] eqn:Hp; [|contradiction].
  destruct He as [<-|[]]. split.
  - simpl. now apply in_map.
  - simpl. now apply (@pairOf_positive W (address c)).
Qed.

(* ================================================================== *)
(** * The paths of a run and of a sweep, on the scenarios *)

Lemma pipeline_relevant_post_witness :
  (existing Sample.candidate Sample.emptyState = None /\
   validatePost (newPost Scenario.alerting (clock Sample.emptyState) Sample.candidate)
   = Some Scenario.storedCandidate /\
   Js.truthy (tw_text Sample.candidate) = true /\
   service Scenario.alerting (gateTime Sample.emptyState)
           (contentPartsOf Scenario.alerting
              (inputOf (tw_text Sample.candidate) (tw_mediaUrl Sample.candidate)))
   = (SvcJson Sample.contractAlert, 100%nat) /\
   Z.of_nat 100 <= 20000 /\
   category Sample.contractAlert <> "error" /\
   category Sample.contractAlert <> "not-relevant" /\
   existsb (iaHasId (tweetId Scenario.storedCandidate)) (tweetsIA Sample.emptyState) = false) /\
  storable Scenario.alerting Sample.contractAlert = true /\
  statusOf "/user/status/1"
           (stOf (processTweet Scenario.alerting Sample.candidate Sample.emptyState))
  = Some processed.
Proof.
  assert (H1 : existing Sample.candidate Sample.emptyState = None) by reflexivity.
  assert (H2 : validatePost (newPost Scenario.alerting (clock Sample.emptyState)
                                     Sample.candidate)
               = Some Scenario.storedCandidate) by reflexivity.
  assert (H3 : Js.truthy (tw_text Sample.candidate) = true) by reflexivity.
  assert (H4 : service Scenario.alerting (gateTime Sample.emptyState)
                       (contentPartsOf Scenario.alerting
                          (inputOf (tw_text Sample.candidate) (tw_mediaUrl Sample.candidate)))
               = (SvcJson Sample.contractAlert, 100%nat)) by reflexivity.
  assert (H5 : Z.of_nat 100 <= 20000) by (vm_compute; discriminate).
  assert (H6 : category Sample.contractAlert <> "error") by discriminate.
  assert (H7 : category Sample.contractAlert <> "not-relevant") by discriminate.
  assert (H8 : existsb (iaHasId (tweetId Scenario.storedCandidate))
                       (tweetsIA Sample.emptyState) = false) by reflexivity.
  assert (H9 : storable Scenario.alerting Sample.contractAlert = true) by reflexivity.
  split; [repeat split; assumption|]. split; [exact H9|].
  exact (proj1 (proj1 (proj2 (proj2
                  (@pipeline_relevant_post Scenario.alerting Sample.candidate
                     Sample.emptyState Scenario.storedCandidate Sample.contractAlert 100%nat
                     H1 H2 H3 H4 H5 H6 H7 H8))) H9)).
Defined.

Lemma pipeline_discards_not_relevant_witness :
  (existing Sample.candidate Sample.emptyState = None /\
   validatePost (newPost Scenario.dismissing (clock Sample.emptyState) Sample.candidate)
   = Some Scenario.storedCandidate /\
   (Js.truthy (tw_text Sample.candidate) = true \/
    List.length (contentPartsOf Scenario.dismissing
                   (inputOf (tw_text Sample.candidate) (tw_mediaUrl Sample.candidate)))
    <> 1%nat) /\
   service Scenario.dismissing (gateTime Sample.emptyState)
           (contentPartsOf Scenario.dismissing
              (inputOf (tw_text Sample.candidate) (tw_mediaUrl Sample.candidate)))
   = (SvcJson notRelevant, 100%nat) /\
   Z.of_nat 100 < 20000 /\
   category (answerOf (SvcJson notRelevant)) = "not-relevant") /\
  posts (stOf (processTweet Scenario.dismissing Sample.candidate Sample.emptyState))
  = posts Sample.emptyState ++ [withStatus discarded Scenario.storedCandidate].
Proof.
  assert (H1 : existing Sample.candidate Sample.emptyState = None) by reflexivity.
  assert (H2 : validatePost (newPost Scenario.dismissing (clock Sample.emptyState)
                                     Sample.candidate)
               = Some Scenario.storedCandidate) by reflexivity.
  assert (H3 : Js.truthy (tw_text Sample.candidate) = true \/
               List.length (contentPartsOf Scenario.dismissing
                              (inputOf (tw_text Sample.candidate)
                                       (tw_mediaUrl Sample.candidate))) <> 1%nat)
    by (left; reflexivity).
  assert (H4 : service Scenario.dismissing (gateTime Sample.emptyState)
                       (contentPartsOf Scenario.dismissing
                          (inputOf (tw_text Sample.candidate) (tw_mediaUrl Sample.candidate)))
               = (SvcJson notRelevant, 100%nat)) by reflexivity.
  assert (H5 : Z.of_nat 100 < 20000) by (vm_compute; reflexivity).
  assert (H6 : category (answerOf (SvcJson notRelevant)) = "not-relevant") by reflexivity.
  split; [repeat split; assumption|].
  exact (proj1 (@pipeline_discards_not_relevant Scenario.dismissing Sample.candidate
                  Sample.emptyState Scenario.storedCandidate (SvcJson notRelevant) 100%nat
                  H1 H2 H3 H4 H5 H6)).
Defined.


Lemma pipeline_media_only_unsaved_witness :
  (existing Scenario.picture Sample.emptyState = None /\
   validatePost (newPost (Scenario.withImages Sample.contractAlert)
                         (clock Sample.emptyState) Scenario.picture)
   = Some Scenario.storedPicture /\
   Js.truthy (tw_text Scenario.picture) = false /\
   List.length (contentPartsOf (Scenario.withImages Sample.contractAlert)
                  (inputOf (tw_text Scenario.picture) (tw_mediaUrl Scenario.picture)))
   <> 1%nat /\
   service (Scenario.withImages Sample.contractAlert) (gateTime Sample.emptyState)
           (contentPartsOf (Scenario.withImages Sample.contractAlert)
              (inputOf (tw_text Scenario.picture) (tw_mediaUrl Scenario.picture)))
   = (SvcJson Sample.contractAlert, 100%nat) /\
   Z.of_nat 100 < 20000 /\
   category Sample.contractAlert <> "error" /\
   category Sample.contractAlert <> "not-relevant") /\
  posts (stOf (processTweet (Scenario.withImages Sample.contractAlert)
                            Scenario.picture Sample.emptyState))
  = posts Sample.emptyState ++ [Scenario.storedPicture].
Proof.
  assert (H1 : existing Scenario.picture Sample.emptyState = None) by reflexivity.
  assert (H2 : validatePost (newPost (Scenario.withImages Sample.contractAlert)
                                     (clock Sample.emptyState) Scenario.picture)
               = Some Scenario.storedPicture) by reflexivity.
  assert (H3 : Js.truthy (tw_text Scenario.picture) = false) by reflexivity.
  assert (H4 : List.length (contentPartsOf (Scenario.withImages Sample.contractAlert)
                              (inputOf (tw_text Scenario.picture)
                                       (tw_mediaUrl Scenario.picture))) <> 1%nat)
    by (vm_compute; discriminate).
  assert (H5 : service (Scenario.withImages Sample.contractAlert) (gateTime Sample.emptyState)
                       (contentPartsOf (Scenario.withImages Sample.contractAlert)
                          (inputOf (tw_text Scenario.picture) (tw_mediaUrl Scenario.picture)))
               = (SvcJson Sample.contractAlert, 100%nat)) by reflexivity.
  assert (H6 : Z.of_nat 100 < 20000) by (vm_compute; reflexivity).
  assert (H7 : category Sample.contractAlert <> "error") by discriminate.
  assert (H8 : category Sample.contractAlert <> "not-relevant") by discriminate.
  split; [repeat split; assumption|].
  exact (proj1 (@pipeline_media_only_unsaved (Scenario.withImages Sample.contractAlert)
                  Scenario.picture Sample.emptyState Scenario.storedPicture
                  Sample.contractAlert 100%nat H1 H2 H3 H4 H5 H6 H7 H8)).
Defined.

Lemma pipeline_empty_post_discarded_witness :
  (existing Scenario.picture Sample.emptyState = None /\
   validatePost (newPost Scenario.alerting (clock Sample.emptyState) Scenario.picture)
   = Some Scenario.storedPicture /\
   Js.truthy (tw_text Scenario.picture) = false /\
   List.length (contentPartsOf Scenario.alerting
                  (inputOf (tw_text Scenario.picture) (tw_mediaUrl Scenario.picture)))
   = 1%nat) /\
  processTweet Scenario.alerting Scenario.picture Sample.emptyState
  = (Ok tt,
     {| posts := posts Sample.emptyState ++ [withStatus discarded Scenario.storedPicture];
        tweetsIA := tweetsIA Sample.emptyState;
        clock := gateTime Sample.emptyState; lastAICallTime := gateTime Sample.emptyState |},
     [EvPostSave (tweetId Scenario.storedPicture);
      EvPostUpdate (Some (tweetId Scenario.storedPicture)) discarded]).
Proof.
  assert (H1 : existing Scenario.picture Sample.emptyState = None) by reflexivity.
  assert (H2 : validatePost (newPost Scenario.alerting (clock Sample.emptyState)
                                     Scenario.picture)
               = Some Scenario.storedPicture) by reflexivity.
  assert (H3 : Js.truthy (tw_text Scenario.picture) = false) by reflexivity.
  assert (H4 : List.length (contentPartsOf Scenario.alerting
                              (inputOf (tw_text Scenario.picture)
                                       (tw_mediaUrl Scenario.picture))) = 1%nat)
    by reflexivity.
  split; [repeat split; assumption|].
  exact (@pipeline_empty_post_discarded Scenario.alerting Scenario.picture Sample.emptyState
           Scenario.storedPicture H1 H2 H3 H4).
Defined.

Lemma timeout_then_sweep_recovers_witness :
  (existing Sample.candidate Sample.emptyState = None /\
   validatePost (newPost (Scenario.recovering Sample.contractAlert)
                         (clock Sample.emptyState) Sample.candidate)
   = Some Scenario.storedCandidate /\
   Js.truthy (tw_text Sample.candidate) = true /\
   filter isUnprocessed (posts Sample.emptyState) = [] /\
   existsb (iaHasId (tweetId Scenario.storedCandidate)) (tweetsIA Sample.emptyState) = false /\
   service (Scenario.recovering Sample.contractAlert) (gateTime Sample.emptyState)
           (contentPartsOf (Scenario.recovering Sample.contractAlert)
              (inputOf (tw_text Sample.candidate) (tw_mediaUrl Sample.candidate)))
   = (SvcNoText, Z.to_nat 25000) /\
   20000 < Z.of_nat (Z.to_nat 25000) /\
   service (Scenario.recovering Sample.contractAlert) (gateTime Sample.emptyState + 20000)
           (contentPartsOf (Scenario.recovering Sample.contractAlert)
              (inputOf (tw_text Sample.candidate) (tw_mediaUrl Sample.candidate)))
   = (SvcJson Sample.contractAlert, 100%nat) /\
   Z.of_nat 100 < AI_TIMEOUT_MS /\
   category Sample.contractAlert <> "error" /\
   category Sample.contractAlert <> "not-relevant" /\
   storable (Scenario.recovering Sample.contractAlert) Sample.contractAlert = true /\
   (0 < 5)%nat) /\
  posts (stOf (retryFailedAI (Scenario.recovering Sample.contractAlert) 5
                 (stOf (processTweet (Scenario.recovering Sample.contractAlert)
                                     Sample.candidate Sample.emptyState))))
  = posts Sample.emptyState ++ [withStatus processed Scenario.storedCandidate].
Proof.
  assert (H1 : existing Sample.candidate Sample.emptyState = None) by reflexivity.
  assert (H2 : validatePost (newPost (Scenario.recovering Sample.contractAlert)
                                     (clock Sample.emptyState) Sample.candidate)
               = Some Scenario.storedCandidate) by reflexivity.
  assert (H3 : Js.truthy (tw_text Sample.candidate) = true) by reflexivity.
  assert (H4 : filter isUnprocessed (posts Sample.emptyState) = []) by reflexivity.
  assert (H5 : existsb (iaHasId (tweetId Scenario.storedCandidate))
                       (tweetsIA Sample.emptyState) = false) by reflexivity.
  assert (H6 : service (Scenario.recovering Sample.contractAlert) (gateTime Sample.emptyState)
                       (contentPartsOf (Scenario.recovering Sample.contractAlert)
                          (inputOf (tw_text Sample.candidate) (tw_mediaUrl Sample.candidate)))
               = (SvcNoText, Z.to_nat 25000)) by reflexivity.
  assert (H7 : 20000 < Z.of_nat (Z.to_nat 25000)) by (vm_compute; reflexivity).
  assert (H8 : service (Scenario.recovering Sample.contractAlert)
                       (gateTime Sample.emptyState + 20000)
                       (contentPartsOf (Scenario.recovering Sample.contractAlert)
                          (inputOf (tw_text Sample.candidate) (tw_mediaUrl Sample.candidate)))
               = (SvcJson Sample.contractAlert, 100%nat)) by reflexivity.
  assert (H9 : Z.of_nat 100 < AI_TIMEOUT_MS) by (vm_compute; reflexivity).
  assert (H10 : category Sample.contractAlert <> "error") by discriminate.
  assert (H11 : category Sample.contractAlert <> "not-relevant") by discriminate.
  assert (Hs : storable (Scenario.recovering Sample.contractAlert) Sample.contractAlert
               = true) by reflexivity.
  assert (H12 : (0 < 5)%nat) by (vm_compute; repeat constructor).
  split; [repeat split; assumption|].
  exact (proj1 (@timeout_then_sweep_recovers (Scenario.recovering Sample.contractAlert)
                  Sample.candidate Sample.emptyState Scenario.storedCandidate
                  SvcNoText (Z.to_nat 25000) Sample.contractAlert 100%nat 5%nat
                  H1 H2 H3 H4 H5 H6 H7 H8 H9 H10 H11 Hs H12)).
Defined.

Lemma retryWithBackoff_exhausts_witness :
  (forall s, Scenario.overloaded s
             = (Throw (ErrStatus 503), s, [EvErrorChannel "overloaded"])) /\
  retryWithBackoff Scenario.overloaded 3 2000 Sample.emptyState
  = (Throw (ErrStatus 503),
     setClock (clock Sample.emptyState + 2000 * (2 ^ Z.of_nat 3 - 1)) Sample.emptyState,
     concat (repeat [EvErrorChannel "overloaded"] 4)).
Proof.
  assert (H : forall s, Scenario.overloaded s
                        = (Throw (ErrStatus 503), s, [EvErrorChannel "overloaded"]))
    by (intros s; reflexivity).
  split; [exact H|].
  exact (@retryWithBackoff_exhausts unit Scenario.overloaded [EvErrorChannel "overloaded"] 3
           H 2000 Sample.emptyState).
Defined.

Lemma retryWithBackoff_passthrough_witness :
  (forall e, resOf (classifyTweet (Sample.failing 500 100)
                      (inputOf (tw_text Sample.candidate) None) Sample.emptyState) = Throw e ->
             status503 e = false) /\
  retryWithBackoff (classifyTweet (Sample.failing 500 100)
                      (inputOf (tw_text Sample.candidate) None)) 3 2000 Sample.emptyState
  = classifyTweet (Sample.failing 500 100) (inputOf (tw_text Sample.candidate) None)
                  Sample.emptyState.
Proof.
  assert (H : forall e, resOf (classifyTweet (Sample.failing 500 100)
                                 (inputOf (tw_text Sample.candidate) None)
                                 Sample.emptyState) = Throw e ->
                        status503 e = false)
    by (intros e He; vm_compute in He; discriminate).
  split; [exact H|].
  exact (@retryWithBackoff_passthrough _ (classifyTweet (Sample.failing 500 100)
                                            (inputOf (tw_text Sample.candidate) None))
           3 2000 Sample.emptyState H).
Defined.

Lemma bestPair_maximal_witness :
  dexGet Scenario.alerting "7xKXtg...pump" = Some [Sample.pricedPair] /\
  match resOf (getTokenDataFromDexScreener Scenario.alerting "7xKXtg...pump"
                 Sample.emptyState) with
  | Ok (Some b) =>
      In b [Sample.pricedPair] /\ (0 < liquidityOf b)%Q /\
      forall q, In q [Sample.pricedPair] -> (liquidityOf q <= liquidityOf b)%Q
  | Ok None => forall q, In q [Sample.pricedPair] -> (liquidityOf q <= 0)%Q
  | Throw _ => False
  end.
Proof.
  assert (H : dexGet Scenario.alerting "7xKXtg...pump" = Some [Sample.pricedPair])
    by reflexivity.
  split; [exact H|].
  exact (@bestPair_maximal Scenario.alerting "7xKXtg...pump" Sample.emptyState
           [Sample.pricedPair] H).
Defined.

Lemma enriched_liquidity_positive_witness :
  exists l,
    resOf (enrichContracts Scenario.alerting (contracts Sample.contractAlert)
                           Sample.emptyState) = Ok l /\
    In (enrichedOf Scenario.alerting
          {| address := "7xKXtg...pump"; blockchain := Some "solana" |} Sample.pricedPair) l /\
    forall e, In e l -> exists q, e_liquidity e = Some q /\ (0 < q)%Q.
Proof.
  destruct (@enriched_liquidity_positive Scenario.alerting (contracts Sample.contractAlert)
              Sample.emptyState) as [l [H1 [_ [_ H4]]]].
  exists l. split; [exact H1|]. split.
  - assert (Hl : Ok l
                 = Ok [enrichedOf Scenario.alerting
                         {| address := "7xKXtg...pump"; blockchain := Some "solana" |}
                         Sample.pricedPair])
      by (rewrite <- H1; reflexivity).
    inversion Hl. now left.
  - intros e He. exact (proj2 (H4 e He)).
Defined.

Lemma sweep_noop_iff_witness :
  (0 < 5)%nat /\
  filter isUnprocessed (posts Sample.emptyState) = [] /\
  retryFailedAI (Sample.answering notRelevant 100) 5 Sample.emptyState
  = (Ok tt, Sample.emptyState, []).
Proof.
  assert (H1 : (0 < 5)%nat) by (vm_compute; repeat constructor).
  assert (H2 : filter isUnprocessed (posts Sample.emptyState) = []) by reflexivity.
  split; [exact H1|]. split; [exact H2|].
  exact (proj2 (@sweep_noop_iff (Sample.answering notRelevant 100) 5 Sample.emptyState H1) H2).
Defined.

Lemma sweep_budget_witness :
  (0 < 5)%nat /\
  (List.length (aiCallTimes (evOf (retryFailedAI (Sample.answering notRelevant 100) 5
                                                 Sample.backlog))) <= 5)%nat.
Proof.
  assert (H1 : (0 < 5)%nat) by (vm_compute; repeat constructor).
  split; [exact H1|].
  exact (proj1 (@sweep_budget (Sample.answering notRelevant 100) 5 Sample.backlog H1)).
Defined.

(* ================================================================== *)
(** * What a run stores *)

(** X6.  A candidate that [PostSchema] refuses (no or empty url, no or empty
    username, or a timestamp that [new Date] cannot parse) is dropped
    silently: the validation error is caught, nothing is stored, the
    classifier is not called and nothing is notified. *)
Theorem candidate_rejected_by_schema (W : World) (t : Tweet) (s : State) :
  existing t s = None ->
  requiredStr (tw_url t) = None \/ requiredStr (tw_username t) = None \/
  dateOf W (clock s) (tw_timestamp t) = None ->
  processTweet W t s = (Ok tt, s, []).
Proof.
  intros Hex Hbad. apply processTweet_rejected; [exact Hex|].
  unfold validatePost, newPost. cbn [d_tweetId d_username d_timestamp].
  destruct Hbad as [H|[H|H]]; rewrite H.
  - reflexivity.
  - destruct (requiredStr (tw_url t)); reflexivity.
  - destruct (requiredStr (tw_url t)); [|reflexivity].
    destruct (requiredStr (tw_username t)); reflexivity.
Qed.

Lemma candidate_rejected_by_schema_witness :
  (existing (Scheduler.markScrapedFor profile
               {| tw_username := Some "solana"; tw_text := Some "gm"; tw_url := Some "";
                  tw_timestamp := Some ""; tw_mediaUrl := None; tw_scrapedFor := None |})
            Sample.emptyState = None /\
   (requiredStr (tw_url (Scheduler.markScrapedFor profile
               {| tw_username := Some "solana"; tw_text := Some "gm"; tw_url := Some "";
                  tw_timestamp := Some ""; tw_mediaUrl := None; tw_scrapedFor := None |}))
    = None \/
    requiredStr (tw_username (Scheduler.markScrapedFor profile
               {| tw_username := Some "solana"; tw_text := Some "gm"; tw_url := Some "";
                  tw_timestamp := Some ""; tw_mediaUrl := None; tw_scrapedFor := None |}))
    = None \/
    dateOf Scenario.alerting (clock Sample.emptyState)
           (tw_timestamp (Scheduler.markScrapedFor profile
               {| tw_username := Some "solana"; tw_text := Some "gm"; tw_url := Some "";
                  tw_timestamp := Some ""; tw_mediaUrl := None; tw_scrapedFor := None |}))
    = None)) /\
  processTweet Scenario.alerting
    (Scheduler.markScrapedFor profile
       {| tw_username := Some "solana"; tw_text := Some "gm"; tw_url := Some "";
          tw_timestamp := Some ""; tw_mediaUrl := None; tw_scrapedFor := None |})
    Sample.emptyState
  = (Ok tt, Sample.emptyState, []).
Proof.
  split; [split; [reflexivity | left; reflexivity]|].
  apply (@candidate_rejected_by_schema Scenario.alerting _ Sample.emptyState);
    [reflexivity | left; reflexivity].
Defined.

Lemma validatePost_complete W t n id u ts :
  tw_url t = Some id -> id <> "" ->
  tw_username t = Some u -> u <> "" ->
  dateOf W n (tw_timestamp t) = Some ts ->
  validatePost (newPost W n t)
  = Some {| tweetId := id; username := u; text := tw_text t; timestamp := ts;
            mediaUrl := tw_mediaUrl t; status := unprocessed;
            scrapedFor := match tw_scrapedFor t with Some src => src | None => feed end |}.
Proof.
  intros Hurl Hid Hun Hu Hts. unfold validatePost, newPost.
  cbn [d_tweetId d_username d_timestamp d_text d_mediaUrl d_scrapedFor].
  rewrite Hurl, Hun, Hts. unfold requiredStr.
  apply String.eqb_neq in Hid, Hu. now rewrite Hid, Hu.
Qed.

Lemma lookupPost_appended ps q :
  lookupPost (tweetId q) ps = None -> lookupPost (tweetId q) (ps ++ [q]) = Some q.
Proof.
  intros Hlook. rewrite (@lookupPost_app_r (tweetId q) ps _ Hlook).
  unfold lookupPost, hasId. simpl. now rewrite String.eqb_refl.
Qed.

(** X7.  A candidate that is new and complete is appended to the raw posts with
    its own fields: the url as identifier, the username, text and media url
    as scraped, the parsed date (the clock when the candidate has none), and
    the source it was scraped for, ['feed'] when none was set. *)
Theorem stored_post_matches_candidate (W : World) (t : Tweet) (s : State)
        (id u : string) (ts : Z) :
  tw_url t = Some id -> id <> "" ->
  tw_username t = Some u -> u <> "" ->
  dateOf W (clock s) (tw_timestamp t) = Some ts ->
  lookupPost id (posts s) = None ->
  exists st,
    let stored :=
      {| tweetId := id; username := u; text := tw_text t; timestamp := ts;
         mediaUrl := tw_mediaUrl t; status := st;
         scrapedFor := match tw_scrapedFor t with Some src => src | None => feed end |} in
    posts (stOf (processTweet W t s)) = posts s ++ [stored] /\
    lookupPost id (posts (stOf (processTweet W t s))) = Some stored.
Proof.
  intros Hurl Hid Hun Hu Hts Hlook.
  pose proof (@validatePost_complete W t (clock s) id u ts Hurl Hid Hun Hu Hts) as Hv.
  assert (Hex : existing t s = None) by (unfold existing; now rewrite Hurl).
  destruct (@processTweet_fresh W t s _ Hex Hv s eq_refl) as [[] [_ [[st Hp] _]]].
  exists st. cbv zeta. unfold withStatus in Hp. cbn [tweetId username text timestamp
    mediaUrl scrapedFor] in Hp.
  split; [exact Hp|]. rewrite Hp.
  match goal with
  | |- lookupPost _ (_ ++ [?q]) = _ => apply (@lookupPost_appended (posts s) q)
  end.
  exact Hlook.
Qed.

Lemma stored_post_matches_candidate_witness :
  (tw_url Sample.candidate = Some "/user/status/1" /\ "/user/status/1" <> "" /\
   tw_username Sample.candidate = Some "user" /\ "user" <> "" /\
   dateOf Scenario.alerting (clock Sample.emptyState) (tw_timestamp Sample.candidate)
   = Some 1735689600000 /\
   lookupPost "/user/status/1" (posts Sample.emptyState) = None) /\
  exists st,
    let stored :=
      {| tweetId := "/user/status/1"; username := "user";
         text := tw_text Sample.candidate; timestamp := 1735689600000;
         mediaUrl := tw_mediaUrl Sample.candidate; status := st;
         scrapedFor := match tw_scrapedFor Sample.candidate with
                       | Some src => src | None => feed end |} in
    posts (stOf (processTweet Scenario.alerting Sample.candidate Sample.emptyState))
    = posts Sample.emptyState ++ [stored] /\
    lookupPost "/user/status/1"
      (posts (stOf (processTweet Scenario.alerting Sample.candidate Sample.emptyState)))
    = Some stored.
Proof.
  assert (H1 : tw_url Sample.candidate = Some "/user/status/1") by reflexivity.
  assert (H2 : "/user/status/1" <> "") by discriminate.
  assert (H3 : tw_username Sample.candidate = Some "user") by reflexivity.
  assert (H4 : "user" <> "") by discriminate.
  assert (H5 : dateOf Scenario.alerting (clock Sample.emptyState)
                      (tw_timestamp Sample.candidate) = Some 1735689600000) by reflexivity.
  assert (H6 : lookupPost "/user/status/1" (posts Sample.emptyState) = None) by reflexivity.
  split; [repeat split; assumption|].
  exact (@stored_post_matches_candidate Scenario.alerting Sample.candidate Sample.emptyState
           "/user/status/1" "user" 1735689600000 H1 H2 H3 H4 H5 H6).
Defined.

(* ================================================================== *)
(** * Scraping: delays, the scroll loop, the extraction *)

Lemma getRandomDelay_between (r : Q) (min max : Z) :
  (0 <= r)%Q -> (r < 1)%Q -> min <= max ->
  min <= Scrape.getRandomDelay r min max <= max.
Proof.
  intros H0 H1 Hmm. unfold Scrape.getRandomDelay.
  set (k := max - min + 1).
  assert (Hk : (0 < inject_Z k)%Q).
  { change 0%Q with (inject_Z 0). rewrite <- Zlt_Qlt. unfold k. lia. }
  assert (Hlo : (inject_Z 0 <= r * inject_Z k)%Q).
  { change (inject_Z 0) with 0%Q. apply Qmult_le_0_compat; [exact H0 | now apply Qlt_le_weak]. }
  assert (Hhi : (r * inject_Z k < inject_Z k)%Q).
  { setoid_replace (inject_Z k) with (1 * inject_Z k)%Q at 2 by ring.
    now apply Qmult_lt_compat_r. }
  assert (Hf0 : 0 <= Qfloor (r * inject_Z k)).
  { apply Qfloor_resp_le in Hlo. now rewrite Qfloor_Z in Hlo. }
  assert (Hfk : Qfloor (r * inject_Z k) < k).
  { rewrite Zlt_Qlt. eapply Qle_lt_trans; [apply Qfloor_le | exact Hhi]. }
  unfold k in *. lia.
Qed.

(** X16.  [getRandomDelay]: for [Math.random()] in [0, 1) and [min <= max] the
    delay is an integer of [min, max], and every integer of [min, max] is
    the delay of some value of [Math.random()]. *)
Theorem getRandomDelay_range (min max : Z) :
  min <= max ->
  (forall r, (0 <= r)%Q -> (r < 1)%Q ->
             min <= Scrape.getRandomDelay r min max <= max) /\
  (forall v, min <= v <= max ->
             exists r, (0 <= r)%Q /\ (r < 1)%Q /\ Scrape.getRandomDelay r min max = v).
Proof.
  intros Hmm. split.
  - intros r H0 H1. now apply getRandomDelay_between.
  - intros v Hv. set (k := max - min + 1).
    assert (Hk : 0 < k) by (unfold k; lia).
    exists ((v - min) # Z.to_pos k). split; [|split].
    + unfold Qle. simpl. lia.
    + unfold Qlt. simpl. rewrite Z2Pos.id by exact Hk. unfold k. lia.
    + unfold Scrape.getRandomDelay. fold k.
      assert (E : ((v - min # Z.to_pos k) * inject_Z k == inject_Z (v - min))%Q).
      { unfold Qeq, inject_Z. simpl. rewrite Pos.mul_1_r, Z2Pos.id by exact Hk. ring. }
      rewrite E, Qfloor_Z. lia.
Qed.

Lemma getRandomDelay_range_witness :
  4000 <= 8000 /\
  4000 <= Scrape.getRandomDelay (1 # 2) 4000 8000 <= 8000.
Proof.
  assert (H : 4000 <= 8000) by (vm_compute; discriminate).
  split; [exact H|].
  apply (proj1 (@getRandomDelay_range 4000 8000 H) (1 # 2)).
  - vm_compute; discriminate.
  - vm_compute; reflexivity.
Defined.

Lemma slowScroll_steps random n :
  (forall k, (0 <= random k)%Q /\ (random k < 1)%Q) ->
  forall i,
    List.length (Scrape.slowScroll random n i) = n /\
    (forall step, In step (Scrape.slowScroll random n i) ->
                  300 <= fst step <= 800 /\ 1500 <= snd step <= 3000) /\
    1500 * Z.of_nat n <= Scrape.totalWait (Scrape.slowScroll random n i) <= 3000 * Z.of_nat n.
Proof.
  intros Hr. induction n as [|n IH]; intros i.
  - simpl. split; [reflexivity|]. split; [tauto | unfold Scrape.totalWait; simpl; lia].
  - cbn [Scrape.slowScroll]. cbv zeta.
    destruct (IH (S (S i))) as [Hlen [Hall Hsum]].
    destruct (Hr i) as [Hi0 Hi1]. destruct (Hr (S i)) as [Hj0 Hj1].
    assert (Hd : 300 <= Scrape.getRandomDelay (random i) 300 800 <= 800)
      by (apply getRandomDelay_between; [assumption | assumption | lia]).
    assert (Hw : 1500 <= Scrape.getRandomDelay (random (S i)) 1500 3000 <= 3000)
      by (apply getRandomDelay_between; [assumption | assumption | lia]).
    split; [simpl; now rewrite Hlen|]. split.
    + intros step [<-|Hin]; [simpl; split; assumption | now apply Hall].
    + unfold Scrape.totalWait in *. cbn [fold_right snd].
      rewrite Nat2Z.inj_succ. lia.
Qed.

(** X17.  The scroll phase of a feed cycle: three to five scrolls, each of 300 to
    800 px followed by a pause of 1.5 to 3 s, so between 4.5 and 15 s of
    pauses in all. *)
Theorem feed_scroll_bounds (random : nat -> Q) :
  (forall k, (0 <= random k)%Q /\ (random k < 1)%Q) ->
  (3 <= List.length (Scrape.feedScroll random) <= 5)%nat /\
  (forall step, In step (Scrape.feedScroll random) ->
                300 <= fst step <= 800 /\ 1500 <= snd step <= 3000) /\
  4500 <= Scrape.totalWait (Scrape.feedScroll random) <= 15000.
Proof.
  intros Hr. unfold Scrape.feedScroll.
  destruct (Hr 0%nat) as [H0 H1].
  assert (Hn : 3 <= Scrape.getRandomDelay (random 0%nat) 3 5 <= 5)
    by (apply getRandomDelay_between; [assumption | assumption | lia]).
  set (n := Z.to_nat (Scrape.getRandomDelay (random 0%nat) 3 5)).
  assert (Hnn : (3 <= n <= 5)%nat) by (unfold n; lia).
  destruct (@slowScroll_steps random n Hr 1%nat) as [Hlen [Hall Hsum]].
  split; [rewrite Hlen; exact Hnn|]. split; [exact Hall|]. lia.
Qed.

Lemma feed_scroll_bounds_witness :
  (forall k, (0 <= (fun _ : nat => 1 # 2) k)%Q /\ ((fun _ : nat => 1 # 2) k < 1)%Q) /\
  4500 <= Scrape.totalWait (Scrape.feedScroll (fun _ => 1 # 2)) <= 15000.
Proof.
  assert (H : forall k : nat, (0 <= (fun _ : nat => 1 # 2) k)%Q /\
                              ((fun _ : nat => 1 # 2) k < 1)%Q).
  { intros k. split; [vm_compute; discriminate | vm_compute; reflexivity]. }
  split; [exact H|].
  exact (proj2 (proj2 (@feed_scroll_bounds (fun _ => 1 # 2) H))).
Defined.

Lemma stagnant_bounds page previous tries :
  forall k current,
    (k <= fst (Scrape.stagnant page previous tries k current) <= k + tries)%nat.
Proof.
  induction tries as [|tries IH]; intros k current; simpl; [lia|].
  destruct (Nat.eqb current previous); simpl; [|lia].
  specialize (IH (S k) (page (S k))). lia.
Qed.

Lemma scrollLoop_bounds page left :
  forall k current,
    (k <= Scrape.scrollLoop page left k current <= k + 3 * left)%nat /\
    (current < 20 -> (0 < left)%nat -> k < Scrape.scrollLoop page left k current)%nat.
Proof.
  induction left as [|left IH]; intros k current; [simpl; split; lia|].
  cbn [Scrape.scrollLoop].
  destruct (Nat.ltb current 20) eqn:E20.
  - cbv zeta. destruct (Nat.eqb (page (S k)) current).
    + pose proof (stagnant_bounds page current 2 (S k) (page (S k))) as Hs.
      destruct (Scrape.stagnant page current 2 (S k) (page (S k))) as [k2 c2].
      simpl in Hs. destruct (Nat.eqb c2 current).
      * split; lia.
      * destruct (IH k2 c2) as [Hb _]. split; lia.
    + destruct (IH (S k) (page (S k))) as [Hb _]. split; lia.
  - apply Nat.ltb_ge in E20. split; lia.
Qed.

(** X18.  The scroll loop of the two scrapers ends after at most 30 scrolls (ten
    attempts of at most three scrolls), and makes none exactly when the page
    already shows 20 articles. *)
Theorem scroll_loop_bounded (page : Scrape.Page) :
  (Scrape.scrolls page <= 30)%nat /\
  (Scrape.scrolls page = 0%nat <-> (20 <= page 0%nat)%nat).
Proof.
  unfold Scrape.scrolls, Scrape.maxScrollAttempts.
  destruct (scrollLoop_bounds page 10 0 (page 0%nat)) as [Hb Hpos].
  split; [lia|]. split.
  - intros H0. destruct (Nat.lt_ge_cases (page 0%nat) 20) as [Hlt|Hge]; [|exact Hge].
    specialize (Hpos Hlt). lia.
  - intros Hge. cbn [Scrape.scrollLoop].
    replace (Nat.ltb (page 0%nat) 20) with false; [reflexivity|].
    symmetry. apply Nat.ltb_ge. exact Hge.
Qed.

Lemma tweetOf_shape username article t :
  Scrape.tweetOf username article = Some t ->
  tw_username t = Some username /\ Js.truthy (tw_text t) = true /\
  tw_scrapedFor t = None /\ tw_url t <> None /\ tw_timestamp t <> None.
Proof.
  unfold Scrape.tweetOf.
  destruct (Js.truthy (Some (Js.orStr (Scrape.langText article) ""))) eqn:E; simpl;
    [|discriminate].
  intros H. inversion H; subst; simpl. repeat split; try discriminate. exact E.
Qed.

Lemma extract_shape username articles :
  (List.length (Scrape.extract username articles) <= Scrape.limit)%nat /\
  forall t, In t (Scrape.extract username articles) ->
            exists article, In article articles /\ Scrape.tweetOf username article = Some t.
Proof.
  unfold Scrape.extract. split.
  - assert (H : forall l : list Scrape.Article,
               (List.length (flat_map (fun article =>
                   match Scrape.tweetOf username article with
                   | Some t => [t] | None => [] end) l) <= List.length l)%nat).
    { induction l as [|a l IH]; simpl; [lia|].
      rewrite length_app. destruct (Scrape.tweetOf username a); simpl; lia. }
    specialize (H (firstn Scrape.limit articles)).
    pose proof (firstn_le_length Scrape.limit articles).
    rewrite length_firstn in H. lia.
  - intros t Hin. apply in_flat_map in Hin. destruct Hin as [a [Ha Ht]].
    exists a. split.
    + clear Ht. revert Ha. generalize Scrape.limit. intros n. revert articles.
      induction n as [|n IH]; intros [|x l]; simpl; try tauto.
      intros [->|H]; [now left | right; now apply IH].
    + destruct (Scrape.tweetOf username a) as [t'|]; [|contradiction].
      destruct Ht as [->|[]]. reflexivity.
Qed.

(** X19.  What the profile scraper hands to the pipeline: at most five tweets,
    each read from an article that is not pinned, each with a non-empty
    text, attributed to the scanned account and carrying no source tag. *)
Theorem userTweets_shape (username : string) (dom : list Scrape.Article)
        (tweets : list Tweet) :
  Scrape.userTweets username dom = Scheduler.Scraped tweets ->
  (List.length tweets <= 5)%nat /\
  forall t, In t tweets ->
    tw_username t = Some username /\ Js.truthy (tw_text t) = true /\
    tw_scrapedFor t = None /\
    exists article, In article dom /\ Scrape.pinned article = false /\
                    Scrape.tweetOf username article = Some t.
Proof.
  unfold Scrape.userTweets.
  destruct (Nat.eqb _ 0); [discriminate|]. intros H. inversion H; subst tweets. clear H.
  destruct (extract_shape username (filter (fun a => negb (Scrape.pinned a)) dom))
    as [Hlen Hall].
  split; [exact Hlen|]. intros t Hin.
  destruct (Hall t Hin) as [a [Ha Ht]].
  destruct (tweetOf_shape _ _ Ht) as [Hu [Htx [Hs _]]].
  apply filter_In in Ha. destruct Ha as [Ha Hp].
  repeat split; auto. exists a. repeat split; auto.
  now destruct (Scrape.pinned a).
Qed.

Lemma userTweets_shape_witness :
  Scrape.userTweets "solana" Pages.profile = Scheduler.Scraped [Pages.plainTweet] /\
  (List.length [Pages.plainTweet] <= 5)%nat /\
  forall t, In t [Pages.plainTweet] ->
    tw_username t = Some "solana" /\ Js.truthy (tw_text t) = true /\
    tw_scrapedFor t = None /\
    exists article, In article Pages.profile /\ Scrape.pinned article = false /\
                    Scrape.tweetOf "solana" article = Some t.
Proof.
  assert (H : Scrape.userTweets "solana" Pages.profile = Scheduler.Scraped [Pages.plainTweet])
    by reflexivity.
  split; [exact H|].
  exact (@userTweets_shape "solana" Pages.profile [Pages.plainTweet] H).
Defined.

(* ================================================================== *)
(** * Budgets: how much a scan, a cycle and a tick can ask for *)

Section EventBudget.

Variable cnt : list Event -> nat.
Hypothesis cnt_app : forall a b, cnt (a ++ b) = (cnt a + cnt b)%nat.
Hypothesis cnt_nil : cnt [] = 0%nat.

Lemma emitsAtMost_ret A (a : A) : emitsAtMost cnt 0 (ret a).
Proof. intros s. unfold evOf. simpl. rewrite cnt_nil. lia. Qed.

Lemma emitsAtMost_throw A e : emitsAtMost cnt 0 (@throw A e).
Proof. intros s. unfold evOf. simpl. rewrite cnt_nil. lia. Qed.

Lemma emitsAtMost_weaken A n p (m : M A) :
  (n <= p)%nat -> emitsAtMost cnt n m -> emitsAtMost cnt p m.
Proof. intros Hle H s. specialize (H s). lia. Qed.

Lemma emitsAtMost_bind A B n p (m : M A) (k : A -> M B) :
  emitsAtMost cnt n m -> (forall a, emitsAtMost cnt p (k a)) ->
  emitsAtMost cnt (n + p) (bind m k).
Proof.
  intros Hm Hk s. specialize (Hm s). unfold bind.
  destruct (m s) as [[[a|e] s1] ev1]; unfold evOf in *; cbn [fst snd] in *; [|lia].
  specialize (Hk a s1). destruct (k a s1) as [[r s2] ev2]. unfold evOf in *. cbn [fst snd] in *.
  rewrite cnt_app. lia.
Qed.

Lemma emitsAtMost_tryCatch A n p (m : M A) h :
  emitsAtMost cnt n m -> (forall e, emitsAtMost cnt p (h e)) ->
  emitsAtMost cnt (n + p) (tryCatch m h).
Proof.
  intros Hm Hh s. specialize (Hm s). unfold tryCatch.
  destruct (m s) as [[[a|e] s1] ev1]; unfold evOf in *; cbn [fst snd] in *; [lia|].
  specialize (Hh e s1). destruct (h e s1) as [[r s2] ev2]. unfold evOf in *. cbn [fst snd] in *.
  rewrite cnt_app. lia.
Qed.

Lemma emitsAtMost_forEach A (xs : list A) (body : A -> M unit) :
  (forall x, emitsAtMost cnt 1 (body x)) ->
  emitsAtMost cnt (List.length xs) (forEach xs body).
Proof.
  intros Hb. induction xs as [|x xs IH]; simpl.
  - apply emitsAtMost_ret.
  - apply (@emitsAtMost_bind unit unit 1 (List.length xs)); [apply Hb | intros _; exact IH].
Qed.

Hypothesis cnt_processTweet : forall W t, emitsAtMost cnt 1 (processTweet W t).
Hypothesis cnt_sweep : forall W, emitsAtMost cnt 5 (retryFailedAI W 5).

Lemma processScraped_budget W src r n :
  match r with
  | Scheduler.Scraped tweets => (List.length tweets <= n)%nat
  | Scheduler.ScrapeError _ => True
  end ->
  emitsAtMost cnt n (Scheduler.processScraped W src r).
Proof.
  intros Hlen. destruct r as [msg|tweets]; simpl.
  - apply emitsAtMost_weaken with (n := 0%nat); [lia | apply emitsAtMost_ret].
  - apply emitsAtMost_weaken with (n := List.length tweets); [exact Hlen|].
    apply emitsAtMost_forEach. intros x. apply cnt_processTweet.
Qed.

Lemma processUserAndMentions_budget T user n p :
  match Scheduler.scrapeUserTweets T (Scheduler.u_username user) with
  | Scheduler.Scraped tweets => (List.length tweets <= n)%nat
  | Scheduler.ScrapeError _ => True
  end ->
  match Scheduler.scrapeMentions T (Scheduler.u_username user) with
  | Scheduler.Scraped tweets => (List.length tweets <= p)%nat
  | Scheduler.ScrapeError _ => True
  end ->
  emitsAtMost cnt (n + p + 5) (Scheduler.processUserAndMentions T user).
Proof.
  intros H1 H2. unfold Scheduler.processUserAndMentions.
  replace (n + p + 5)%nat with ((n + p + 0) + (5 + 0 + 0))%nat by lia.
  apply emitsAtMost_bind.
  - apply emitsAtMost_tryCatch; [|intros e; apply emitsAtMost_ret].
    destruct (negb (Scheduler.newPageOk T)).
    { apply emitsAtMost_weaken with (n := 0%nat); [lia | apply emitsAtMost_throw]. }
    destruct (negb (Scheduler.viewportOk T)).
    { apply emitsAtMost_weaken with (n := 0%nat); [lia | apply emitsAtMost_throw]. }
    apply emitsAtMost_bind; [now apply processScraped_budget|].
    intros _. now apply processScraped_budget.
  - intros _. apply emitsAtMost_bind.
    + apply emitsAtMost_tryCatch; [apply cnt_sweep | intros e; apply emitsAtMost_ret].
    + intros _. destruct (Scheduler.newPageOk T); [|apply emitsAtMost_ret].
      destruct (Scheduler.pageCloseOk T); [apply emitsAtMost_ret | apply emitsAtMost_throw].
Qed.

Lemma feedCycle_budget W tweetsFromFeed :
  emitsAtMost cnt 20 (Scrape.feedCycle W (Scrape.latestTweets tweetsFromFeed)).
Proof.
  intros s. unfold Scrape.feedCycle, bind, get. cbv zeta.
  match goal with
  | |- context [filter ?f (Scrape.latestTweets tweetsFromFeed)] =>
      set (uniqueNewTweets := filter f (Scrape.latestTweets tweetsFromFeed))
  end.
  assert (Hlen : (List.length uniqueNewTweets <= 20)%nat).
  { unfold uniqueNewTweets, Scrape.latestTweets.
    etransitivity; [apply filter_length_le|]. rewrite length_firstn. lia. }
  destruct (Nat.ltb 0 (List.length uniqueNewTweets)).
  - match goal with
    | |- context [forEach ?l _] => set (validNewTweets := l)
    end.
    assert (Hv : (List.length validNewTweets <= 20)%nat).
    { unfold validNewTweets. etransitivity; [apply filter_length_le | exact Hlen]. }
    pose proof (@emitsAtMost_forEach _ validNewTweets (processTweet W)
                  (cnt_processTweet W) s) as H.
    destruct (forEach validNewTweets (processTweet W) s) as [[r2 s2] ev2].
    unfold evOf in *. cbn [fst snd] in *. simpl. lia.
  - unfold ret, evOf. simpl. rewrite cnt_nil. lia.
Qed.

End EventBudget.

Lemma callCount_app a b : callCount (a ++ b) = (callCount a + callCount b)%nat.
Proof. unfold callCount. now rewrite aiCallTimes_app, length_app. Qed.

Lemma notificationCount_app a b :
  notificationCount (a ++ b) = (notificationCount a + notificationCount b)%nat.
Proof. unfold notificationCount. now rewrite notifications_app, length_app. Qed.

Lemma processTweet_calls W t : emitsAtMost callCount 1 (processTweet W t).
Proof.
  intros s. unfold callCount.
  destruct (processTweet_gate W t s) as [_ [H|[H _]]]; rewrite H; simpl; lia.
Qed.

Lemma classifyAndBranch_notifies W t :
  emitsAtMost notificationCount 1 (classifyAndBranch W t).
Proof.
  unfold classifyAndBranch, aiLimiter.
  apply (@emitsAtMost_bind notificationCount notificationCount_app eq_refl Analysis unit 0 1).
  - intros s. rewrite withTimeout_events.
    rewrite retryWithBackoff_total by apply total_classifyTweet.
    destruct (classifyTweet_events W (inputOf (tw_text t) (tw_mediaUrl t)) s) as [E|E];
      rewrite E; unfold notificationCount; simpl; lia.
  - intros a. destruct (negb _).
    + apply (@emitsAtMost_bind notificationCount notificationCount_app eq_refl bool unit 1 0).
      * intros s. unfold notificationCount.
        apply branchOnOutcome_budget. intros; reflexivity.
      * intros _. apply emitsAtMost_ret. reflexivity.
    + intros s. unfold notificationCount, evOf. simpl. lia.
Qed.

Lemma processTweet_notifies W t : emitsAtMost notificationCount 1 (processTweet W t).
Proof.
  intros s.
  destruct (existing t s) as [q|] eqn:Hex.
  { rewrite (@processTweet_existing W t s _ Hex). unfold notificationCount, evOf. simpl. lia. }
  destruct (validatePost (newPost W (clock s) t)) as [p|] eqn:Hv.
  2:{ rewrite (@processTweet_rejected W t s Hex Hv). unfold notificationCount, evOf.
      simpl. lia. }
  rewrite (@processTweet_unfold W t s p Hex Hv).
  pose proof (classifyAndBranch_notifies W t (gated p s)) as H.
  unfold notificationCount, evOf in *. cbn [fst snd] in *. simpl. exact H.
Qed.

Lemma sweep_calls W : emitsAtMost callCount 5 (retryFailedAI W 5).
Proof. intros s. apply (retryFailedAI_budget W 5 s). Qed.

Lemma sweep_notifies W : emitsAtMost notificationCount 5 (retryFailedAI W 5).
Proof. intros s. apply (retryFailedAI_budget W 5 s). Qed.

(** X21.  One deep scan of an account (its profile, its mentions and the sweep
    that follows) makes at most 15 requests to the classifier and sends at
    most 15 notifications, whatever the two pages show. *)
Theorem deep_scan_budget (T : Scheduler.TickWorld) (user : Scheduler.User)
        (profilePage mentionsPage : list Scrape.Article) (s : State) :
  Scheduler.scrapeUserTweets T (Scheduler.u_username user)
  = Scrape.userTweets (Scheduler.u_username user) profilePage ->
  Scheduler.scrapeMentions T (Scheduler.u_username user)
  = Scrape.mentions (Scheduler.u_username user) mentionsPage ->
  (callCount (evOf (Scheduler.processUserAndMentions T user s)) <= 15)%nat /\
  (notificationCount (evOf (Scheduler.processUserAndMentions T user s)) <= 15)%nat.
Proof.
  intros H1 H2.
  assert (Hp : match Scheduler.scrapeUserTweets T (Scheduler.u_username user) with
               | Scheduler.Scraped tweets => (List.length tweets <= 5)%nat
               | Scheduler.ScrapeError _ => True
               end).
  { rewrite H1. unfold Scrape.userTweets. destruct (Nat.eqb _ 0); [exact I|].
    apply extract_shape. }
  assert (Hm : match Scheduler.scrapeMentions T (Scheduler.u_username user) with
               | Scheduler.Scraped tweets => (List.length tweets <= 5)%nat
               | Scheduler.ScrapeError _ => True
               end).
  { rewrite H2. unfold Scrape.mentions. destruct (Nat.eqb _ 0); [exact I|].
    apply extract_shape. }
  split.
  - apply (@processUserAndMentions_budget callCount callCount_app eq_refl
             processTweet_calls sweep_calls T user 5 5 Hp Hm s).
  - apply (@processUserAndMentions_budget notificationCount notificationCount_app eq_refl
             processTweet_notifies sweep_notifies T user 5 5 Hp Hm s).
Qed.

(** X22.  One cycle of the feed loop hands at most 20 tweets to the pipeline: at
    most 20 requests to the classifier and at most 20 notifications. *)
Theorem feed_cycle_budget (W : World) (tweetsFromFeed : list Tweet) (s : State) :
  (callCount (evOf (Scrape.feedCycle W (Scrape.latestTweets tweetsFromFeed) s)) <= 20)%nat /\
  (notificationCount (evOf (Scrape.feedCycle W (Scrape.latestTweets tweetsFromFeed) s))
   <= 20)%nat.
Proof.
  split.
  - apply (@feedCycle_budget callCount callCount_app eq_refl processTweet_calls).
  - apply (@feedCycle_budget notificationCount notificationCount_app eq_refl
             processTweet_notifies).
Qed.

Lemma deep_scan_budget_witness :
  (Scheduler.scrapeUserTweets Pages.scanning (Scheduler.u_username {| Scheduler.u_username := "solana" |})
   = Scrape.userTweets (Scheduler.u_username {| Scheduler.u_username := "solana" |}) Pages.profile /\
   Scheduler.scrapeMentions Pages.scanning (Scheduler.u_username {| Scheduler.u_username := "solana" |})
   = Scrape.mentions (Scheduler.u_username {| Scheduler.u_username := "solana" |}) Pages.profile) /\
  (callCount (evOf (Scheduler.processUserAndMentions Pages.scanning
                      {| Scheduler.u_username := "solana" |} Sample.emptyState)) <= 15)%nat.
Proof.
  split; [split; reflexivity|].
  exact (proj1 (@deep_scan_budget Pages.scanning {| Scheduler.u_username := "solana" |}
                  Pages.profile Pages.profile Sample.emptyState eq_refl eq_refl)).
Defined.

(* ================================================================== *)
(** * The feed cycle and the cron tick at their edges *)

Lemma filter_none A (f : A -> bool) l :
  (forall x, In x l -> f x = false) -> filter f l = [].
Proof.
  induction l as [|x l IH]; intros H; [reflexivity|].
  simpl. rewrite (H x (or_introl eq_refl)). apply IH. intros y Hy. apply H. now right.
Qed.

(** X23.  A feed cycle in which every scraped tweet is already stored (or has no
    url) does nothing: no raw post, no request to the classifier, no
    notification. *)
Theorem feed_cycle_skips_known (W : World) (tweetsFromFeed : list Tweet) (s : State) :
  (forall t, In t tweetsFromFeed ->
             match tw_url t with
             | Some id => id = "" \/ In id (map tweetId (posts s))
             | None => True
             end) ->
  Scrape.feedCycle W tweetsFromFeed s = (Ok tt, s, []).
Proof.
  intros Hknown. unfold Scrape.feedCycle, bind, get. cbv zeta.
  match goal with
  | |- context [filter ?f tweetsFromFeed] =>
      assert (Hnone : filter f tweetsFromFeed = [])
  end.
  { apply filter_none. intros t Hin. specialize (Hknown t Hin).
    destruct (tw_url t) as [id|]; [|reflexivity].
    destruct Hknown as [->|Hid]; [reflexivity|].
    replace (existsb (String.eqb id) (map tweetId (posts s))) with true.
    - now rewrite andb_false_r.
    - symmetry. apply existsb_exists. exists id. split; [exact Hid | apply String.eqb_refl]. }
  rewrite Hnone. reflexivity.
Qed.

Lemma feed_cycle_skips_known_witness :
  (forall t, In t [Sample.candidate] ->
             match tw_url t with
             | Some id => id = "" \/ In id (map tweetId (posts Sample.backlog))
             | None => True
             end) /\
  Scrape.feedCycle Scenario.alerting [Sample.candidate] Sample.backlog
  = (Ok tt, Sample.backlog, []).
Proof.
  assert (H : forall t, In t [Sample.candidate] ->
                        match tw_url t with
                        | Some id => id = "" \/ In id (map tweetId (posts Sample.backlog))
                        | None => True
                        end).
  { intros t [<-|[]]. right. left. reflexivity. }
  split; [exact H|].
  exact (@feed_cycle_skips_known Scenario.alerting [Sample.candidate] Sample.backlog H).
Defined.

(** X24.  A cursor left out of range (accounts were removed since it was saved)
    costs one tick: the tick scans nobody, touches nothing of the pipeline
    and saves the index 0. *)
Theorem tick_out_of_range_resets (T : Scheduler.TickWorld) (s : Scheduler.SysState) :
  Scheduler.users T <> [] ->
  Scheduler.cursor s < 0 \/ Z.of_nat (List.length (Scheduler.users T)) <= Scheduler.cursor s ->
  Scheduler.tick T s
  = ({| Scheduler.pipeline := Scheduler.pipeline s;
        Scheduler.lastProcessedIndex := Some 0 |},
     [Scheduler.TeSaveIndex 0]).
Proof.
  intros Hne Hout. unfold Scheduler.tick.
  destruct (Scheduler.users T) as [|u us] eqn:Hus; [congruence|].
  cbn [List.length Nat.eqb].
  fold (Scheduler.cursor s).
  replace (Scheduler.userAt (u :: us) (Scheduler.cursor s)) with (@None Scheduler.User);
    [reflexivity|].
  symmetry. unfold Scheduler.userAt.
  destruct (Scheduler.cursor s <? 0) eqn:E; [reflexivity|].
  apply Z.ltb_ge in E. destruct Hout as [H|H]; [lia|].
  apply nth_error_None. lia.
Qed.

Lemma tick_out_of_range_resets_witness :
  (Scheduler.users Sample.quietTick <> [] /\
   (Scheduler.cursor {| Scheduler.pipeline := Sample.emptyState;
                        Scheduler.lastProcessedIndex := Some 7 |} < 0 \/
    Z.of_nat (List.length (Scheduler.users Sample.quietTick))
    <= Scheduler.cursor {| Scheduler.pipeline := Sample.emptyState;
                           Scheduler.lastProcessedIndex := Some 7 |})) /\
  Scheduler.tick Sample.quietTick
    {| Scheduler.pipeline := Sample.emptyState; Scheduler.lastProcessedIndex := Some 7 |}
  = ({| Scheduler.pipeline := Sample.emptyState; Scheduler.lastProcessedIndex := Some 0 |},
     [Scheduler.TeSaveIndex 0]).
Proof.
  assert (H1 : Scheduler.users Sample.quietTick <> []) by discriminate.
  assert (H2 : Scheduler.cursor {| Scheduler.pipeline := Sample.emptyState;
                                   Scheduler.lastProcessedIndex := Some 7 |} < 0 \/
               Z.of_nat (List.length (Scheduler.users Sample.quietTick))
               <= Scheduler.cursor {| Scheduler.pipeline := Sample.emptyState;
                                      Scheduler.lastProcessedIndex := Some 7 |})
    by (right; vm_compute; discriminate).
  split; [split; assumption|].
  exact (@tick_out_of_range_resets Sample.quietTick _ H1 H2).
Defined.

(** X25.  When [page.close()] throws at the end of a deep scan, the exception
    reaches the cron callback: the account has been scanned but the index is
    not saved, so the next tick scans the same account again. *)
Theorem tick_close_failure_rescans (T : Scheduler.TickWorld) (s : Scheduler.SysState)
        (u : Scheduler.User) :
  Scheduler.userAt (Scheduler.users T) (Scheduler.cursor s) = Some u ->
  Scheduler.newPageOk T = true -> Scheduler.pageCloseOk T = false ->
  Scheduler.cursor (fst (Scheduler.tick T s)) = Scheduler.cursor s /\
  Scheduler.scanned (snd (Scheduler.tick T s)) = [Scheduler.u_username u] /\
  forall i, ~ In (Scheduler.TeSaveIndex i) (snd (Scheduler.tick T s)).
Proof.
  intros Hu Hnew Hclose. unfold Scheduler.tick.
  assert (Hlen : Nat.eqb (List.length (Scheduler.users T)) 0 = false).
  { apply Nat.eqb_neq. intros H0. apply length_zero_iff_nil in H0.
    rewrite H0 in Hu. unfold Scheduler.userAt in Hu.
    destruct (Scheduler.cursor s <? 0); [discriminate|].
    destruct (Z.to_nat (Scheduler.cursor s)); discriminate. }
  rewrite Hlen. fold (Scheduler.cursor s). rewrite Hu.
  pose proof (@processUserAndMentions_close_throws T u (Scheduler.pipeline s) Hnew Hclose) as Hr.
  destruct (Scheduler.processUserAndMentions T u (Scheduler.pipeline s)) as [[r p] ev].
  unfold resOf in Hr. cbn [fst] in Hr. subst r. cbn [fst snd].
  split; [reflexivity|]. split.
  - simpl. f_equal. induction ev as [|e ev IH]; [reflexivity | exact IH].
  - intros i [H|H]; [discriminate|].
    apply in_map_iff in H. destruct H as [e [He _]]. discriminate.
Qed.

Lemma tick_close_failure_rescans_witness :
  (Scheduler.userAt (Scheduler.users Pages.unclosable) (Scheduler.cursor Sample.freshSystem)
   = Some {| Scheduler.u_username := "solana" |} /\
   Scheduler.newPageOk Pages.unclosable = true /\
   Scheduler.pageCloseOk Pages.unclosable = false) /\
  Scheduler.cursor (fst (Scheduler.tick Pages.unclosable Sample.freshSystem))
  = Scheduler.cursor Sample.freshSystem.
Proof.
  split; [repeat split; reflexivity|].
  exact (proj1 (@tick_close_failure_rescans Pages.unclosable Sample.freshSystem
                  {| Scheduler.u_username := "solana" |} eq_refl eq_refl eq_refl)).
Defined.

(** X20.  What a deep scan stores for a scraped article: the post carries the
    scanned account as its username, whoever wrote it (a mention is written
    by somebody else), the link of the article as identifier and the source
    the scan tagged it with. *)
Theorem scraped_post_stored_under_account (W : World) (account : string)
        (article : Scrape.Article) (t : Tweet) (src : Source) (s : State)
        (id : string) (ts : Z) :
  Scrape.tweetOf account article = Some t ->
  Scrape.href article = Some id -> id <> "" -> account <> "" ->
  dateOf W (clock s) (tw_timestamp t) = Some ts ->
  lookupPost id (posts s) = None ->
  exists st stored,
    lookupPost id (posts (stOf (processTweet W (Scheduler.markScrapedFor src t) s)))
    = Some stored /\
    tweetId stored = id /\ username stored = account /\ scrapedFor stored = src /\
    text stored = tw_text t /\ status stored = st /\
    posts (stOf (processTweet W (Scheduler.markScrapedFor src t) s)) = posts s ++ [stored].
Proof.
  intros Ht Hhref Hid Hacc Hts Hlook.
  assert (Hurl : tw_url t = Some id).
  { unfold Scrape.tweetOf in Ht. destruct (negb _); [discriminate|].
    inversion Ht; subst t. cbn [tw_url]. rewrite Hhref. unfold Js.orStr.
    apply String.eqb_neq in Hid. now rewrite Hid. }
  destruct (tweetOf_shape _ _ Ht) as [Hu _].
  set (t' := Scheduler.markScrapedFor src t).
  assert (Hv : validatePost (newPost W (clock s) t')
               = Some {| tweetId := id; username := account; text := tw_text t;
                         timestamp := ts; mediaUrl := tw_mediaUrl t;
                         status := unprocessed; scrapedFor := src |}).
  { apply (@validatePost_complete W t' (clock s) id account ts); auto. }
  assert (Hex : existing t' s = None).
  { unfold existing, t'. cbn [Scheduler.markScrapedFor tw_url]. now rewrite Hurl. }
  destruct (@processTweet_fresh W t' s _ Hex Hv s eq_refl) as [[] [_ [[st Hp] _]]].
  unfold withStatus in Hp. cbn [tweetId username text timestamp mediaUrl scrapedFor] in Hp.
  exists st. eexists. split; [|repeat split; try exact Hp; reflexivity].
  rewrite Hp.
  match goal with
  | |- lookupPost _ (_ ++ [?q]) = _ => apply (@lookupPost_appended (posts s) q)
  end.
  exact Hlook.
Qed.

Lemma scraped_post_stored_under_account_witness :
  (Scrape.tweetOf "solana" Pages.plainArticle = Some Pages.plainTweet /\
   Scrape.href Pages.plainArticle = Some "/solana/status/2" /\
   "/solana/status/2" <> "" /\ "solana" <> "" /\
   dateOf Scenario.alerting (clock Sample.emptyState) (tw_timestamp Pages.plainTweet)
   = Some 1735689600000 /\
   lookupPost "/solana/status/2" (posts Sample.emptyState) = None) /\
  exists st stored,
    lookupPost "/solana/status/2"
      (posts (stOf (processTweet Scenario.alerting
                      (Scheduler.markScrapedFor mention Pages.plainTweet)
                      Sample.emptyState)))
    = Some stored /\
    tweetId stored = "/solana/status/2" /\ username stored = "solana" /\
    scrapedFor stored = mention /\
    text stored = tw_text Pages.plainTweet /\ status stored = st /\
    posts (stOf (processTweet Scenario.alerting
                   (Scheduler.markScrapedFor mention Pages.plainTweet) Sample.emptyState))
    = posts Sample.emptyState ++ [stored].
Proof.
  assert (H1 : Scrape.tweetOf "solana" Pages.plainArticle = Some Pages.plainTweet)
    by reflexivity.
  assert (H2 : Scrape.href Pages.plainArticle = Some "/solana/status/2") by reflexivity.
  assert (H3 : "/solana/status/2" <> "") by discriminate.
  assert (H4 : "solana" <> "") by discriminate.
  assert (H5 : dateOf Scenario.alerting (clock Sample.emptyState)
                      (tw_timestamp Pages.plainTweet) = Some 1735689600000) by reflexivity.
  assert (H6 : lookupPost "/solana/status/2" (posts Sample.emptyState) = None)
    by reflexivity.
  split; [repeat split; assumption|].
  exact (@scraped_post_stored_under_account Scenario.alerting "solana" Pages.plainArticle
           Pages.plainTweet mention Sample.emptyState "/solana/status/2" 1735689600000
           H1 H2 H3 H4 H5 H6).
Defined.

(* ================================================================== *)
(** * The session: what every call leaves behind *)

Lemma credentialsOf_nonempty a c b cr :
  Login.credentialsOf a c b = Some cr ->
  Session.auth_token cr <> "" /\ Session.ct0 cr <> "" /\ Session.bearer_token cr <> "".
Proof.
  unfold Login.credentialsOf. destruct a as [x|], c as [y|], b as [z|]; try discriminate.
  unfold Js.truthy.
  destruct (x =? "")%string eqn:Ex; [discriminate|].
  destruct (y =? "")%string eqn:Ey; [discriminate|].
  destruct (z =? "")%string eqn:Ez; [discriminate|].
  simpl. intros H. inversion H; subst; simpl.
  repeat split; now apply String.eqb_neq.
Qed.

(** X26.  Whatever happens during a call of [setupPersistentBrowser] that was let
    in, the login flag is released at its end, at most two browsers have
    been launched and at most one login attempted; and a browser is
    returned only together with credentials whose auth token is not
    empty. *)
Theorem session_setup_invariants (W : Session.SessWorld) (s : Session.SessState)
        (newAuthToken newCt0 newBearerToken : option string) :
  Session.isLoggingIn s = false ->
  Session.loginResult W = Login.credentialsOf newAuthToken newCt0 newBearerToken ->
  let r := fst (fst (Session.setupPersistentBrowser W s)) in
  let s' := snd (fst (Session.setupPersistentBrowser W s)) in
  let ev := snd (Session.setupPersistentBrowser W s) in
  Session.isLoggingIn s' = false /\
  (Session.launches s <= Session.launches s' <= Session.launches s + 2)%nat /\
  (List.length (filter (fun e => match e with Session.SevLogin => true | _ => false end) ev)
   <= 1)%nat /\
  forall b, r = Session.RBrowser b ->
            Session.browserInstance s' = Some b /\
            exists cr, Session.currentCredentials s' = Some cr /\
                       Session.auth_token cr <> "".
Proof.
  intros Hflag Hlogin. cbv zeta.
  unfold Session.setupPersistentBrowser. rewrite Hflag.
  destruct (Session.credentialsFile W) as [cf|];
    [destruct (Js.truthy (Some (Session.auth_token cf))) eqn:Etok|];
    (destruct (Session.browserInstance s) as [b0|];
     [|destruct (Session.launchOk W) eqn:El];
     unfold Session.checkAndInjectCredentials, Session.failed;
     repeat match goal with
            | |- context [if ?c then _ else _] => destruct c eqn:?
            end;
     try (destruct (Session.loginResult W) as [cr|] eqn:Elr);
     cbn [fst snd Session.isLoggingIn Session.launches Session.browserInstance
          Session.currentCredentials];
     (split; [reflexivity|]); (split; [lia|]);
     (split; [rewrite ?filter_app; simpl; repeat (destruct (Session.browserInstance _)); simpl; lia|]);
     intros b Hb; try discriminate; inversion Hb; subst;
     (split; [reflexivity|]); eexists; (split; [reflexivity|])).
  all: try (symmetry in Hlogin; apply credentialsOf_nonempty in Hlogin; tauto).
  all: unfold Js.truthy in Etok; intros E; rewrite E in Etok; discriminate.
Qed.

Lemma session_setup_invariants_witness :
  (Session.isLoggingIn Sample.idleSession = false /\
   Session.loginResult Expired.world
   = Login.credentialsOf (Some "a2") (Some "c2") (Some "b2")) /\
  Session.isLoggingIn (snd (fst (Session.setupPersistentBrowser Expired.world
                                   Sample.idleSession))) = false /\
  fst (fst (Session.setupPersistentBrowser Expired.world Sample.idleSession))
  = Session.RBrowser 1.
Proof.
  split; [split; reflexivity|]. split; [|reflexivity].
  exact (proj1 (@session_setup_invariants Expired.world Sample.idleSession
                  (Some "a2") (Some "c2") (Some "b2") eq_refl eq_refl)).
Defined.

(* ================================================================== *)
(** * config/seed.ts *)

Lemma seedWith_cons x initial users :
  Seed.seedWith (x :: initial) users
  = Seed.seedWith initial
      (if Seed.exists_ (Seed.username x) users then users else users ++ [x]).
Proof. reflexivity. Qed.

Lemma seedWith_app initial :
  forall users,
    exists added,
      Seed.seedWith initial users = users ++ added /\
      forall u, In u added -> In u initial /\ Seed.exists_ (Seed.username u) users = false.
Proof.
  induction initial as [|x initial IH]; intros users.
  - exists []. simpl. split; [now rewrite app_nil_r | tauto].
  - rewrite seedWith_cons.
    destruct (Seed.exists_ (Seed.username x) users) eqn:E.
    + destruct (IH users) as [added [H1 H2]]. exists added. split; [exact H1|].
      intros u Hu. destruct (H2 u Hu). split; [now right | assumption].
    + destruct (IH (users ++ [x])) as [added [H1 H2]]. exists (x :: added).
      split; [now rewrite H1, <- app_assoc|].
      intros u [<-|Hu]; [split; [now left | exact E]|].
      destruct (H2 u Hu) as [Hin Hex]. split; [now right|].
      unfold Seed.exists_ in *. rewrite existsb_app in Hex.
      now apply orb_false_iff in Hex.
Qed.

Lemma exists_app name users more :
  Seed.exists_ name users = true -> Seed.exists_ name (users ++ more) = true.
Proof. unfold Seed.exists_. rewrite existsb_app. intros ->. reflexivity. Qed.

Lemma seedWith_keeps initial :
  forall users name,
    Seed.exists_ name users = true -> Seed.exists_ name (Seed.seedWith initial users) = true.
Proof.
  intros users name H. destruct (seedWith_app initial users) as [added [-> _]].
  now apply exists_app.
Qed.

Lemma seedWith_covers initial :
  forall users u, In u initial ->
                  Seed.exists_ (Seed.username u) (Seed.seedWith initial users) = true.
Proof.
  induction initial as [|x initial IH]; intros users u Hin; [contradiction|].
  rewrite seedWith_cons.
  destruct Hin as [<-|Hin]; [|now apply IH].
  apply seedWith_keeps.
  destruct (Seed.exists_ (Seed.username x) users) eqn:E; [exact E|].
  unfold Seed.exists_. rewrite existsb_app. simpl. rewrite String.eqb_refl.
  now rewrite orb_true_r.
Qed.

Lemma seedWith_fixed initial :
  forall users,
    (forall u, In u initial -> Seed.exists_ (Seed.username u) users = true) ->
    Seed.seedWith initial users = users.
Proof.
  induction initial as [|x initial IH]; intros users H; [reflexivity|].
  rewrite seedWith_cons.
  rewrite (H x (or_introl eq_refl)). apply IH. intros u Hu. apply H. now right.
Qed.

Lemma seedWith_NoDup initial :
  forall users,
    NoDup (map Seed.username users) ->
    NoDup (map Seed.username (Seed.seedWith initial users)).
Proof.
  induction initial as [|x initial IH]; intros users Hnd; [exact Hnd|].
  rewrite seedWith_cons.
  destruct (Seed.exists_ (Seed.username x) users) eqn:E; [now apply IH|].
  apply IH. rewrite map_app. simpl.
  apply NoDup_app_remove_l with (l := []). simpl.
  apply Permutation_NoDup with (l := Seed.username x :: map Seed.username users).
  - apply Permutation_cons_append.
  - constructor; [|exact Hnd]. intros Hin. apply in_map_iff in Hin.
    destruct Hin as [u [Hu Hin]].
    assert (Ht : Seed.exists_ (Seed.username x) users = true).
    { unfold Seed.exists_. apply existsb_exists. exists u. split; [exact Hin|].
      now apply String.eqb_eq. }
    congruence.
Qed.

(** X27.  Seeding is idempotent and only appends: the users already there keep
    their place, every seed account is there afterwards, the usernames stay
    unique, and a second seeding changes nothing. *)
Theorem seed_idempotent (users : list Seed.NewUser) :
  NoDup (map Seed.username users) ->
  Seed.seedUsers (Seed.seedUsers users) = Seed.seedUsers users /\
  (exists added, Seed.seedUsers users = users ++ added /\
                 forall u, In u added -> In u Seed.initialUsers) /\
  (forall u, In u Seed.initialUsers ->
             Seed.exists_ (Seed.username u) (Seed.seedUsers users) = true) /\
  NoDup (map Seed.username (Seed.seedUsers users)).
Proof.
  intros Hnd. unfold Seed.seedUsers. split; [|split; [|split]].
  - apply seedWith_fixed. intros u Hu. now apply seedWith_covers.
  - destruct (seedWith_app Seed.initialUsers users) as [added [H1 H2]].
    exists added. split; [exact H1|]. intros u Hu. now destruct (H2 u Hu).
  - intros u Hu. now apply seedWith_covers.
  - now apply seedWith_NoDup.
Qed.

Lemma seed_idempotent_witness :
  NoDup (map Seed.username [{| Seed.username := "pumpdotfun";
                               Seed.url := "https://x.com/pumpdotfun" |}]) /\
  Seed.getAllUsersFromDb
    (Seed.seedUsers [{| Seed.username := "pumpdotfun";
                        Seed.url := "https://x.com/pumpdotfun" |}])
  = [ {| Scheduler.u_username := "pumpdotfun" |};
      {| Scheduler.u_username := "solana" |};
      {| Scheduler.u_username := "DexScreener" |} ] /\
  Seed.seedUsers (Seed.seedUsers [{| Seed.username := "pumpdotfun";
                                     Seed.url := "https://x.com/pumpdotfun" |}])
  = Seed.seedUsers [{| Seed.username := "pumpdotfun";
                       Seed.url := "https://x.com/pumpdotfun" |}].
Proof.
  assert (H : NoDup (map Seed.username [{| Seed.username := "pumpdotfun";
                                           Seed.url := "https://x.com/pumpdotfun" |}])).
  { constructor; [intros []|constructor]. }
  split; [exact H|]. split; [reflexivity|].
  exact (proj1 (@seed_idempotent _ H)).
Defined.

(* ================================================================== *)
(** * The embed: every category of the worker has a style *)

(** X28.  The [switch] of [createDiscordEmbed] covers the categories of the
    worker: a category gets the gray fallback style exactly when it is none
    of the twenty categories of [enum Category] other than ['not-relevant'],
    and such a category is always routed to the general channel. *)
Theorem embed_style_covers_categories (category : string) :
  (fst (Embed.style category) = Embed.gray <-> ~ In category Embed.official) /\
  (~ In category Embed.official ->
   Embed.style category = (Embed.gray, "ℹ️ GENERAL INFO ℹ️") /\
   isHighPriority category = false).
Proof.
  assert (Hout : ~ In category Embed.official ->
                 Embed.style category = (Embed.gray, "ℹ️ GENERAL INFO ℹ️") /\
                 isHighPriority category = false).
  { intros Hn. unfold Embed.style, Embed.oneOf, isHighPriority, highPriority.
    cbn [existsb].
    repeat match goal with
           | |- context [String.eqb category ?L] =>
               destruct (String.eqb_spec category L) as [->|?];
               [exfalso; apply Hn; unfold Embed.official; simpl; tauto|]
           end.
    split; reflexivity. }
  split; [|exact Hout]. split.
  - intros Hg Hin. unfold Embed.official in Hin. simpl in Hin.
    repeat (destruct Hin as [<-|Hin]; [vm_compute in Hg; discriminate|]).
    exact Hin.
  - intros Hn. destruct (Hout Hn) as [-> _]. reflexivity.
Qed.

Lemma embed_style_covers_categories_witness :
  ~ In "Rumor" Embed.official /\
  Embed.style "Rumor" = (Embed.gray, "ℹ️ GENERAL INFO ℹ️") /\
  isHighPriority "Rumor" = false.
Proof.
  assert (H : ~ In "Rumor" Embed.official).
  { unfold Embed.official. simpl. intros Hin.
    repeat (destruct Hin as [Hin|Hin]; [discriminate|]). exact Hin. }
  split; [exact H|].
  exact (proj2 (@embed_style_covers_categories "Rumor") H).
Defined.

(* ================================================================== *)
(** * A post the sweep can never settle *)

(** One iteration of the sweep on a post that is notified but cannot be
    saved. *)
Lemma retryOne_unsaved W t s a latency :
  Js.truthy (text t) = false ->
  List.length (contentPartsOf W (inputOf (text t) (mediaUrl t))) <> 1%nat ->
  service W (clock s) (contentPartsOf W (inputOf (text t) (mediaUrl t)))
  = (SvcJson a, latency) ->
  Z.of_nat latency < AI_TIMEOUT_MS ->
  category a <> "error" -> category a <> "not-relevant" ->
  retryOne W t s
  = (Ok false, setClock (clock s + Z.of_nat latency) s,
     [EvRetrying (tweetId t)] ++
     ([EvAICall (clock s) (contentPartsOf W (inputOf (text t) (mediaUrl t)))] ++
      enrichEvents W (contracts a) ++
      [EvDiscord (channelFor (category a))
                 (dtoOfPost t a (enrichedList W (contracts a)) (clock s + Z.of_nat latency))])).
Proof.
  intros Htext Hparts Hsvc Hlat Hne Hnr.
  unfold retryOne. eapply bind_eq; [reflexivity|].
  apply tryCatch_ok. eapply bind_eq.
  - apply (@sweep_classification W (inputOf (text t) (mediaUrl t)) AI_TIMEOUT_MS errorSentinel
             s (SvcJson a) latency); [now right | exact Hsvc].
  - apply Z.lt_le_incl, Z.leb_le in Hlat. rewrite Hlat. change (answerOf (SvcJson a)) with a.
    apply String.eqb_neq in Hne. rewrite Hne. simpl negb. cbv iota.
    apply (@branch_unsaved W (tweetId t) (dtoOfPost t) a
             (setClock (clock s + Z.of_nat latency) s) Hnr).
    + intros; reflexivity.
    + intros; reflexivity.
    + left. unfold validTweetIA, dtoOfPost. cbn [ia_tweetId ia_username ia_text ia_timestamp].
      replace (requiredStr (text t)) with (@None string).
      * destruct (requiredStr (Some (tweetId t))); [|reflexivity].
        destruct (requiredStr (Some (username t))); reflexivity.
      * unfold Js.truthy in Htext. unfold requiredStr.
        destruct (text t) as [x|]; [|reflexivity].
        destruct (x =? "")%string; [reflexivity | discriminate].
Qed.

(** X9.  A relevant post without text is notified again by every sweep: saving
    its classified post fails each time (the schema requires a text), so the
    post stays [unprocessed], the sweep selects it again, and [n] sweeps
    send [n] notifications for it while the store does not change. *)
Theorem media_only_notified_every_sweep (W : World) (limit : nat) (p : RawPost)
        (a : Analysis) (latency : nat) (n : nat) (s : State) :
  firstn limit (filter isUnprocessed (posts s)) = [p] ->
  Js.truthy (text p) = false ->
  List.length (contentPartsOf W (inputOf (text p) (mediaUrl p))) <> 1%nat ->
  (forall time, service W time (contentPartsOf W (inputOf (text p) (mediaUrl p)))
                = (SvcJson a, latency)) ->
  Z.of_nat latency < AI_TIMEOUT_MS ->
  category a <> "error" -> category a <> "not-relevant" ->
  posts (fst (sweepRuns W limit n s)) = posts s /\
  tweetsIA (fst (sweepRuns W limit n s)) = tweetsIA s /\
  notifications (snd (sweepRuns W limit n s))
  = repeat (channelFor (category a), category a) n /\
  retried (snd (sweepRuns W limit n s)) = repeat (tweetId p) n.
Proof.
  intros Hsel Htext Hparts Hsvc Hlat Hne Hnr. revert s Hsel.
  induction n as [|n IH]; intros s Hsel; [simpl; auto|].
  assert (Hrun : retryFailedAI W limit s
                 = (Ok tt, setClock (clock s + Z.of_nat latency) s,
                    [] ++
                    ([EvRetrying (tweetId p)] ++
                     ([EvAICall (clock s) (contentPartsOf W (inputOf (text p) (mediaUrl p)))] ++
                      enrichEvents W (contracts a) ++
                      [EvDiscord (channelFor (category a))
                                 (dtoOfPost p a (enrichedList W (contracts a))
                                            (clock s + Z.of_nat latency))])) ++ [])).
  { unfold retryFailedAI. eapply bind_eq.
    - unfold Post_find_unprocessed. rewrite Hsel. reflexivity.
    - simpl retryLoop. eapply bind_eq.
      + apply (@retryOne_unsaved W p s a latency); auto.
      + reflexivity. }
  cbn [sweepRuns]. cbv zeta. rewrite Hrun. unfold stOf, evOf. cbn [fst snd].
  specialize (IH (setClock (clock s + Z.of_nat latency) s) Hsel).
  destruct (sweepRuns W limit n (setClock (clock s + Z.of_nat latency) s)) as [s2 ev2].
  cbn [fst snd posts tweetsIA setClock] in *.
  destruct IH as [Hp [Hi [Hn Hr]]].
  destruct (quiet_enrichEvents W (contracts a)) as [Hq _].
  assert (Hqr : retried (enrichEvents W (contracts a)) = []).
  { apply retried_none. unfold enrichEvents. apply Forall_flat_map. apply Forall_forall.
    intros c _. destruct (dexGet W (address c)) as [[|]|]; repeat constructor. }
  split; [exact Hp|]. split; [exact Hi|].
  rewrite !notifications_app, !retried_app, Hq, Hqr, Hn, Hr. split; reflexivity.
Qed.

Lemma media_only_notified_every_sweep_witness :
  (firstn 5 (filter isUnprocessed
               (posts {| posts := [Scenario.storedPicture]; tweetsIA := [];
                         clock := 1000000; lastAICallTime := 0 |}))
   = [Scenario.storedPicture] /\
   Js.truthy (text Scenario.storedPicture) = false /\
   List.length (contentPartsOf (Scenario.withImages Sample.contractAlert)
                  (inputOf (text Scenario.storedPicture) (mediaUrl Scenario.storedPicture)))
   <> 1%nat /\
   (forall time,
       service (Scenario.withImages Sample.contractAlert) time
               (contentPartsOf (Scenario.withImages Sample.contractAlert)
                  (inputOf (text Scenario.storedPicture) (mediaUrl Scenario.storedPicture)))
       = (SvcJson Sample.contractAlert, 100%nat)) /\
   Z.of_nat 100 < AI_TIMEOUT_MS /\
   category Sample.contractAlert <> "error" /\
   category Sample.contractAlert <> "not-relevant") /\
  notifications (snd (sweepRuns (Scenario.withImages Sample.contractAlert) 5 3
                        {| posts := [Scenario.storedPicture]; tweetsIA := [];
                           clock := 1000000; lastAICallTime := 0 |}))
  = repeat (channelFor (category Sample.contractAlert), category Sample.contractAlert) 3.
Proof.
  assert (H1 : firstn 5 (filter isUnprocessed
                 (posts {| posts := [Scenario.storedPicture]; tweetsIA := [];
                           clock := 1000000; lastAICallTime := 0 |}))
               = [Scenario.storedPicture]) by reflexivity.
  assert (H2 : Js.truthy (text Scenario.storedPicture) = false) by reflexivity.
  assert (H3 : List.length (contentPartsOf (Scenario.withImages Sample.contractAlert)
                              (inputOf (text Scenario.storedPicture)
                                       (mediaUrl Scenario.storedPicture))) <> 1%nat)
    by (vm_compute; discriminate).
  assert (H4 : forall time,
             service (Scenario.withImages Sample.contractAlert) time
               (contentPartsOf (Scenario.withImages Sample.contractAlert)
                  (inputOf (text Scenario.storedPicture) (mediaUrl Scenario.storedPicture)))
             = (SvcJson Sample.contractAlert, 100%nat)) by (intros time; reflexivity).
  assert (H5 : Z.of_nat 100 < AI_TIMEOUT_MS) by (vm_compute; reflexivity).
  assert (H6 : category Sample.contractAlert <> "error") by discriminate.
  assert (H7 : category Sample.contractAlert <> "not-relevant") by discriminate.
  split; [repeat split; assumption|].
  exact (proj1 (proj2 (proj2
           (@media_only_notified_every_sweep (Scenario.withImages Sample.contractAlert) 5
              Scenario.storedPicture Sample.contractAlert 100%nat 3 _
              H1 H2 H3 H4 H5 H6 H7)))).
Defined.
